(** * MonkeyMask Next.js starter: provider bridge and signature route

    A shallow embedding of

    - [src/providers/MonkeyMaskProvider.tsx]: the React context provider that
      discovers the injected wallet handle ([window.banano]), subscribes to
      its lifecycle events, keeps the account-info cache with its in-flight
      registry, and wraps every wallet operation;
    - [src/app/api/verify-signature/route.ts]: the [POST] handler.

    The bridge is an event-driven program: every synchronous stretch of code
    (an event handler, a timer callback, the part of an async wrapper up to
    its next [await], the part after it) is one transition of a machine whose
    state holds the React state, the two refs, the timers and the promises
    that are still outstanding. *)

From Stdlib Require Import ZArith NArith Lia Bool.
From stdpp Require Import gmap strings list fin_maps.

Local Open Scope Z_scope.
Set Warnings "-register-all".

(** ** JavaScript values shared by both parts *)

(** What a [catch] clause can receive.  [(err as Error)?.message] is the
    message of an [Error] object and is [undefined] for anything else. *)
Inductive Thrown : Type :=
| ErrorObj (message : string)
| NonError.

(** A settled promise, or the outcome of a call that may throw. *)
Inductive Settled (T : Type) : Type :=
| Fulfilled (v : T)
| Rejected (e : Thrown).
Arguments Fulfilled {T} v.
Arguments Rejected {T} e.

(** [s.includes(search)] *)
Fixpoint includes (s search : string) : bool :=
  String.prefix search s ||
  match s with
  | EmptyString => false
  | String _ rest => includes rest search
  end.

(** [s.startsWith(search)] *)
Definition startsWith (s search : string) : bool := String.prefix search s.

(** Truthiness of a string: only the empty string is falsy. *)
Definition nonempty (s : string) : bool :=
  match s with EmptyString => false | String _ _ => true end.

(** ** The signature-verification route *)

Module Route.

(** Parsed JSON.  Of a number the handler only asks whether it is zero. *)
Inductive Json : Type :=
| JNull
| JBool (b : bool)
| JNum (n : Z)
| JStr (s : string)
| JArr (items : list Json)
| JObj (fields : list (string * Json)).

(** [body.key] for a parsed body; [None] is [undefined].  [JSON.parse] keeps
    the last of several equal keys; primitives and arrays have none of the
    keys the handler reads. *)
Fixpoint lookup_field (key : string) (fields : list (string * Json)) : option Json :=
  match fields with
  | [] => None
  | (k, v) :: rest =>
      match lookup_field key rest with
      | Some w => Some w
      | None => if String.eqb k key then Some v else None
      end
  end.

Definition get (key : string) (body : Json) : option Json :=
  match body with
  | JObj fields => lookup_field key fields
  | _ => None
  end.

(** JavaScript truthiness of [body.key]. *)
Definition truthy (v : option Json) : bool :=
  match v with
  | None | Some JNull => false
  | Some (JBool b) => b
  | Some (JNum n) => negb (n =? 0)
  | Some (JStr s) => nonempty s
  | Some (JArr _) | Some (JObj _) => true
  end.

(** The JSON payload of a response; absent keys are [None]. *)
Record Payload : Type := {
  valid : bool;
  message : option string;
  verifiedAt : option string;
  error : option string
}.

Record Response : Type := { status : Z; payload : Payload }.

(** [NextResponse.json(data)] answers with status 200 unless told otherwise. *)
Definition json (data : Payload) : Response := {| status := 200; payload := data |}.
Definition json_status (data : Payload) (code : Z) : Response :=
  {| status := code; payload := data |}.

Definition LF : string := String (Ascii.ascii_of_nat 10) EmptyString.

Section Handler.

(** [bananojs.BananoUtil], an external library: both calls may throw. *)
Variable getAccountPublicKey : string -> Settled string.
Variable verifyMessage : string -> string -> string -> Settled bool.
(** String conversion of a value inside a template literal.  It throws a
    [TypeError] for a value that has no primitive form, which a parsed body
    can hold: an object with a member named [toString], or an array with
    such an object in it. *)
Variable toString : Json -> Settled string.

Definition interpolate (v : Json) : Settled string :=
  match v with JStr s => Fulfilled s | _ => toString v end.

(** [verifyError instanceof Error ? verifyError.message : '...'] *)
Definition verifyErrorText (e : Thrown) : string :=
  match e with
  | ErrorObj m => m
  | NonError => "Unknown verification error"
  end.

(** The inner [try] block, lines 30-61.  The template literal of line 32
    is evaluated first: when the conversion of the origin throws, neither
    the address conversion nor the verification is reached. *)
Definition verification (verificationOrigin : Json) (message signature publicKey now : string)
  : Settled Response :=
  match interpolate verificationOrigin with
  | Rejected e => Rejected e
  | Fulfilled originText =>
      let messageToVerify :=
        "MonkeyMask Signed Message:" +:+ LF +:+ "Origin: " +:+ originText
          +:+ LF +:+ "Message: " +:+ message in
      let converted :=
        if startsWith publicKey "ban_" then
          match getAccountPublicKey publicKey with
          | Fulfilled hex => Fulfilled hex
          | Rejected _ => Rejected (ErrorObj "Invalid Banano address format")
          end
        else Fulfilled publicKey in
      match converted with
      | Rejected e => Rejected e
      | Fulfilled hexPublicKey =>
          match verifyMessage hexPublicKey messageToVerify signature with
          | Rejected e => Rejected e
          | Fulfilled isValid =>
              Fulfilled (json {| valid := isValid;
                                 message := Some (if isValid
                                                  then "Signature verified successfully"
                                                  else "Signature verification failed");
                                 verifiedAt := Some now;
                                 error := None |})
          end
      end
  end.

(** The inner [try] with its [catch], lines 30-69. *)
Definition verificationStep (verificationOrigin : Json) (message signature publicKey now : string)
  : Response :=
  match verification verificationOrigin message signature publicKey now with
  | Fulfilled r => r
  | Rejected verifyError =>
      json {| valid := false;
              message := Some "Signature verification failed";
              verifiedAt := None;
              error := Some (verifyErrorText verifyError) |}
  end.

Definition internalServerError : Response :=
  json_status {| valid := false; message := None; verifiedAt := None;
                 error := Some "Internal server error" |} 500.

Definition missingParameters : Response :=
  json_status {| valid := false; message := None; verifiedAt := None;
                 error := Some "Missing required parameters: message, signature, publicKey" |} 400.

(** How far the handler gets before the inner [try]: the outer [catch]
    takes over when [request.json()] rejects, when the body is [null]
    (destructuring throws) and when [substring] is called on a required
    parameter that is not a string (the logging at lines 23-28). *)
Inductive Progress : Type :=
| FailedBefore
| Missing
| Reached (verificationOrigin : Json) (message signature publicKey : string).

Definition progress (body : option Json) (originHeader : option string) : Progress :=
  match body with
  | None | Some JNull => FailedBefore
  | Some b =>
      let message := get "message" b in
      let signature := get "signature" b in
      let publicKey := get "publicKey" b in
      let origin := get "origin" b in
      if negb (truthy message) || negb (truthy signature) || negb (truthy publicKey)
      then Missing
      else
        let verificationOrigin :=
          if truthy origin then default JNull origin
          else match originHeader with
               | Some h => if nonempty h then JStr h else JStr "unknown"
               | None => JStr "unknown"
               end in
        match message, signature, publicKey with
        | Some (JStr m), Some (JStr s), Some (JStr k) => Reached verificationOrigin m s k
        | _, _, _ => FailedBefore
        end
  end.

(** [POST]: [body] is the outcome of [request.json()] ([None] when it
    rejects), [originHeader] is [request.headers.get('origin')] and [now]
    is [new Date().toISOString()]. *)
Definition POST (body : option Json) (originHeader : option string) (now : string) : Response :=
  match progress body originHeader with
  | FailedBefore => internalServerError
  | Missing => missingParameters
  | Reached verificationOrigin message signature publicKey =>
      verificationStep verificationOrigin message signature publicKey now
  end.

(** The inner [try] throws on these arguments: the verification library
    while it converts the address or verifies, or before it is called the
    template literal of line 32. *)
Definition libraryThrows (verificationOrigin : Json) (message signature publicKey now : string) : Prop :=
  exists e, verification verificationOrigin message signature publicKey now = Rejected e.

End Handler.

End Route.

(** ** The provider bridge *)

Module Bridge.

(** *** Types of the wallet API ([src/types/monkeymask.ts]) *)

Record AccountInfo : Type := {
  address : string;
  balance : string;
  pending : string;
  rawBalance : string;
  rawPending : string
}.

Record ConnectResult : Type := {
  connectedPublicKey : string;
  connectedAddress : string;
  connectedAccounts : list string
}.

Inductive Encoding : Type := Utf8 | Hex.

Inductive BlockType : Type := BSend | BReceive | BChange | BState.

Record Block : Type := {
  blockType : BlockType;
  blockAccount : string;
  previous : string;
  representative : string;
  blockBalance : string;
  link : string;
  blockSignature : option string;
  work : option string;
  amount : option string
}.

(** [signature] is a [Uint8Array]. *)
Record SignMessageResult : Type := {
  signature : list Byte.byte;
  signerPublicKey : string
}.

Record SignBlockResult : Type := {
  signedSignature : string;
  signedWork : option string
}.

Record TransactionResult : Type := {
  hash : string;
  block : Block
}.

(** The injected object [window.banano]; there is one per page. *)
Inductive Handle : Type := banano.

(** A call of a method of the handle, with its arguments. *)
Inductive Req : Type :=
| PConnect (onlyIfTrusted : bool)
| PDisconnect
| PGetAccounts
| PGetAccountInfo (account : string)
| PSignMessage (message : string) (encoding : Encoding)
| PVerifySignedMessage (message signatureHex key : string) (encoding : Encoding)
| PSignBlock (b : Block)
| PSendTransaction (from to amt : string)
| PSendBlock (b : Block)
| PResolveBNS (bnsName : string).

(** What the promise of such a call can be fulfilled with. *)
Inductive Value : Type :=
| VConnect (r : ConnectResult)
| VVoid
| VAccounts (l : list string)
| VAccountInfo (data : AccountInfo)
| VSignMessage (r : SignMessageResult)
| VBool (b : bool)
| VSignBlock (r : SignBlockResult)
| VTransaction (r : TransactionResult)
| VString (str : string).

(** The declared promise type of each method: a fulfilment of another type
    is excluded by the interface [MonkeyMaskProvider]; a rejection can carry
    anything. *)
Definition answers (q : Req) (r : Settled Value) : bool :=
  match r with
  | Rejected _ => true
  | Fulfilled v =>
      match q, v with
      | PConnect _, VConnect _
      | PDisconnect, VVoid
      | PGetAccounts, VAccounts _
      | PGetAccountInfo _, VAccountInfo _
      | PSignMessage _ _, VSignMessage _
      | PVerifySignedMessage _ _ _ _, VBool _
      | PSignBlock _, VSignBlock _
      | PSendTransaction _ _ _, VTransaction _
      | PSendBlock _, VString _
      | PResolveBNS _, VString _ => true
      | _, _ => false
      end
  end.

(** What a wrapper hands back to the component that called it. *)
Inductive Result : Type :=
| RetVoid
| RetAccounts (l : list string)
| RetInfo (info : option AccountInfo)
| RetString (str : option string)
| RetBool (b : option bool)
| RetSignBlock (r : option SignBlockResult).

(** An async wrapper suspended at an [await]: the code that runs once the
    awaited promise settles, with the variables it still needs.  The first
    argument names the invocation. *)
Inductive Frame : Type :=
| KConnect (c : nat)
| KDisconnect (c : nat)
| KGetAccounts (c : nat)
| KGetAccountInfo (c : nat)
| KGetBalance (c : nat)
| KSendResolve (c : nat) (activeKey to amt : string)
| KSendTransaction (c : nat)
| KSignMessage (c : nat)
| KVerifySignedMessage (c : nat)
| KSignBlock (c : nat)
| KSendBlock (c : nat)
| KResolveBNS (c : nat) (bnsName : string)
| KSilent.

(** What a transition does to the outside: a call of the handle (whose
    promise gets the number [id]), a call of one of the configuration
    callbacks, the return of a wrapper to its caller. *)
Inductive Effect : Type :=
| Called (id : nat) (q : Req)
| OnConnect (key : string)
| OnDisconnect
| OnError (message : string)
| Returned (c : nat) (r : Result).

(** *** State of the component *)

Record State : Type := MkState {
  (* configuration *)
  autoConnect : bool;
  (* useState *)
  provider : option Handle;
  isInstalled : bool;
  isConnected : bool;
  isConnecting : bool;
  publicKey : option string;
  accounts : list string;
  error : option string;
  userDisconnected : bool;
  (* useRef *)
  accountInfoCache : gmap string (Z * AccountInfo);
  accountInfoInFlight : gmap string nat;
  (* the closure of the mount effect *)
  initialized : bool;
  retryCount : nat;
  pollTimer : option Z;
  (* the timer of the auto-connect effect *)
  autoConnectTimer : option Z;
  (* Date.now() *)
  now : Z;
  (* promises of the handle that have not settled, each with the wrappers
     awaiting it, in the order in which they started to wait *)
  nextId : nat;
  outstanding : gmap nat (Req * list Frame)
}.

Definition with_provider (v : option Handle) (s : State) : State :=
  {| autoConnect := autoConnect s; provider := v; isInstalled := isInstalled s;
     isConnected := isConnected s; isConnecting := isConnecting s; publicKey := publicKey s;
     accounts := accounts s; error := error s; userDisconnected := userDisconnected s;
     accountInfoCache := accountInfoCache s; accountInfoInFlight := accountInfoInFlight s;
     initialized := initialized s; retryCount := retryCount s; pollTimer := pollTimer s;
     autoConnectTimer := autoConnectTimer s; now := now s; nextId := nextId s;
     outstanding := outstanding s |}.
Definition with_isInstalled (v : bool) (s : State) : State :=
  {| autoConnect := autoConnect s; provider := provider s; isInstalled := v;
     isConnected := isConnected s; isConnecting := isConnecting s; publicKey := publicKey s;
     accounts := accounts s; error := error s; userDisconnected := userDisconnected s;
     accountInfoCache := accountInfoCache s; accountInfoInFlight := accountInfoInFlight s;
     initialized := initialized s; retryCount := retryCount s; pollTimer := pollTimer s;
     autoConnectTimer := autoConnectTimer s; now := now s; nextId := nextId s;
     outstanding := outstanding s |}.
Definition with_isConnected (v : bool) (s : State) : State :=
  {| autoConnect := autoConnect s; provider := provider s; isInstalled := isInstalled s;
     isConnected := v; isConnecting := isConnecting s; publicKey := publicKey s;
     accounts := accounts s; error := error s; userDisconnected := userDisconnected s;
     accountInfoCache := accountInfoCache s; accountInfoInFlight := accountInfoInFlight s;
     initialized := initialized s; retryCount := retryCount s; pollTimer := pollTimer s;
     autoConnectTimer := autoConnectTimer s; now := now s; nextId := nextId s;
     outstanding := outstanding s |}.
Definition with_isConnecting (v : bool) (s : State) : State :=
  {| autoConnect := autoConnect s; provider := provider s; isInstalled := isInstalled s;
     isConnected := isConnected s; isConnecting := v; publicKey := publicKey s;
     accounts := accounts s; error := error s; userDisconnected := userDisconnected s;
     accountInfoCache := accountInfoCache s; accountInfoInFlight := accountInfoInFlight s;
     initialized := initialized s; retryCount := retryCount s; pollTimer := pollTimer s;
     autoConnectTimer := autoConnectTimer s; now := now s; nextId := nextId s;
     outstanding := outstanding s |}.
Definition with_publicKey (v : option string) (s : State) : State :=
  {| autoConnect := autoConnect s; provider := provider s; isInstalled := isInstalled s;
     isConnected := isConnected s; isConnecting := isConnecting s; publicKey := v;
     accounts := accounts s; error := error s; userDisconnected := userDisconnected s;
     accountInfoCache := accountInfoCache s; accountInfoInFlight := accountInfoInFlight s;
     initialized := initialized s; retryCount := retryCount s; pollTimer := pollTimer s;
     autoConnectTimer := autoConnectTimer s; now := now s; nextId := nextId s;
     outstanding := outstanding s |}.
Definition with_accounts (v : list string) (s : State) : State :=
  {| autoConnect := autoConnect s; provider := provider s; isInstalled := isInstalled s;
     isConnected := isConnected s; isConnecting := isConnecting s; publicKey := publicKey s;
     accounts := v; error := error s; userDisconnected := userDisconnected s;
     accountInfoCache := accountInfoCache s; accountInfoInFlight := accountInfoInFlight s;
     initialized := initialized s; retryCount := retryCount s; pollTimer := pollTimer s;
     autoConnectTimer := autoConnectTimer s; now := now s; nextId := nextId s;
     outstanding := outstanding s |}.
Definition with_error (v : option string) (s : State) : State :=
  {| autoConnect := autoConnect s; provider := provider s; isInstalled := isInstalled s;
     isConnected := isConnected s; isConnecting := isConnecting s; publicKey := publicKey s;
     accounts := accounts s; error := v; userDisconnected := userDisconnected s;
     accountInfoCache := accountInfoCache s; accountInfoInFlight := accountInfoInFlight s;
     initialized := initialized s; retryCount := retryCount s; pollTimer := pollTimer s;
     autoConnectTimer := autoConnectTimer s; now := now s; nextId := nextId s;
     outstanding := outstanding s |}.
Definition with_userDisconnected (v : bool) (s : State) : State :=
  {| autoConnect := autoConnect s; provider := provider s; isInstalled := isInstalled s;
     isConnected := isConnected s; isConnecting := isConnecting s; publicKey := publicKey s;
     accounts := accounts s; error := error s; userDisconnected := v;
     accountInfoCache := accountInfoCache s; accountInfoInFlight := accountInfoInFlight s;
     initialized := initialized s; retryCount := retryCount s; pollTimer := pollTimer s;
     autoConnectTimer := autoConnectTimer s; now := now s; nextId := nextId s;
     outstanding := outstanding s |}.
Definition with_accountInfoCache (v : gmap string (Z * AccountInfo)) (s : State) : State :=
  {| autoConnect := autoConnect s; provider := provider s; isInstalled := isInstalled s;
     isConnected := isConnected s; isConnecting := isConnecting s; publicKey := publicKey s;
     accounts := accounts s; error := error s; userDisconnected := userDisconnected s;
     accountInfoCache := v; accountInfoInFlight := accountInfoInFlight s;
     initialized := initialized s; retryCount := retryCount s; pollTimer := pollTimer s;
     autoConnectTimer := autoConnectTimer s; now := now s; nextId := nextId s;
     outstanding := outstanding s |}.
Definition with_accountInfoInFlight (v : gmap string nat) (s : State) : State :=
  {| autoConnect := autoConnect s; provider := provider s; isInstalled := isInstalled s;
     isConnected := isConnected s; isConnecting := isConnecting s; publicKey := publicKey s;
     accounts := accounts s; error := error s; userDisconnected := userDisconnected s;
     accountInfoCache := accountInfoCache s; accountInfoInFlight := v;
     initialized := initialized s; retryCount := retryCount s; pollTimer := pollTimer s;
     autoConnectTimer := autoConnectTimer s; now := now s; nextId := nextId s;
     outstanding := outstanding s |}.
Definition with_initialized (v : bool) (s : State) : State :=
  {| autoConnect := autoConnect s; provider := provider s; isInstalled := isInstalled s;
     isConnected := isConnected s; isConnecting := isConnecting s; publicKey := publicKey s;
     accounts := accounts s; error := error s; userDisconnected := userDisconnected s;
     accountInfoCache := accountInfoCache s; accountInfoInFlight := accountInfoInFlight s;
     initialized := v; retryCount := retryCount s; pollTimer := pollTimer s;
     autoConnectTimer := autoConnectTimer s; now := now s; nextId := nextId s;
     outstanding := outstanding s |}.
Definition with_retryCount (v : nat) (s : State) : State :=
  {| autoConnect := autoConnect s; provider := provider s; isInstalled := isInstalled s;
     isConnected := isConnected s; isConnecting := isConnecting s; publicKey := publicKey s;
     accounts := accounts s; error := error s; userDisconnected := userDisconnected s;
     accountInfoCache := accountInfoCache s; accountInfoInFlight := accountInfoInFlight s;
     initialized := initialized s; retryCount := v; pollTimer := pollTimer s;
     autoConnectTimer := autoConnectTimer s; now := now s; nextId := nextId s;
     outstanding := outstanding s |}.
Definition with_pollTimer (v : option Z) (s : State) : State :=
  {| autoConnect := autoConnect s; provider := provider s; isInstalled := isInstalled s;
     isConnected := isConnected s; isConnecting := isConnecting s; publicKey := publicKey s;
     accounts := accounts s; error := error s; userDisconnected := userDisconnected s;
     accountInfoCache := accountInfoCache s; accountInfoInFlight := accountInfoInFlight s;
     initialized := initialized s; retryCount := retryCount s; pollTimer := v;
     autoConnectTimer := autoConnectTimer s; now := now s; nextId := nextId s;
     outstanding := outstanding s |}.
Definition with_autoConnectTimer (v : option Z) (s : State) : State :=
  {| autoConnect := autoConnect s; provider := provider s; isInstalled := isInstalled s;
     isConnected := isConnected s; isConnecting := isConnecting s; publicKey := publicKey s;
     accounts := accounts s; error := error s; userDisconnected := userDisconnected s;
     accountInfoCache := accountInfoCache s; accountInfoInFlight := accountInfoInFlight s;
     initialized := initialized s; retryCount := retryCount s; pollTimer := pollTimer s;
     autoConnectTimer := v; now := now s; nextId := nextId s; outstanding := outstanding s |}.
Definition with_now (v : Z) (s : State) : State :=
  {| autoConnect := autoConnect s; provider := provider s; isInstalled := isInstalled s;
     isConnected := isConnected s; isConnecting := isConnecting s; publicKey := publicKey s;
     accounts := accounts s; error := error s; userDisconnected := userDisconnected s;
     accountInfoCache := accountInfoCache s; accountInfoInFlight := accountInfoInFlight s;
     initialized := initialized s; retryCount := retryCount s; pollTimer := pollTimer s;
     autoConnectTimer := autoConnectTimer s; now := v; nextId := nextId s;
     outstanding := outstanding s |}.
Definition with_nextId (v : nat) (s : State) : State :=
  {| autoConnect := autoConnect s; provider := provider s; isInstalled := isInstalled s;
     isConnected := isConnected s; isConnecting := isConnecting s; publicKey := publicKey s;
     accounts := accounts s; error := error s; userDisconnected := userDisconnected s;
     accountInfoCache := accountInfoCache s; accountInfoInFlight := accountInfoInFlight s;
     initialized := initialized s; retryCount := retryCount s; pollTimer := pollTimer s;
     autoConnectTimer := autoConnectTimer s; now := now s; nextId := v;
     outstanding := outstanding s |}.
Definition with_outstanding (v : gmap nat (Req * list Frame)) (s : State) : State :=
  {| autoConnect := autoConnect s; provider := provider s; isInstalled := isInstalled s;
     isConnected := isConnected s; isConnecting := isConnecting s; publicKey := publicKey s;
     accounts := accounts s; error := error s; userDisconnected := userDisconnected s;
     accountInfoCache := accountInfoCache s; accountInfoInFlight := accountInfoInFlight s;
     initialized := initialized s; retryCount := retryCount s; pollTimer := pollTimer s;
     autoConnectTimer := autoConnectTimer s; now := now s; nextId := nextId s;
     outstanding := v |}.

Definition ACCOUNT_INFO_TTL_MS : Z := 5000.
Definition maxRetries : nat := 3.
Definition POLL_INTERVAL_MS : Z := 500.
Definition AUTO_CONNECT_DELAY_MS : Z := 800.

(** *** Synchronous code: state changes and effects in sequence *)

Definition Act : Type := State -> State * list Effect.

Definition skip : Act := fun s => (s, []).

Definition andThen (a b : Act) : Act :=
  fun s => let (s1, e1) := a s in let (s2, e2) := b s1 in (s2, e1 ++ e2).

Infix ">>" := andThen (at level 61, left associativity).

Definition update (f : State -> State) : Act := fun s => (f s, []).
Definition emit (e : Effect) : Act := fun s => (s, [e]).

Definition setProvider v := update (with_provider v).
Definition setIsInstalled v := update (with_isInstalled v).
Definition setIsConnected v := update (with_isConnected v).
Definition setIsConnecting v := update (with_isConnecting v).
Definition setPublicKey v := update (with_publicKey v).
Definition setAccounts v := update (with_accounts v).
Definition setError v := update (with_error v).
Definition setUserDisconnected v := update (with_userDisconnected v).

(** A wrapper returns [r] to its caller [c]. *)
Definition ret (c : nat) (r : Result) : Act := emit (Returned c r).

(** [x || y] on optional strings, the empty string being falsy. *)
Definition orElse (x y : option string) : option string :=
  match x with
  | Some a => if nonempty a then Some a else y
  | None => y
  end.

(** [handleError], lines 70-93.  The cast [err as Error] is taken at its
    word: a thrown value has a string message or none. *)
Definition errorMessageOf (err : Thrown) (defaultMessage : string) : string :=
  match err with
  | ErrorObj m => if nonempty m then m else defaultMessage
  | NonError => defaultMessage
  end.

Definition handleError (err : Thrown) (defaultMessage : string) : Act :=
  let errorMessage := errorMessageOf err defaultMessage in
  (if includes errorMessage "Extension context invalidated"
      || includes errorMessage "context invalidated"
      || includes errorMessage "message port closed"
   then setError (Some "Extension connection lost. Please refresh the page.")
        >> setIsConnected false >> setPublicKey None >> setAccounts []
   else if includes errorMessage "Wallet is locked"
           || includes errorMessage "locked"
           || includes errorMessage "unlock"
   then setError (Some "Wallet is locked. The extension will prompt you to unlock for this transaction.")
   else if includes errorMessage "User rejected"
           || includes errorMessage "rejected"
   then setError (Some "Transaction was rejected by user.")
   else setError (Some errorMessage))
  >> emit (OnError errorMessage).

Definition clearError : Act := setError None.

(** *** Calls of the handle and waiting for them *)

(** [provider.q(...)]: the promise gets the next number, and the wrapper
    that made the call waits for it with [k]. *)
Definition call (q : Req) (k : Frame) : Act :=
  fun s =>
    let id := nextId s in
    (with_outstanding (<[id := (q, [k])]> (outstanding s)) (with_nextId (S id) s),
     [Called id q]).

(** [await p] on a promise that is already there. *)
Definition addWaiter (k : Frame) (entry : Req * list Frame) : Req * list Frame :=
  (entry.1, entry.2 ++ [k]).

Definition await (p : nat) (k : Frame) : Act :=
  update (fun s => with_outstanding (alter (addWaiter k) p (outstanding s)) s).

Definition notInstalled : Act :=
  handleError (ErrorObj "MonkeyMask not installed") "MonkeyMask extension not found".

Definition noAccountSelected : Act :=
  handleError (ErrorObj "No account selected") "Please connect your wallet first".

(** *** The action wrappers, up to their first [await] *)

(** [connect], lines 197-215. *)
Definition connect (c : nat) : Act :=
  fun s =>
    match provider s with
    | None => (notInstalled >> ret c RetVoid) s
    | Some _ =>
        (setIsConnecting true >> clearError >> setUserDisconnected false
         >> call (PConnect false) (KConnect c)) s
    end.

(** [disconnect], lines 217-227. *)
Definition disconnect (c : nat) : Act :=
  fun s =>
    match provider s with
    | None => ret c RetVoid s
    | Some _ => (setUserDisconnected true >> call PDisconnect (KDisconnect c)) s
    end.

(** [getAccounts], lines 230-244. *)
Definition getAccounts (c : nat) : Act :=
  fun s =>
    match provider s with
    | None => (notInstalled >> ret c (RetAccounts [])) s
    | Some _ => call PGetAccounts (KGetAccounts c) s
    end.

(** [cached && Date.now() - cached.ts < ACCOUNT_INFO_TTL_MS] *)
Definition freshData (cached : option (Z * AccountInfo)) (time : Z) : option AccountInfo :=
  match cached with
  | Some (ts, data) => if time - ts <? ACCOUNT_INFO_TTL_MS then Some data else None
  | None => None
  end.

(** Lines 268-277: the call, the registration of its promise, the wait.
    The [then] and [catch] callbacks attached here run when the promise
    settles; they are [settleAccountInfo] below. *)
Definition fetchAccountInfo (target : string) (k : Frame) : Act :=
  fun s =>
    let p := nextId s in
    (call (PGetAccountInfo target) k
     >> update (fun s' => with_accountInfoInFlight (<[target := p]> (accountInfoInFlight s')) s')) s.

(** [getAccountInfo], lines 246-284.  [k] is what waits when the function
    reaches an [await], [done] what happens to a result it has at once: the
    function is called by components and by [getBalance]. *)
Definition getAccountInfo (address : option string) (k : Frame)
    (done : option AccountInfo -> Act) : Act :=
  fun s =>
    match provider s with
    | None => (notInstalled >> done None) s
    | Some _ =>
        match orElse address (orElse (publicKey s) None) with
        | None => done None s
        | Some target =>
            match freshData (accountInfoCache s !! target) (now s) with
            | Some data => done (Some data) s
            | None =>
                match accountInfoInFlight s !! target with
                | Some existingPromise => await existingPromise k s
                | None => fetchAccountInfo target k s
                end
            end
        end
    end.

(** [getBalance], lines 286-308. *)
Definition getBalance (c : nat) (address : option string) : Act :=
  fun s =>
    match provider s with
    | None => (notInstalled >> ret c (RetString None)) s
    | Some _ =>
        match orElse address (orElse (publicKey s) None) with
        | None => ret c (RetString None) s
        | Some target =>
            match freshData (accountInfoCache s !! target) (now s) with
            | Some data => ret c (RetString (Some (balance data))) s
            | None =>
                getAccountInfo (Some target) (KGetBalance c)
                  (fun info => ret c (RetString (balance <$> info))) s
            end
        end
    end.

(** [to.includes('.ban') || to.includes('.banano')] *)
Definition looksLikeBNS (to : string) : bool :=
  includes to ".ban" || includes to ".banano".

(** [sendTransaction], lines 310-345. *)
Definition sendTransaction (c : nat) (to amt : string) : Act :=
  fun s =>
    match provider s with
    | None => (notInstalled >> ret c (RetString None)) s
    | Some _ =>
        match orElse (publicKey s) None with
        | None => (noAccountSelected >> ret c (RetString None)) s
        | Some key =>
            if looksLikeBNS to
            then call (PResolveBNS to) (KSendResolve c key to amt) s
            else call (PSendTransaction key to amt) (KSendTransaction c) s
        end
    end.

(** [signMessage], lines 347-368. *)
Definition signMessage (c : nat) (message : string) (encoding : option Encoding) : Act :=
  fun s =>
    match provider s with
    | None => (notInstalled >> ret c (RetString None)) s
    | Some _ =>
        match orElse (publicKey s) None with
        | None => (noAccountSelected >> ret c (RetString None)) s
        | Some _ => call (PSignMessage message (default Utf8 encoding)) (KSignMessage c) s
        end
    end.

(** [verifySignedMessage], lines 370-392. *)
Definition verifySignedMessage (c : nat) (message signatureHex : string)
    (publicKeyParam : option string) (encoding : option Encoding) : Act :=
  fun s =>
    match provider s with
    | None => (notInstalled >> ret c (RetBool None)) s
    | Some _ =>
        match orElse publicKeyParam (orElse (publicKey s) None) with
        | None => (noAccountSelected >> ret c (RetBool None)) s
        | Some keyToUse =>
            call (PVerifySignedMessage message signatureHex keyToUse (default Utf8 encoding))
              (KVerifySignedMessage c) s
        end
    end.

(** [signBlock], lines 394-413. *)
Definition signBlock (c : nat) (b : Block) : Act :=
  fun s =>
    match provider s with
    | None => (notInstalled >> ret c (RetSignBlock None)) s
    | Some _ =>
        match orElse (publicKey s) None with
        | None => (noAccountSelected >> ret c (RetSignBlock None)) s
        | Some _ => call (PSignBlock b) (KSignBlock c) s
        end
    end.

(** [sendBlock], lines 415-434. *)
Definition sendBlock (c : nat) (b : Block) : Act :=
  fun s =>
    match provider s with
    | None => (notInstalled >> ret c (RetString None)) s
    | Some _ =>
        match orElse (publicKey s) None with
        | None => (noAccountSelected >> ret c (RetString None)) s
        | Some _ => call (PSendBlock b) (KSendBlock c) s
        end
    end.

(** [resolveBNS], lines 436-449. *)
Definition resolveBNS (c : nat) (bnsName : string) : Act :=
  fun s =>
    match provider s with
    | None => (notInstalled >> ret c (RetString None)) s
    | Some _ => call (PResolveBNS bnsName) (KResolveBNS c bnsName) s
    end.

(** *** The action wrappers, after an [await] *)

(** [byte.toString(16).padStart(2, '0')] *)
Definition hexDigit (n : N) : string :=
  match n with
  | 0 => "0" | 1 => "1" | 2 => "2" | 3 => "3" | 4 => "4" | 5 => "5" | 6 => "6" | 7 => "7"
  | 8 => "8" | 9 => "9" | 10 => "a" | 11 => "b" | 12 => "c" | 13 => "d" | 14 => "e"
  | _ => "f"
  end%N.

Definition toString16 (n : N) : string :=
  (if n <? 16 then hexDigit n else hexDigit (n / 16) +:+ hexDigit (n mod 16))%N.

Definition padStart2 (str : string) : string :=
  match String.length str with
  | O => "00"
  | S O => "0" +:+ str
  | _ => str
  end.

(** [Array.from(signature, byte => ...).join('')] *)
Definition toHex (bytes : list Byte.byte) : string :=
  foldr (fun b acc => padStart2 (toString16 (Byte.to_N b)) +:+ acc) "" bytes.

(** What [getAccountInfo] does once the shared promise has settled: return
    the data, or go through its [catch]. *)
Definition accountInfoSettled (r : Settled Value) (done : option AccountInfo -> Act) : Act :=
  match r with
  | Fulfilled (VAccountInfo data) => done (Some data)
  | Fulfilled _ => skip
  | Rejected err => handleError err "Failed to get account info" >> done None
  end.

(** The rest of each wrapper, as far as it runs in the same turn of the
    microtask queue as the reaction to the promise.  A fulfilment of a type
    the interface excludes is never delivered (see [answers]); those cases
    do nothing.  For [getBalance] this is the rest of the call of
    [getAccountInfo] it made at line 302, [catch] included; what
    [getBalance] does with the outcome comes a turn later, see
    [resumeLater]. *)
Definition resume (k : Frame) (r : Settled Value) : Act :=
  match k with
  | KConnect c =>
      match r with
      | Fulfilled _ => setIsConnecting false >> ret c RetVoid
      | Rejected err =>
          handleError err "Failed to connect to MonkeyMask"
          >> setIsConnecting false >> ret c RetVoid
      end
  | KDisconnect c =>
      match r with
      | Fulfilled _ => ret c RetVoid
      | Rejected err => handleError err "Failed to disconnect" >> ret c RetVoid
      end
  | KGetAccounts c =>
      match r with
      | Fulfilled (VAccounts l) => setAccounts l >> ret c (RetAccounts l)
      | Fulfilled _ => skip
      | Rejected err => handleError err "Failed to get accounts" >> ret c (RetAccounts [])
      end
  | KGetAccountInfo c => accountInfoSettled r (fun info => ret c (RetInfo info))
  | KGetBalance c => accountInfoSettled r (fun _ => skip)
  | KSendResolve c key to amt =>
      match r with
      | Fulfilled (VString resolvedAddress) =>
          if nonempty resolvedAddress
          then call (PSendTransaction key resolvedAddress amt) (KSendTransaction c)
          else handleError (ErrorObj ("Failed to resolve BNS name: " +:+ to)) "BNS resolution failed"
               >> ret c (RetString None)
      | Fulfilled _ => skip
      | Rejected bnsError =>
          handleError bnsError ("Failed to resolve BNS name: " +:+ to) >> ret c (RetString None)
      end
  | KSendTransaction c =>
      match r with
      | Fulfilled (VTransaction result) => ret c (RetString (Some (hash result)))
      | Fulfilled _ => skip
      | Rejected err => handleError err "Failed to send transaction" >> ret c (RetString None)
      end
  | KSignMessage c =>
      match r with
      | Fulfilled (VSignMessage result) => ret c (RetString (Some (toHex (signature result))))
      | Fulfilled _ => skip
      | Rejected err => handleError err "Failed to sign message" >> ret c (RetString None)
      end
  | KVerifySignedMessage c =>
      match r with
      | Fulfilled (VBool isValid) => ret c (RetBool (Some isValid))
      | Fulfilled _ => skip
      | Rejected err => handleError err "Failed to verify signed message" >> ret c (RetBool None)
      end
  | KSignBlock c =>
      match r with
      | Fulfilled (VSignBlock result) => ret c (RetSignBlock (Some result))
      | Fulfilled _ => skip
      | Rejected err => handleError err "Failed to sign block" >> ret c (RetSignBlock None)
      end
  | KSendBlock c =>
      match r with
      | Fulfilled (VString h) => ret c (RetString (Some h))
      | Fulfilled _ => skip
      | Rejected err => handleError err "Failed to send block" >> ret c (RetString None)
      end
  | KResolveBNS c bnsName =>
      match r with
      | Fulfilled (VString resolvedAddress) => ret c (RetString (Some resolvedAddress))
      | Fulfilled _ => skip
      | Rejected err =>
          handleError err ("Failed to resolve BNS name: " +:+ bnsName) >> ret c (RetString None)
      end
  | KSilent => skip
  end.

(** [getBalance] awaits the promise of its own call of [getAccountInfo],
    line 302, and returns [info?.balance ?? null], line 303: it goes on one
    turn after that call has returned, hence after every wrapper that
    awaited the promise of the handle has run. *)
Definition resumeLater (k : Frame) (r : Settled Value) : Act :=
  match k with
  | KGetBalance c =>
      match r with
      | Fulfilled (VAccountInfo data) => ret c (RetString (Some (balance data)))
      | Fulfilled _ => skip
      | Rejected _ => ret c (RetString None)
      end
  | _ => skip
  end.

Fixpoint resumeEach (ks : list Frame) (r : Settled Value) : Act :=
  match ks with
  | [] => skip
  | k :: rest => resume k r >> resumeEach rest r
  end.

Fixpoint resumeLaterEach (ks : list Frame) (r : Settled Value) : Act :=
  match ks with
  | [] => skip
  | k :: rest => resumeLater k r >> resumeLaterEach rest r
  end.

(** The reactions to a settled promise run in the order in which the
    wrappers began to await it; what waits for those wrappers follows. *)
Definition resumeAll (ks : list Frame) (r : Settled Value) : Act :=
  resumeEach ks r >> resumeLaterEach ks r.

(** The [then] and [catch] callbacks of lines 268-275, which run before
    anything that awaits the promise they produce. *)
Definition settleAccountInfo (target : string) (r : Settled Value) : Act :=
  match r with
  | Fulfilled (VAccountInfo data) =>
      update (fun s => with_accountInfoCache (<[target := (now s, data)]> (accountInfoCache s)) s)
      >> update (fun s => with_accountInfoInFlight (delete target (accountInfoInFlight s)) s)
  | Fulfilled _ => skip
  | Rejected _ =>
      update (fun s => with_accountInfoInFlight (delete target (accountInfoInFlight s)) s)
  end.

Definition reaction (q : Req) (r : Settled Value) : Act :=
  match q with
  | PGetAccountInfo target => settleAccountInfo target r
  | _ => skip
  end.

(** A settled promise is no longer outstanding. *)
Definition forget (id : nat) : Act :=
  update (fun s => with_outstanding (delete id (outstanding s)) s).

(** The promise [id] settles with [r]. *)
Definition settle (id : nat) (r : Settled Value) : Act :=
  fun s =>
    match outstanding s !! id with
    | Some (q, ks) =>
        if answers q r
        then (forget id >> reaction q r >> resumeAll ks r) s
        else (s, [])
    | None => (s, [])
    end.

(** *** Lifecycle events of the handle, lines 111-154 *)

Definition clearCache : Act := update (with_accountInfoCache ∅).

Definition onConnectEvent (key : string) (accts : option (list string)) : Act :=
  setIsConnected true
  >> setPublicKey (Some key)
  >> setAccounts (default [key] accts)
  >> setUserDisconnected false
  >> clearError
  >> clearCache
  >> emit (OnConnect key).

Definition onDisconnectEvent : Act :=
  setIsConnected false
  >> setPublicKey None
  >> setAccounts []
  >> clearCache
  >> emit OnDisconnect.

Definition onAccountChanged (newPublicKey : string) : Act :=
  setIsConnected true
  >> setPublicKey (Some newPublicKey)
  >> setAccounts [newPublicKey]
  >> clearCache
  >> emit (OnConnect newPublicKey).

(** *** Discovery of the handle, lines 100-178 *)

(** [present] says whether [window.banano] is defined when the code looks. *)
Definition initializeProvider (present : bool) : Act :=
  fun s =>
    if initialized s then (s, [])
    else if present
    then (update (with_initialized true) >> setProvider (Some banano) >> setIsInstalled true) s
    else setIsInstalled false s.

Definition tryInitialize (present : bool) : Act :=
  initializeProvider present
  >> (fun s =>
        if negb (initialized s) && (retryCount s <? maxRetries)%nat
        then (update (with_retryCount (S (retryCount s)))
              >> update (with_pollTimer (Some (now s + POLL_INTERVAL_MS)))) s
        else (s, [])).

(** The timer set by [setTimeout(tryInitialize, 500)] goes off; a timer
    never runs before it is due. *)
Definition onPollTimer (present : bool) : Act :=
  fun s =>
    match pollTimer s with
    | Some due =>
        if due <=? now s
        then (update (with_pollTimer None) >> tryInitialize present) s
        else (s, [])
    | None => (s, [])
    end.

(** *** The auto-connect effect, lines 182-194 *)

Definition isSome {A} (o : option A) : bool :=
  match o with Some _ => true | None => false end.

(** React runs the effect again when one of its dependencies
    [autoConnect, provider, userDisconnected] has changed between two
    renders: the clean-up of the previous run clears its timer, then the body
    sets a new one if its condition holds. *)
Definition sameDependencies (before after : State) : bool :=
  eqb (autoConnect before) (autoConnect after)
  && eqb (isSome (provider before)) (isSome (provider after))
  && eqb (userDisconnected before) (userDisconnected after).

Definition autoConnectBody (s : State) : State :=
  with_autoConnectTimer
    (if autoConnect s && isSome (provider s) && negb (userDisconnected s)
     then Some (now s + AUTO_CONNECT_DELAY_MS) else None) s.

Definition autoConnectEffect (before after : State) : State :=
  if sameDependencies before after then after else autoConnectBody after.

(** The callback of the timer: [provider.isConnected] is read when it runs,
    and the rejection of the call is swallowed. *)
Definition onAutoConnectTimer (providerIsConnected : bool) : Act :=
  fun s =>
    match autoConnectTimer s with
    | Some due =>
        if due <=? now s
        then (update (with_autoConnectTimer None)
              >> (if providerIsConnected then skip else call (PConnect true) KSilent)) s
        else (s, [])
    | None => (s, [])
    end.

(** *** The machine *)

Inductive Action : Type :=
| Connect
| Disconnect
| GetAccounts
| GetBalance (address : option string)
| GetAccountInfo (address : option string)
| SendTransaction (to amt : string)
| SignMessage (message : string) (encoding : option Encoding)
| VerifySignedMessage (message signatureHex : string) (publicKeyParam : option string)
    (encoding : option Encoding)
| SignBlock (b : Block)
| SendBlock (b : Block)
| ResolveBNS (bnsName : string).

(** What can happen to the component.  [Tick] lets time pass: [Date.now()]
    is taken to be a clock that never goes back.  The booleans of the two
    timer events are what the callback reads from the page when it runs. *)
Inductive Event : Type :=
| Tick (ms : N)
| PollTimer (present : bool)
| AutoConnectTimer (providerIsConnected : bool)
| ConnectEvent (key : string) (accts : option (list string))
| DisconnectEvent
| AccountChangedEvent (newPublicKey : string)
| ClearError
| Invoke (a : Action)
| Settle (id : nat) (r : Settled Value).

Definition start (a : Action) (c : nat) : Act :=
  match a with
  | Connect => connect c
  | Disconnect => disconnect c
  | GetAccounts => getAccounts c
  | GetBalance address => getBalance c address
  | GetAccountInfo address =>
      getAccountInfo address (KGetAccountInfo c) (fun info => ret c (RetInfo info))
  | SendTransaction to amt => sendTransaction c to amt
  | SignMessage message encoding => signMessage c message encoding
  | VerifySignedMessage message signatureHex publicKeyParam encoding =>
      verifySignedMessage c message signatureHex publicKeyParam encoding
  | SignBlock b => signBlock c b
  | SendBlock b => sendBlock c b
  | ResolveBNS bnsName => resolveBNS c bnsName
  end.

(** A component calls a wrapper; the invocation gets the next number. *)
Definition invoke (a : Action) : Act :=
  fun s => start a (nextId s) (with_nextId (S (nextId s)) s).

(** The listeners exist once [initializeProvider] has found the handle. *)
Definition listening (h : Act) : Act :=
  fun s => if initialized s then h s else (s, []).

Definition handle (e : Event) : Act :=
  match e with
  | Tick ms => update (fun s => with_now (now s + Z.of_N ms) s)
  | PollTimer present => onPollTimer present
  | AutoConnectTimer providerIsConnected => onAutoConnectTimer providerIsConnected
  | ConnectEvent key accts => listening (onConnectEvent key accts)
  | DisconnectEvent => listening onDisconnectEvent
  | AccountChangedEvent newPublicKey => listening (onAccountChanged newPublicKey)
  | ClearError => clearError
  | Invoke a => invoke a
  | Settle id r => settle id r
  end.

(** One synchronous stretch of code, then React renders and runs the
    effects whose dependencies changed. *)
Definition rendered (h : Act) : Act :=
  fun s => let (s', out) := h s in (autoConnectEffect s s', out).

Definition step (s : State) (e : Event) : State * list Effect := rendered (handle e) s.

Definition unmounted (auto : bool) (time : Z) : State :=
  {| autoConnect := auto; provider := None; isInstalled := false; isConnected := false;
     isConnecting := false; publicKey := None; accounts := []; error := None;
     userDisconnected := false; accountInfoCache := ∅; accountInfoInFlight := ∅;
     initialized := false; retryCount := 0; pollTimer := None; autoConnectTimer := None;
     now := time; nextId := 0; outstanding := ∅ |}.

(** The component mounts at [time]; the mount effect calls [tryInitialize]. *)
Definition mount (auto present : bool) (time : Z) : State :=
  (rendered (tryInitialize present) (unmounted auto time)).1.

Fixpoint run (s : State) (es : list Event) : State * list Effect :=
  match es with
  | [] => (s, [])
  | e :: rest =>
      let (s1, out1) := step s e in
      let (s2, out2) := run s1 rest in (s2, out1 ++ out2)
  end.

Inductive reachable : State -> Prop :=
| reachable_mount auto present time : reachable (mount auto present time)
| reachable_step s e : reachable s -> reachable (step s e).1.

(** The calls of the handle among some effects. *)
Definition calls (out : list Effect) : list Req :=
  omap (fun e => match e with Called _ q => Some q | _ => None end) out.

Definition returns (out : list Effect) : list (nat * Result) :=
  omap (fun e => match e with Returned c r => Some (c, r) | _ => None end) out.

Definition errorsReported (out : list Effect) : list string :=
  omap (fun e => match e with OnError m => Some m | _ => None end) out.

End Bridge.

(** ** The components that use the bridge *)

(** [ConnectButton] and [DonateButton] read the context of the provider and
    call its wrappers; their own state is modelled beside the state of the
    bridge. *)

Module Components.
Import Bridge.

(** *** Shortened keys *)

(** [key.slice(0, n)] and [key.slice(-n)] for a positive [n]; keys and
    addresses are ASCII, so a character is a code unit. *)
Fixpoint takeChars (n : nat) (s : string) : string :=
  match n, s with
  | S n', String c rest => String c (takeChars n' rest)
  | _, _ => ""
  end.

Fixpoint dropChars (n : nat) (s : string) : string :=
  match n, s with
  | S n', String _ rest => dropChars n' rest
  | _, _ => s
  end.

Definition sliceFirst (n : nat) (key : string) : string := takeChars n key.

Definition sliceLast (n : nat) (key : string) : string :=
  dropChars (String.length key - n) key.

(** [`${key.slice(0, n)}...${key.slice(-n)}`]: [n] is 6 on the connect
    button and 8 in [truncatedKey] of the functionality section. *)
Definition shorten (n : nat) (key : string) : string :=
  sliceFirst n key +:+ "..." +:+ sliceLast n key.

(** *** The connect button *)

Record ConnectButtonState : Type := {
  previousPublicKey : option string;
  isAccountSwitching : bool;
  switchTimer : option Z
}.

Definition SWITCH_NOTICE_MS : Z := 1500.

(** A string or null used as a condition. *)
Definition truthy (o : option string) : bool :=
  match o with Some x => nonempty x | None => false end.

Definition initialButton : ConnectButtonState :=
  {| previousPublicKey := None; isAccountSwitching := false; switchTimer := None |}.

(** The effect of lines 27-43 runs because [publicKey] has changed: the
    clean-up of its previous run clears the timer of that run, then the body
    runs.  When the body changes [previousPublicKey] the effect runs once
    more, finds the two keys equal and changes nothing. *)
Definition detectSwitch (time : Z) (publicKey : option string) (c : ConnectButtonState) :
    ConnectButtonState :=
  if truthy publicKey && truthy (previousPublicKey c)
     && negb (bool_decide (publicKey = previousPublicKey c))
  then {| previousPublicKey := previousPublicKey c; isAccountSwitching := true;
          switchTimer := Some (time + SWITCH_NOTICE_MS) |}
  else {| previousPublicKey := if truthy publicKey then publicKey else previousPublicKey c;
          isAccountSwitching := isAccountSwitching c; switchTimer := None |}.

(** The component renders after the bridge has changed. *)
Definition rerender (before after : State) (c : ConnectButtonState) : ConnectButtonState :=
  if bool_decide (publicKey before = publicKey after) then c
  else detectSwitch (now after) (publicKey after) c.

(** The callback of the timer of line 33. *)
Definition onSwitchTimer (time : Z) (c : ConnectButtonState) : ConnectButtonState :=
  match switchTimer c with
  | Some due =>
      if due <=? time
      then {| previousPublicKey := previousPublicKey c; isAccountSwitching := false;
              switchTimer := None |}
      else c
  | None => c
  end.

(** What the button shows, lines 54-96. *)
Inductive Face : Type :=
| GetMonkeyMask
| ErrorDismiss
| AccountSwitched
| Account (label : string)
| Connecting
| ConnectWallet.

Definition ConnectButton (s : State) (c : ConnectButtonState) : Face :=
  if negb (isInstalled s) then GetMonkeyMask
  else if truthy (error s) then ErrorDismiss
  else if isConnected s && truthy (publicKey s)
  then (if isAccountSwitching c then AccountSwitched
        else Account (shorten 6 (default "" (publicKey s))))
  else if isConnecting s then Connecting else ConnectWallet.

(** What a click does to the bridge; a disabled button does nothing, and
    the install link leaves the page. *)
Definition onClick (face : Face) : list Event :=
  match face with
  | GetMonkeyMask => []
  | ErrorDismiss => [ClearError]
  | AccountSwitched => []
  | Account _ => [Invoke Disconnect]
  | Connecting => []
  | ConnectWallet => [ClearError; Invoke Connect]
  end.

(** The bridge with the connect button on the page. *)
Inductive PageEvent : Type :=
| Bridge (e : Event)
| SwitchTimer
| Click.

Definition Page : Type := State * ConnectButtonState.

Definition bridgeStep (p : Page) (e : Event) : Page :=
  ((step p.1 e).1, rerender p.1 (step p.1 e).1 p.2).

Definition pageStep (p : Page) (e : PageEvent) : Page :=
  match e with
  | Bridge e => bridgeStep p e
  | SwitchTimer => (p.1, onSwitchTimer (now p.1) p.2)
  | Click => foldl bridgeStep p (onClick (ConnectButton p.1 p.2))
  end.

Definition pageRun (p : Page) (es : list PageEvent) : Page := foldl pageStep p es.

(** *** The donate button *)

Record DonateState : Type := {
  sending : bool;
  success : bool;
  donateError : option string;
  resetTimer : option Z
}.

Definition RESET_MS : Z := 3000.
Definition noHash : string := "Transaction failed - no hash returned".

(** The effect of lines 15-23, run after a render in which [success] or
    [error] has changed. *)
Definition resetEffect (time : Z) (before after : DonateState) : DonateState :=
  if bool_decide (success before = success after)
     && bool_decide (donateError before = donateError after)
  then after
  else {| sending := sending after; success := success after;
          donateError := donateError after;
          resetTimer := if success after || truthy (donateError after)
                        then Some (time + RESET_MS) else None |}.

Inductive DonateEvent : Type :=
| DonateClick
| Returns (result : option string)
| ResetTimer
| Later (ms : N).

(** [handleSend] up to its [await], lines 25-32; the button is disabled
    while a transfer is under way. *)
Definition handleSendStart (d : DonateState) : DonateState :=
  {| sending := true; success := false; donateError := None; resetTimer := resetTimer d |}.

(** [handleSend] after [sendTransaction] has returned, lines 33-49: the
    wrapper never throws, so the [catch] only sees the error of line 40. *)
Definition handleSendEnd (result : option string) (d : DonateState) : DonateState :=
  if truthy result
  then {| sending := false; success := true; donateError := donateError d;
          resetTimer := resetTimer d |}
  else {| sending := false; success := false; donateError := Some noHash;
          resetTimer := resetTimer d |}.

Definition onResetTimer (d : DonateState) : DonateState :=
  {| sending := sending d; success := false; donateError := None; resetTimer := None |}.

Definition donateStep (time : Z) (d : DonateState) (e : DonateEvent) : Z * DonateState :=
  match e with
  | DonateClick =>
      if sending d then (time, d) else (time, resetEffect time d (handleSendStart d))
  | Returns result =>
      if sending d then (time, resetEffect time d (handleSendEnd result d)) else (time, d)
  | ResetTimer =>
      match resetTimer d with
      | Some due => if due <=? time then (time, resetEffect time d (onResetTimer d))
                    else (time, d)
      | None => (time, d)
      end
  | Later ms => (time + Z.of_N ms, d)
  end.

Definition donateRun (time : Z) (d : DonateState) (es : list DonateEvent) : Z * DonateState :=
  foldl (fun td e => donateStep td.1 td.2 e) (time, d) es.

Definition initialDonate : DonateState :=
  {| sending := false; success := false; donateError := None; resetTimer := None |}.

(** What the donate button shows, lines 51-85. *)
Inductive DonateFace : Type := Sending | ThankYou | MaybeNextTime | Donate.

Definition getButtonContent (d : DonateState) : DonateFace :=
  if sending d then Sending
  else if success d then ThankYou
  else if truthy (donateError d) then MaybeNextTime
  else Donate.

End Components.

(** * Properties *)

Lemma nonempty_true s : nonempty s = true <-> s <> "".
Proof. destruct s; simpl; split; congruence. Qed.

(** ** The signature-verification route *)

Module RouteFacts.
Import Route.

Section Handler.

Variable getAccountPublicKey : string -> Settled string.
Variable verifyMessage : string -> string -> string -> Settled bool.
Variable toString : Json -> Settled string.

Abbreviation POST := (POST getAccountPublicKey verifyMessage toString).
Abbreviation verification := (verification getAccountPublicKey verifyMessage toString).
Abbreviation libraryThrows := (libraryThrows getAccountPublicKey verifyMessage toString).

(** The handler reaches the inner [try] exactly when the body is an
    object whose three required members are non-empty strings. *)
Lemma progress_reached body originHeader o m sg k :
  progress body originHeader = Reached o m sg k ->
  exists b, body = Some b
    /\ get "message" b = Some (JStr m) /\ m <> ""
    /\ get "signature" b = Some (JStr sg) /\ sg <> ""
    /\ get "publicKey" b = Some (JStr k) /\ k <> "".
Proof.
  unfold progress. destruct body as [b|]; [|discriminate].
  intros H. exists b. split; [reflexivity|].
  assert (Hb : b <> JNull) by (intros ->; discriminate).
  assert (H' :
    (if negb (truthy (get "message" b)) || negb (truthy (get "signature" b))
        || negb (truthy (get "publicKey" b))
     then Missing
     else match get "message" b, get "signature" b, get "publicKey" b with
          | Some (JStr m0), Some (JStr s0), Some (JStr k0) =>
              Reached (if truthy (get "origin" b) then default JNull (get "origin" b)
                       else match originHeader with
                            | Some h => if nonempty h then JStr h else JStr "unknown"
                            | None => JStr "unknown"
                            end) m0 s0 k0
          | _, _, _ => FailedBefore
          end) = Reached o m sg k) by (destruct b; try done).
  clear H.
  destruct (truthy (get "message" b)) eqn:Tm; [|discriminate].
  destruct (truthy (get "signature" b)) eqn:Ts; [|discriminate].
  destruct (truthy (get "publicKey" b)) eqn:Tk; [|discriminate].
  simpl in H'.
  destruct (get "message" b) as [[| | |m0| |]|]; try discriminate.
  destruct (get "signature" b) as [[| | |s0| |]|]; try discriminate.
  destruct (get "publicKey" b) as [[| | |k0| |]|]; try discriminate.
  injection H' as _ <- <- <-. simpl in Tm, Ts, Tk.
  rewrite <- !nonempty_true. auto 10.
Qed.

Lemma status_500_failed_before body originHeader time :
  status (POST body originHeader time) = 500 -> progress body originHeader = FailedBefore.
Proof.
  unfold Route.POST. destruct (progress body originHeader) as [| |o m sg k]; simpl; try done.
  unfold verificationStep. destruct (Route.verification _ _ _ o m sg k time) as [r|e] eqn:E.
  - unfold Route.verification in E.
    destruct (interpolate toString o); [|discriminate].
    destruct (startsWith k "ban_"); [destruct (getAccountPublicKey k); [|discriminate]|];
      destruct (verifyMessage _ _ _); try discriminate;
      injection E as <-; discriminate.
  - discriminate.
Qed.

(** C10.  When the handler has reached the verification step, with the
    three required parameters present, and the verification library throws
    (while converting the address or while verifying), the response has
    status 200, [valid: false] and an [error] member; a response with
    status 500 only comes from a failure before that step. *)
Theorem POST_library_failure_is_200 body originHeader time o m sg k :
  progress body originHeader = Reached o m sg k ->
  libraryThrows o m sg k time ->
  status (POST body originHeader time) = 200
  /\ valid (payload (POST body originHeader time)) = false
  /\ is_Some (error (payload (POST body originHeader time)))
  /\ (forall body' originHeader' time',
        status (POST body' originHeader' time') = 500 ->
        progress body' originHeader' = FailedBefore).
Proof.
  intros Hreach [e He]. unfold Route.POST. rewrite Hreach.
  unfold verificationStep. rewrite He. simpl.
  repeat split; eauto using status_500_failed_before.
Qed.

End Handler.

(** A library that rejects every signature by throwing. *)
Definition throwingVerify (_ _ _ : string) : Settled bool := Rejected (ErrorObj "Invalid signature length").
Definition noConversion (_ : string) : Settled string := Rejected NonError.
Definition plainToString (_ : Json) : Settled string := Fulfilled "[object Object]".

Definition sampleBody : Json :=
  JObj [("message", JStr "hello"); ("signature", JStr "zz"); ("publicKey", JStr "00ff")].

Lemma POST_library_failure_is_200_witness :
  status (Route.POST noConversion throwingVerify plainToString (Some sampleBody) None "t") = 200
  /\ valid (payload (Route.POST noConversion throwingVerify plainToString (Some sampleBody) None "t")) = false.
Proof.
  destruct (POST_library_failure_is_200 noConversion throwingVerify plainToString
              (Some sampleBody) None "t" (JStr "unknown") "hello" "zz" "00ff")
    as (H1 & H2 & _).
  - reflexivity.
  - exists (ErrorObj "Invalid signature length"). reflexivity.
  - split; assumption.
Defined.

(** Unparseable JSON, a [null] body and a required parameter that is not a
    string end in the outer [catch]; a missing parameter is a 400. *)
Example POST_unparseable :
  status (Route.POST noConversion throwingVerify plainToString None None "t") = 500.
Proof. reflexivity. Qed.

Example POST_number_message :
  status (Route.POST noConversion throwingVerify plainToString
            (Some (JObj [("message", JNum 5); ("signature", JStr "zz"); ("publicKey", JStr "00ff")]))
            None "t") = 500.
Proof. reflexivity. Qed.

Example POST_missing_signature :
  status (Route.POST noConversion throwingVerify plainToString
            (Some (JObj [("message", JStr "hello"); ("publicKey", JStr "00ff")])) None "t") = 400.
Proof. reflexivity. Qed.

End RouteFacts.

(** ** The provider bridge *)

Module BridgeFacts.
Import Bridge.

(** *** Sequencing *)

Lemma andThen_state (a b : Act) s : ((a >> b) s).1 = (b (a s).1).1.
Proof. unfold andThen. destruct (a s) as [s1 o1]. simpl. by destruct (b s1). Qed.

Lemma andThen_out (a b : Act) s : ((a >> b) s).2 = (a s).2 ++ (b (a s).1).2.
Proof. unfold andThen. destruct (a s) as [s1 o1]. simpl. by destruct (b s1). Qed.

(** One wrapper awaits the promise: its two parts follow each other. *)
Lemma resumeAll_one k r s : resumeAll [k] r s = (resume k r >> resumeLater k r) s.
Proof.
  unfold resumeAll. cbn [resumeEach resumeLaterEach]. unfold andThen, skip.
  destruct (resume k r s) as [s1 o1]. destruct (resumeLater k r s1) as [s2 o2].
  by rewrite !app_nil_r.
Qed.

Definition viaBalance (k : Frame) : bool :=
  match k with KGetBalance _ => true | _ => false end.

Lemma resumeAll_single k r s : viaBalance k = false -> resumeAll [k] r s = resume k r s.
Proof.
  intros Hk. rewrite resumeAll_one. unfold andThen.
  destruct (resume k r s) as [s1 o1]. destruct k; try discriminate; cbn; by rewrite app_nil_r.
Qed.

Lemma rendered_out (h : Act) s : (rendered h s).2 = (h s).2.
Proof. unfold rendered. by destruct (h s). Qed.

Lemma rendered_state (h : Act) s : (rendered h s).1 = autoConnectEffect s (h s).1.
Proof. unfold rendered. by destruct (h s). Qed.

Lemma calls_app o1 o2 : calls (o1 ++ o2) = calls o1 ++ calls o2.
Proof. apply omap_app. Qed.

Lemma returns_app o1 o2 : returns (o1 ++ o2) = returns o1 ++ returns o2.
Proof. apply omap_app. Qed.

(** *** The auto-connect effect leaves everything but its timer alone *)

Lemma autoConnectEffect_same before after :
  isSome (provider before) = isSome (provider after) ->
  userDisconnected before = userDisconnected after ->
  autoConnect before = autoConnect after ->
  autoConnectEffect before after = after.
Proof.
  intros Hp Hu Ha. unfold autoConnectEffect, sameDependencies.
  rewrite Hp, Hu, Ha, !eqb_reflx. reflexivity.
Qed.

Lemma autoConnectEffect_cases before after :
  autoConnectEffect before after = after
  \/ autoConnectEffect before after = autoConnectBody after.
Proof. unfold autoConnectEffect. destruct (sameDependencies _ _); auto. Qed.

Ltac effect_frame :=
  intros; match goal with
  | |- context [autoConnectEffect ?b ?a] =>
      destruct (autoConnectEffect_cases b a) as [-> | ->]; reflexivity
  end.

Lemma effect_error b a : error (autoConnectEffect b a) = error a.
Proof. effect_frame. Qed.
Lemma effect_userDisconnected b a : userDisconnected (autoConnectEffect b a) = userDisconnected a.
Proof. effect_frame. Qed.
Lemma effect_provider b a : provider (autoConnectEffect b a) = provider a.
Proof. effect_frame. Qed.
Lemma effect_autoConnect b a : autoConnect (autoConnectEffect b a) = autoConnect a.
Proof. effect_frame. Qed.
Lemma effect_isInstalled b a : isInstalled (autoConnectEffect b a) = isInstalled a.
Proof. effect_frame. Qed.
Lemma effect_isConnected b a : isConnected (autoConnectEffect b a) = isConnected a.
Proof. effect_frame. Qed.
Lemma effect_isConnecting b a : isConnecting (autoConnectEffect b a) = isConnecting a.
Proof. effect_frame. Qed.
Lemma effect_publicKey b a : publicKey (autoConnectEffect b a) = publicKey a.
Proof. effect_frame. Qed.
Lemma effect_accounts b a : accounts (autoConnectEffect b a) = accounts a.
Proof. effect_frame. Qed.
Lemma effect_cache b a : accountInfoCache (autoConnectEffect b a) = accountInfoCache a.
Proof. effect_frame. Qed.
Lemma effect_inflight b a : accountInfoInFlight (autoConnectEffect b a) = accountInfoInFlight a.
Proof. effect_frame. Qed.
Lemma effect_initialized b a : initialized (autoConnectEffect b a) = initialized a.
Proof. effect_frame. Qed.
Lemma effect_retryCount b a : retryCount (autoConnectEffect b a) = retryCount a.
Proof. effect_frame. Qed.
Lemma effect_pollTimer b a : pollTimer (autoConnectEffect b a) = pollTimer a.
Proof. effect_frame. Qed.
Lemma effect_now b a : now (autoConnectEffect b a) = now a.
Proof. effect_frame. Qed.
Lemma effect_nextId b a : nextId (autoConnectEffect b a) = nextId a.
Proof. effect_frame. Qed.
Lemma effect_outstanding b a : outstanding (autoConnectEffect b a) = outstanding a.
Proof. effect_frame. Qed.

Create Rewrite HintDb effect_frame.
#[local] Hint Rewrite effect_error effect_userDisconnected effect_provider effect_autoConnect
  effect_isInstalled effect_isConnected effect_isConnecting effect_publicKey effect_accounts
  effect_cache effect_inflight effect_initialized effect_retryCount effect_pollTimer effect_now
  effect_nextId effect_outstanding : effect_frame.

(** *** [handleError] *)

(** The message that [handleError] stores for the raw message [m]. *)
Definition classify (m : string) : string :=
  if includes m "Extension context invalidated" || includes m "context invalidated"
     || includes m "message port closed"
  then "Extension connection lost. Please refresh the page."
  else if includes m "Wallet is locked" || includes m "locked" || includes m "unlock"
  then "Wallet is locked. The extension will prompt you to unlock for this transaction."
  else if includes m "User rejected" || includes m "rejected"
  then "Transaction was rejected by user."
  else m.

Lemma handleError_out err d s : (handleError err d s).2 = [OnError (errorMessageOf err d)].
Proof.
  unfold handleError. rewrite andThen_out.
  repeat match goal with |- context [if ?c then _ else _] => destruct c end; reflexivity.
Qed.

Lemma handleError_error err d s :
  error (handleError err d s).1 = Some (classify (errorMessageOf err d)).
Proof.
  unfold handleError, classify. rewrite andThen_state.
  repeat match goal with |- context [if ?c then _ else _] => destruct c end; reflexivity.
Qed.

Lemma notInstalled_run s :
  notInstalled s
  = (with_error (Some "MonkeyMask not installed") s, [OnError "MonkeyMask not installed"]).
Proof. reflexivity. Qed.

Lemma noAccountSelected_run s :
  noAccountSelected s
  = (with_error (Some "No account selected") s, [OnError "No account selected"]).
Proof. reflexivity. Qed.

(** *** Wrappers called while the handle is absent *)

(** The null or empty value of each wrapper's return type. *)
Definition emptyResult (a : Action) : Result :=
  match a with
  | Connect | Disconnect => RetVoid
  | GetAccounts => RetAccounts []
  | GetAccountInfo _ => RetInfo None
  | VerifySignedMessage _ _ _ _ => RetBool None
  | SignBlock _ => RetSignBlock None
  | GetBalance _ | SendTransaction _ _ | SignMessage _ _ | SendBlock _ | ResolveBNS _ =>
      RetString None
  end.

(** The contract of the spec for a call without a handle: the error is
    stored and reported, no method of the handle is called, and the caller
    gets the empty result. *)
Definition failsGracefully (a : Action) (s : State) : Prop :=
  error (step s (Invoke a)).1 = Some "MonkeyMask not installed"
  /\ (step s (Invoke a)).2
     = [OnError "MonkeyMask not installed"; Returned (nextId s) (emptyResult a)].

Ltac run_invoke :=
  unfold step, handle, invoke, start, connect, disconnect, getAccounts, getAccountInfo,
    getBalance, sendTransaction, signMessage, verifySignedMessage, signBlock, sendBlock,
    resolveBNS;
  rewrite ?rendered_out, ?rendered_state;
  autorewrite with effect_frame;
  cbn [provider publicKey with_nextId].

(** C5, as the code has it.  Called while the handle is absent, every
    wrapper but [disconnect] stores and reports the error "MonkeyMask not
    installed", calls no method of the handle and returns its null or empty
    result; [disconnect] returns at once, without storing or reporting an
    error.  No wrapper throws: each one returns to its caller. *)
Theorem absent_handle_contract (a : Action) (s : State) :
  provider s = None ->
  (a <> Disconnect -> failsGracefully a s)
  /\ (a = Disconnect ->
      step s (Invoke a) = (with_nextId (S (nextId s)) s, [Returned (nextId s) RetVoid])).
Proof.
  intros Hp. split.
  - intros Ha. unfold failsGracefully.
    destruct a; try congruence; run_invoke; rewrite Hp;
      unfold andThen; rewrite notInstalled_run; split; reflexivity.
  - intros ->. unfold step, rendered, handle, invoke, start, disconnect.
    cbn [provider with_nextId]. rewrite Hp. cbn.
    rewrite autoConnectEffect_same; reflexivity.
Qed.

Lemma absent_handle_contract_witness :
  failsGracefully (SendTransaction "ban_1abc" "1") (mount true false 0)
  /\ step (mount true false 0) (Invoke Disconnect)
     = (with_nextId 1 (mount true false 0), [Returned 0%nat RetVoid]).
Proof.
  split.
  - apply (absent_handle_contract (SendTransaction "ban_1abc" "1") (mount true false 0));
      [reflexivity | discriminate].
  - apply (absent_handle_contract Disconnect (mount true false 0)); reflexivity.
Defined.

(** C5, as the spec has it, fails for [disconnect]: without a handle it
    stores no error. *)
Lemma disconnect_absent_handle_records_nothing :
  provider (mount true false 0) = None
  /\ ~ failsGracefully Disconnect (mount true false 0).
Proof.
  split; [reflexivity|].
  intros [H _]. vm_compute in H. discriminate.
Qed.

(** *** When the stored error is cleared *)


Ltac run_wrapper :=
  run_invoke;
  unfold fetchAccountInfo, await, call, andThen, ret, emit, update, clearError, setError,
    setIsConnecting, setUserDisconnected;
  rewrite ?notInstalled_run, ?noAccountSelected_run; cbn.


(** A session in which the wallet is connected and a name lookup has just
    failed with "boom". *)
Definition connectedState : State :=
  (run (mount true true 0) [ConnectEvent "ban_1abc" None]).1.

Definition erroredState : State :=
  (run connectedState [Invoke (ResolveBNS "x.ban"); Settle 1 (Rejected (ErrorObj "boom"))]).1.



(** *** [accountChanged] against [connect] *)

(** The reading of the spec: the two events are handled identically. *)
Definition sameAsConnect (key : string) (s : State) : Prop :=
  step s (AccountChangedEvent key) = step s (ConnectEvent key (Some [key])).

Ltac run_event :=
  unfold step, handle, listening, onConnectEvent, onDisconnectEvent, onAccountChanged;
  rewrite ?rendered_out, ?rendered_state;
  autorewrite with effect_frame.

(** C4, as the code has it.  For a component that listens, [accountChanged]
    with key [K] and [connect] with key [K] and accounts [[K]] give the same
    connection status, active account, account list, (empty) cache and call
    of [onConnect]; but [accountChanged] leaves the stored error and the
    user-disconnected flag as they were, where [connect] clears the one and
    resets the other (and so may start the auto-connect timer).  The two
    transitions are equal when no error is stored and the flag is not set. *)
Theorem accountChanged_versus_connect (key : string) (s : State) :
  initialized s = true ->
  let changed := step s (AccountChangedEvent key) in
  let connected := step s (ConnectEvent key (Some [key])) in
  (changed.2 = [OnConnect key] /\ connected.2 = [OnConnect key])
  /\ (isConnected changed.1 = true /\ isConnected connected.1 = true)
  /\ (publicKey changed.1 = Some key /\ publicKey connected.1 = Some key)
  /\ (accounts changed.1 = [key] /\ accounts connected.1 = [key])
  /\ (accountInfoCache changed.1 = ∅ /\ accountInfoCache connected.1 = ∅)
  /\ (error changed.1 = error s /\ error connected.1 = None)
  /\ (userDisconnected changed.1 = userDisconnected s /\ userDisconnected connected.1 = false)
  /\ (error s = None -> userDisconnected s = false -> changed = connected).
Proof.
  intros Hi. cbn zeta.
  repeat split; try (run_event; rewrite Hi; reflexivity).
  intros He Hu. unfold step, rendered, handle, listening. rewrite Hi.
  unfold onAccountChanged, onConnectEvent, andThen, clearError, clearCache, setError,
    setIsConnected, setPublicKey, setAccounts, setUserDisconnected, update, emit.
  cbn. f_equal. destruct s; cbn in *; subst. reflexivity.
Qed.

Lemma accountChanged_versus_connect_witness :
  error (step erroredState (AccountChangedEvent "ban_1xyz")).1 = error erroredState
  /\ error (step erroredState (ConnectEvent "ban_1xyz" (Some ["ban_1xyz"]))).1 = None
  /\ step connectedState (AccountChangedEvent "ban_1xyz")
     = step connectedState (ConnectEvent "ban_1xyz" (Some ["ban_1xyz"])).
Proof.
  split; [|split].
  - apply (accountChanged_versus_connect "ban_1xyz" erroredState); reflexivity.
  - apply (accountChanged_versus_connect "ban_1xyz" erroredState); reflexivity.
  - apply (accountChanged_versus_connect "ban_1xyz" connectedState); reflexivity.
Defined.

(** C4, as the spec has it, fails where an error is stored: [connect]
    clears it and [accountChanged] does not. *)
Lemma accountChanged_keeps_error :
  ~ sameAsConnect "ban_1xyz" erroredState.
Proof.
  intros H. apply (f_equal (fun r => error r.1)) in H.
  vm_compute in H. discriminate.
Qed.

(** *** Settlement *)

Lemma settle_run s id q ks r :
  outstanding s !! id = Some (q, ks) ->
  answers q r = true ->
  settle id r s = (forget id >> reaction q r >> resumeAll ks r) s.
Proof. intros H Ha. unfold settle. rewrite H, Ha. reflexivity. Qed.

Lemma step_settle_out s id q ks r :
  outstanding s !! id = Some (q, ks) ->
  answers q r = true ->
  (step s (Settle id r)).2
  = (reaction q r (forget id s).1).2 ++ (resumeAll ks r (reaction q r (forget id s).1).1).2.
Proof.
  intros H Ha. unfold step, handle. rewrite rendered_out, (settle_run _ _ _ _ _ H Ha).
  rewrite !andThen_out, !andThen_state. reflexivity.
Qed.

Lemma step_settle_state s id q ks r :
  outstanding s !! id = Some (q, ks) ->
  answers q r = true ->
  (step s (Settle id r)).1
  = autoConnectEffect s (resumeAll ks r (reaction q r (forget id s).1).1).1.
Proof.
  intros H Ha. unfold step, handle. rewrite rendered_state, (settle_run _ _ _ _ _ H Ha).
  rewrite !andThen_state. reflexivity.
Qed.

(** *** Names are resolved before a transfer *)

(** How the lookup of a name can fail: it yields no address, or it throws. *)
Definition resolutionFailed (r : Settled Value) : Prop :=
  r = Fulfilled (VString "") \/ exists e, r = Rejected e.

(** C8.  [sendTransaction] to a destination that contains [.ban], called
    with a handle and an active account, first calls [resolveBNS] on the
    destination and nothing else; in no state does it call the handle's
    [sendTransaction] before the lookup has settled.  When the lookup yields
    an address, the transfer goes to that address; when it yields none or
    throws, no transfer is made, an error is stored and the caller gets
    null. *)
Theorem sendTransaction_resolves_first (s : State) (key to amt : string) :
  looksLikeBNS to = true ->
  provider s = Some banano ->
  publicKey s = Some key ->
  key <> "" ->
  let c := nextId s in
  let p := S (nextId s) in
  let started := step s (Invoke (SendTransaction to amt)) in
  started.2 = [Called p (PResolveBNS to)]
  /\ outstanding started.1 !! p = Some (PResolveBNS to, [KSendResolve c key to amt])
  /\ (forall s0, Forall (fun q => q = PResolveBNS to)
                   (calls (step s0 (Invoke (SendTransaction to amt))).2))
  /\ (forall s2 resolvedAddress,
        outstanding s2 !! p = Some (PResolveBNS to, [KSendResolve c key to amt]) ->
        resolvedAddress <> "" ->
        (step s2 (Settle p (Fulfilled (VString resolvedAddress)))).2
        = [Called (nextId s2) (PSendTransaction key resolvedAddress amt)])
  /\ (forall s2 r,
        outstanding s2 !! p = Some (PResolveBNS to, [KSendResolve c key to amt]) ->
        resolutionFailed r ->
        calls (step s2 (Settle p r)).2 = []
        /\ is_Some (error (step s2 (Settle p r)).1)
        /\ returns (step s2 (Settle p r)).2 = [(c, RetString None)]).
Proof.
  intros Hb Hp Hk Hne. cbn zeta.
  assert (Hkey : orElse (Some key) None = Some key).
  { unfold orElse. apply nonempty_true in Hne. by rewrite Hne. }
  split; [|split; [|split; [|split]]].
  - run_invoke. rewrite Hp, Hk, Hkey, Hb. reflexivity.
  - run_invoke. rewrite Hp, Hk, Hkey, Hb. cbn. apply lookup_insert_eq.
  - intros s0. run_invoke.
    destruct (provider s0); [destruct (orElse (publicKey s0) None)|];
      rewrite ?Hb, ?andThen_out, ?notInstalled_run, ?noAccountSelected_run; cbn;
      repeat constructor.
  - intros s2 a Hout Ha. apply nonempty_true in Ha.
    rewrite (step_settle_out _ _ _ _ (Fulfilled (VString a)) Hout eq_refl).
    rewrite resumeAll_single by done. cbn. rewrite Ha. reflexivity.
  - intros s2 r Hout [-> | [e ->]].
    + rewrite (step_settle_out _ _ _ _ (Fulfilled (VString "")) Hout eq_refl),
        (step_settle_state _ _ _ _ (Fulfilled (VString "")) Hout eq_refl), effect_error.
      rewrite !resumeAll_single by done. cbn [reaction resume nonempty].
      rewrite !andThen_out, !andThen_state, handleError_out.
      cbn [skip ret emit fst snd]. rewrite handleError_error.
      cbn. eauto.
    + rewrite (step_settle_out _ _ _ _ (Rejected e) Hout eq_refl),
        (step_settle_state _ _ _ _ (Rejected e) Hout eq_refl), effect_error.
      rewrite !resumeAll_single by done. cbn [reaction resume nonempty].
      rewrite !andThen_out, !andThen_state, handleError_out.
      cbn [skip ret emit fst snd]. rewrite handleError_error.
      cbn. eauto.
Qed.

Lemma sendTransaction_resolves_first_witness :
  (step connectedState (Invoke (SendTransaction "alice.ban" "1"))).2
  = [Called 1%nat (PResolveBNS "alice.ban")].
Proof.
  destruct (sendTransaction_resolves_first connectedState "ban_1abc" "alice.ban" "1")
    as (H & _); [reflexivity | reflexivity | reflexivity | discriminate | exact H].
Defined.

(** *** Invariants of the machine *)

(** The wrappers that can wait for the promise of [getAccountInfo]. *)
Definition accountInfoFrame (k : Frame) : Prop :=
  match k with
  | KGetAccountInfo _ | KGetBalance _ => True
  | _ => False
  end.

(** What holds of the refs, the promises and the discovery in every state. *)
Record Core (s : State) : Prop := {
  inv_initialized : initialized s = isSome (provider s);
  inv_installed : isInstalled s = isSome (provider s);
  inv_idle : provider s = None -> outstanding s = ∅ /\ accountInfoCache s = ∅;
  inv_ids : forall id e, outstanding s !! id = Some e -> (id < nextId s)%nat;
  inv_inflight : forall A p, accountInfoInFlight s !! A = Some p ->
    exists ks, outstanding s !! p = Some (PGetAccountInfo A, ks);
  inv_waiters : forall p A ks, outstanding s !! p = Some (PGetAccountInfo A, ks) ->
    A <> "" /\ ks <> [] /\ Forall accountInfoFrame ks;
  inv_stale : forall A p, accountInfoInFlight s !! A = Some p ->
    freshData (accountInfoCache s !! A) (now s) = None;
  inv_cache : forall A e, accountInfoCache s !! A = Some e -> A <> "";
  inv_poll : forall due, pollTimer s = Some due -> initialized s = false;
  inv_retry : (retryCount s <= maxRetries)%nat
}.

(** The auto-connect timer is only pending while its condition holds. *)
Definition TimerInv (s : State) : Prop :=
  forall due, autoConnectTimer s = Some due ->
    autoConnect s = true /\ isSome (provider s) = true /\ userDisconnected s = false.

Definition Inv (s : State) : Prop := Core s /\ TimerInv s.

(** A stretch of code that leaves the refs, the discovery and the clock
    alone, and at most starts calls other than [getAccountInfo]. *)
Record quiet (s s' : State) : Prop := {
  q_autoConnect : autoConnect s' = autoConnect s;
  q_provider : provider s' = provider s;
  q_isInstalled : isInstalled s' = isInstalled s;
  q_cache : accountInfoCache s' = accountInfoCache s;
  q_inflight : accountInfoInFlight s' = accountInfoInFlight s;
  q_initialized : initialized s' = initialized s;
  q_retryCount : retryCount s' = retryCount s;
  q_pollTimer : pollTimer s' = pollTimer s;
  q_timer : autoConnectTimer s' = autoConnectTimer s \/ autoConnectTimer s' = None;
  q_now : now s' = now s;
  q_nextId : (nextId s <= nextId s')%nat;
  q_old : forall id, (id < nextId s)%nat -> outstanding s' !! id = outstanding s !! id;
  q_new : forall id q ks, (nextId s <= id)%nat -> outstanding s' !! id = Some (q, ks) ->
    provider s <> None /\ (id < nextId s')%nat /\ forall A, q <> PGetAccountInfo A
}.

Lemma quiet_refl s : (forall id e, outstanding s !! id = Some e -> (id < nextId s)%nat) ->
  quiet s s.
Proof.
  intros H. constructor; auto.
  intros id q ks Hle Hl. apply H in Hl. lia.
Qed.

Lemma quiet_trans s1 s2 s3 : quiet s1 s2 -> quiet s2 s3 -> quiet s1 s3.
Proof.
  intros [] []. constructor; try congruence; try lia.
  - destruct q_timer1 as [->| ->]; auto.
  - intros id Hid. rewrite q_old1 by lia. auto.
  - intros id q ks Hle Hl.
    destruct (decide (id < nextId s2)%nat) as [Hlt|Hge].
    + rewrite q_old1 in Hl by lia. destruct (q_new0 id q ks Hle Hl) as (? & ? & ?).
      repeat split; auto; lia.
    + destruct (q_new1 id q ks ltac:(lia) Hl) as (? & ? & ?).
      repeat split; auto; congruence.
Qed.

Lemma Core_quiet s s' : Core s -> quiet s s' -> Core s'.
Proof.
  intros [] []. constructor.
  - congruence.
  - congruence.
  - rewrite q_provider0, q_cache0. intros Hp. destruct (inv_idle0 Hp) as [Ho Hc].
    split; [|done]. apply map_eq. intros id. rewrite lookup_empty.
    destruct (outstanding s' !! id) as [[q ks]|] eqn:E; [|done].
    destruct (decide (id < nextId s)%nat).
    + rewrite q_old0, Ho, lookup_empty in E by lia. done.
    + destruct (q_new0 id q ks ltac:(lia) E) as (? & _). done.
  - intros id [q ks] Hl. destruct (decide (id < nextId s)%nat); [lia|].
    destruct (q_new0 id q ks ltac:(lia) Hl) as (_ & ? & _). done.
  - rewrite q_inflight0. intros A p Hl. destruct (inv_inflight0 A p Hl) as [ks Hks].
    exists ks. rewrite q_old0; [done|]. eapply inv_ids0; eauto.
  - intros p A ks Hl. destruct (decide (p < nextId s)%nat).
    + rewrite q_old0 in Hl by lia. eauto.
    + destruct (q_new0 p _ ks ltac:(lia) Hl) as (_ & _ & Hq). by destruct (Hq A).
  - rewrite q_inflight0, q_cache0, q_now0. done.
  - rewrite q_cache0. done.
  - rewrite q_pollTimer0, q_initialized0. done.
  - rewrite q_retryCount0. done.
Qed.

(** Everything but the fields a component renders from. *)
Definition refs (s : State) :=
  (autoConnect s, provider s, isInstalled s, accountInfoCache s, accountInfoInFlight s,
   initialized s, retryCount s, pollTimer s, autoConnectTimer s, now s, nextId s,
   outstanding s).

Lemma quiet_refs s s' : Core s -> refs s' = refs s -> quiet s s'.
Proof.
  intros Hc H. unfold refs in H. injection H as ? ? ? ? ? ? ? ? ? ? ? ?.
  constructor; try congruence; auto.
  - lia.
  - intros id q ks Hle Hl. replace (outstanding s') with (outstanding s) in Hl by done.
    apply (inv_ids _ Hc) in Hl. lia.
Qed.

Definition Quiet (a : Act) : Prop :=
  forall s, Core s -> provider s <> None -> quiet s (a s).1.

Lemma Quiet_andThen a b : Quiet a -> Quiet b -> Quiet (a >> b).
Proof.
  intros Ha Hb s Hc Hp. rewrite andThen_state.
  pose proof (Ha s Hc Hp) as H1.
  eapply quiet_trans; [exact H1|]. apply Hb.
  - eapply Core_quiet; eauto.
  - by rewrite (q_provider _ _ H1).
Qed.

Lemma Quiet_refs a : (forall s, refs (a s).1 = refs s) -> Quiet a.
Proof. intros H s Hc _. apply quiet_refs; auto. Qed.

Lemma Quiet_skip : Quiet skip.
Proof. by apply Quiet_refs. Qed.
Lemma Quiet_emit e : Quiet (emit e).
Proof. by apply Quiet_refs. Qed.
Lemma Quiet_ret c r : Quiet (ret c r).
Proof. by apply Quiet_refs. Qed.
Lemma Quiet_setIsConnected v : Quiet (setIsConnected v).
Proof. by apply Quiet_refs. Qed.
Lemma Quiet_setIsConnecting v : Quiet (setIsConnecting v).
Proof. by apply Quiet_refs. Qed.
Lemma Quiet_setPublicKey v : Quiet (setPublicKey v).
Proof. by apply Quiet_refs. Qed.
Lemma Quiet_setAccounts v : Quiet (setAccounts v).
Proof. by apply Quiet_refs. Qed.
Lemma Quiet_setError v : Quiet (setError v).
Proof. by apply Quiet_refs. Qed.
Lemma Quiet_clearError : Quiet clearError.
Proof. by apply Quiet_refs. Qed.
Lemma Quiet_setUserDisconnected v : Quiet (setUserDisconnected v).
Proof. by apply Quiet_refs. Qed.

Lemma handleError_refs err d s : refs (handleError err d s).1 = refs s.
Proof.
  unfold handleError. rewrite andThen_state.
  repeat match goal with |- context [if ?c then _ else _] => destruct c end; reflexivity.
Qed.

Lemma Quiet_handleError err d : Quiet (handleError err d).
Proof. apply Quiet_refs, handleError_refs. Qed.

Lemma Quiet_call q k : (forall A, q <> PGetAccountInfo A) -> Quiet (call q k).
Proof.
  intros Hq s Hc Hp. unfold call. constructor; cbn; auto.
  - intros id Hid. apply lookup_insert_ne. lia.
  - intros id q' ks Hle Hl. destruct (decide (nextId s = id)) as [<-|Hne].
    + rewrite lookup_insert_eq in Hl. injection Hl as <- <-. auto.
    + rewrite lookup_insert_ne in Hl by done. apply (inv_ids _ Hc) in Hl. lia.
Qed.

Create HintDb quiet.
#[local] Hint Resolve Quiet_andThen Quiet_skip Quiet_emit Quiet_ret Quiet_setIsConnected
  Quiet_setIsConnecting Quiet_setPublicKey Quiet_setAccounts Quiet_setError Quiet_clearError
  Quiet_setUserDisconnected Quiet_handleError Quiet_call : quiet.

Lemma Quiet_resume k r : Quiet (resume k r).
Proof.
  destruct k; destruct r as [[]|]; cbn [resume accountInfoSettled];
    try (destruct (nonempty _));
    auto 10 with quiet; apply Quiet_call; discriminate.
Qed.

Lemma Quiet_resumeLater k r : Quiet (resumeLater k r).
Proof. destruct k; destruct r as [[]|]; cbn [resumeLater]; auto with quiet. Qed.

Lemma Quiet_resumeEach ks r : Quiet (resumeEach ks r).
Proof.
  induction ks as [|k ks IH]; cbn [resumeEach]; auto using Quiet_resume with quiet.
Qed.

Lemma Quiet_resumeLaterEach ks r : Quiet (resumeLaterEach ks r).
Proof.
  induction ks as [|k ks IH]; cbn [resumeLaterEach]; auto using Quiet_resumeLater with quiet.
Qed.

Lemma Quiet_resumeAll ks r : Quiet (resumeAll ks r).
Proof.
  unfold resumeAll. auto using Quiet_resumeEach, Quiet_resumeLaterEach with quiet.
Qed.

(** The auto-connect effect only touches its timer. *)
Lemma Core_with_autoConnectTimer v s : Core s -> Core (with_autoConnectTimer v s).
Proof. intros []. constructor; auto. Qed.

Lemma Core_effect before after : Core after -> Core (autoConnectEffect before after).
Proof.
  intros H. destruct (autoConnectEffect_cases before after) as [-> | ->]; [done|].
  by apply Core_with_autoConnectTimer.
Qed.

Lemma TimerInv_effect before after :
  TimerInv before ->
  autoConnectTimer after = autoConnectTimer before \/ autoConnectTimer after = None ->
  TimerInv (autoConnectEffect before after).
Proof.
  intros Hb Ht. unfold autoConnectEffect, sameDependencies.
  destruct (eqb (autoConnect before) (autoConnect after)) eqn:Ea;
    [destruct (eqb (isSome (provider before)) (isSome (provider after))) eqn:Ep;
     [destruct (eqb (userDisconnected before) (userDisconnected after)) eqn:Eu|]|];
    cbn [andb].
  - apply eqb_prop in Ea, Ep, Eu. intros due Hd.
    destruct Ht as [Ht|Ht]; [|congruence].
    rewrite Ht in Hd. destruct (Hb due Hd) as (? & ? & ?). repeat split; congruence.
  - intros due. unfold autoConnectBody. cbn.
    destruct (autoConnect after), (isSome (provider after)), (userDisconnected after); done.
  - intros due. unfold autoConnectBody. cbn.
    destruct (autoConnect after), (isSome (provider after)), (userDisconnected after); done.
  - intros due. unfold autoConnectBody. cbn.
    destruct (autoConnect after), (isSome (provider after)), (userDisconnected after); done.
Qed.

Lemma Inv_rendered (h : Act) s :
  Inv s -> Core (h s).1 ->
  autoConnectTimer (h s).1 = autoConnectTimer s \/ autoConnectTimer (h s).1 = None ->
  Inv (rendered h s).1.
Proof.
  intros [Hc Ht] Hc' Htimer. rewrite rendered_state. split.
  - by apply Core_effect.
  - by apply TimerInv_effect.
Qed.

Lemma Inv_rendered_quiet (h : Act) s :
  Inv s -> quiet s (h s).1 -> Inv (rendered h s).1.
Proof.
  intros Hi Hq. apply Inv_rendered; [done| |apply (q_timer _ _ Hq)].
  eapply Core_quiet; [apply Hi | done].
Qed.

(** *** Each handler keeps the invariant *)

Lemma freshData_later cached t d :
  0 <= d -> freshData cached t = None -> freshData cached (t + d) = None.
Proof.
  unfold freshData, ACCOUNT_INFO_TTL_MS. destruct cached as [[ts data]|]; [|done].
  intros Hd. destruct (Z.ltb_spec (t - ts) 5000); [done|].
  intros _. destruct (Z.ltb_spec (t + d - ts) 5000); [lia|done].
Qed.

Lemma orElse_nonempty x y t : orElse x (orElse y None) = Some t -> t <> "".
Proof.
  unfold orElse. intros H. apply nonempty_true.
  destruct x as [a|]; [destruct (nonempty a) eqn:Ea; [congruence|]|];
    (destruct y as [b|]; [destruct (nonempty b) eqn:Eb; congruence | discriminate]).
Qed.

Lemma Core_tick ms s : Core s -> Core (with_now (now s + Z.of_N ms) s).
Proof.
  intros []. constructor; cbn; auto.
  intros A p Hl. apply freshData_later; [lia | eauto].
Qed.

Lemma Core_with_nextId s : Core s -> Core (with_nextId (S (nextId s)) s).
Proof.
  intros []. constructor; cbn; auto.
  intros id e Hl. apply inv_ids0 in Hl. lia.
Qed.

Lemma Core_clearCache s : Core s -> Core (with_accountInfoCache ∅ s).
Proof.
  intros []. constructor; cbn; auto.
  intros Hp. destruct (inv_idle0 Hp). done.
Qed.

Lemma Core_await p k s :
  Core s -> accountInfoFrame k ->
  Core (await p k s).1.
Proof.
  intros [] Hk. unfold await, update. constructor; cbn; auto.
  - intros Hp. destruct (inv_idle0 Hp) as [Ho Hc]. split; [|done].
    rewrite Ho. apply alter_empty.
  - intros id e Hl. apply lookup_alter_Some in Hl as [(_ & x & Hx & _) | (_ & Hx)]; eauto.
  - intros A q Hl. destruct (inv_inflight0 A q Hl) as [ks Hks].
    destruct (decide (p = q)) as [->|Hne].
    + exists (ks ++ [k]). by rewrite lookup_alter_eq, Hks.
    + exists ks. by rewrite lookup_alter_ne.
  - intros q A ks Hl.
    apply lookup_alter_Some in Hl as [(-> & [q' ks'] & Hx & Heq) | (_ & Hx)]; [|eauto].
    unfold addWaiter in Heq. cbn in Heq. injection Heq as <- ->.
    destruct (inv_waiters0 _ _ _ Hx) as (? & ? & ?). repeat split; auto.
    + by destruct ks'.
    + apply Forall_app. split; auto.
Qed.

Lemma Core_fetchAccountInfo target k s :
  Core s -> provider s <> None -> accountInfoFrame k -> target <> "" ->
  freshData (accountInfoCache s !! target) (now s) = None ->
  Core (fetchAccountInfo target k s).1.
Proof.
  intros [] Hp Hk Ht Hfresh. unfold fetchAccountInfo, call, andThen, update.
  constructor; cbn; auto.
  - done.
  - intros id e. destruct (decide (nextId s = id)) as [<-|Hne]; [lia|].
    rewrite lookup_insert_ne by done. intros Hl. apply inv_ids0 in Hl. lia.
  - intros A p. destruct (decide (target = A)) as [<-|Hne].
    + rewrite lookup_insert_eq. intros [= <-]. rewrite lookup_insert_eq. eauto.
    + rewrite lookup_insert_ne by done. intros Hl.
      destruct (inv_inflight0 A p Hl) as [ks Hks]. exists ks.
      rewrite lookup_insert_ne; [done|]. apply inv_ids0 in Hks. lia.
  - intros p A ks. destruct (decide (nextId s = p)) as [<-|Hne].
    + rewrite lookup_insert_eq. intros [= <- <-]. repeat split; auto.
    + rewrite lookup_insert_ne by done. eauto.
  - intros A p. destruct (decide (target = A)) as [<-|Hne]; [done|].
    rewrite lookup_insert_ne by done. eauto.
Qed.

(** A promise for account info settles: lines 268-275. *)
Lemma Core_settleAccountInfo id target ks r s :
  Core s -> outstanding s !! id = Some (PGetAccountInfo target, ks) ->
  answers (PGetAccountInfo target) r = true ->
  Core (settleAccountInfo target r (forget id s).1).1.
Proof.
  intros Hc Hout Ha. pose proof Hc as [].
  assert (Hfree : forall A p, A <> target -> accountInfoInFlight s !! A = Some p -> p <> id).
  { intros A p Hne Hl ->. destruct (inv_inflight0 A id Hl) as [ks' Hks']. congruence. }
  assert (Hprov : provider s <> None).
  { intros Hp. destruct (inv_idle0 Hp) as [Ho _]. by rewrite Ho, lookup_empty in Hout. }
  destruct (inv_waiters0 _ _ _ Hout) as (Ht & _ & _).
  assert (Core (with_accountInfoInFlight (delete target (accountInfoInFlight s))
                  (with_outstanding (delete id (outstanding s)) s))) as Hdel.
  { constructor; cbn; auto.
    - done.
    - intros i e Hl. apply lookup_delete_Some in Hl as [_ Hl]. eauto.
    - intros A p Hl. apply lookup_delete_Some in Hl as [Hne Hl].
      destruct (inv_inflight0 A p Hl) as [ks' Hks']. exists ks'.
      rewrite lookup_delete_ne; [done|]. intros <-. by apply (Hfree A id).
    - intros p A ks' Hl. apply lookup_delete_Some in Hl as [_ Hl]. eauto.
    - intros A p Hl. apply lookup_delete_Some in Hl as [_ Hl]. eauto. }
  destruct r as [v|e]; [destruct v; try discriminate|]; [|exact Hdel].
  unfold settleAccountInfo, forget, andThen, update. cbn.
  destruct Hdel. cbn in *. constructor; cbn; auto.
  - done.
  - intros A p Hl. pose proof Hl as Hl'. apply lookup_delete_Some in Hl' as [Hne _].
    rewrite lookup_insert_ne by done. eauto.
  - intros A e. destruct (decide (target = A)) as [<-|Hne]; [done|].
    rewrite lookup_insert_ne by done. eauto.
Qed.

Lemma Core_forget id q ks s :
  Core s -> outstanding s !! id = Some (q, ks) -> (forall A, q <> PGetAccountInfo A) ->
  Core (forget id s).1.
Proof.
  intros [] Hout Hq. unfold forget, update. constructor; cbn; auto.
  - intros Hp. destruct (inv_idle0 Hp) as [Ho _]. by rewrite Ho, lookup_empty in Hout.
  - intros i e Hl. apply lookup_delete_Some in Hl as [_ Hl]. eauto.
  - intros A p Hl. destruct (inv_inflight0 A p Hl) as [ks' Hks']. exists ks'.
    rewrite lookup_delete_ne; [done|]. intros <-. rewrite Hout in Hks'.
    injection Hks' as -> _. by destruct (Hq A).
  - intros p A ks' Hl. apply lookup_delete_Some in Hl as [_ Hl]. eauto.
Qed.

Definition keepsTimer (s s' : State) : Prop :=
  autoConnectTimer s' = autoConnectTimer s \/ autoConnectTimer s' = None.

Lemma Core_quiet_timer s s' : Core s -> quiet s s' -> Core s' /\ keepsTimer s s'.
Proof. intros Hc Hq. split; [by eapply Core_quiet | apply (q_timer _ _ Hq)]. Qed.

(** [tryInitialize] in closed form. *)
Lemma tryInitialize_found s :
  initialized s = false ->
  tryInitialize true s
  = (with_isInstalled true (with_provider (Some banano) (with_initialized true s)), []).
Proof.
  intros H. unfold tryInitialize, initializeProvider, andThen. rewrite H.
  reflexivity.
Qed.

Lemma tryInitialize_absent s :
  initialized s = false ->
  tryInitialize false s
  = (if (retryCount s <? maxRetries)%nat
     then with_pollTimer (Some (now s + POLL_INTERVAL_MS))
            (with_retryCount (S (retryCount s)) (with_isInstalled false s))
     else with_isInstalled false s, []).
Proof.
  intros H. unfold tryInitialize, initializeProvider, andThen. rewrite H.
  cbn [setIsInstalled update negb andb initialized with_isInstalled retryCount].
  rewrite H. cbn [negb andb]. destruct (retryCount s <? maxRetries)%nat; reflexivity.
Qed.

Lemma Core_onPollTimer present s :
  Core s -> Core (onPollTimer present s).1 /\ keepsTimer s (onPollTimer present s).1.
Proof.
  intros Hc. pose proof Hc as []. unfold onPollTimer, keepsTimer.
  destruct (pollTimer s) as [due|] eqn:Hpoll; [|auto].
  destruct (due <=? now s); [|auto].
  pose proof (inv_poll0 _ eq_refl) as Hinit.
  assert (Hprov : provider s = None).
  { rewrite inv_initialized0 in Hinit. by destruct (provider s). }
  destruct (inv_idle0 Hprov) as [Ho Hca].
  rewrite andThen_state. cbn [update fst].
  destruct present.
  - rewrite tryInitialize_found by done. split; [|auto].
    constructor; cbn; auto; try done.
  - rewrite tryInitialize_absent by done. cbn [retryCount with_pollTimer].
    destruct (retryCount s <? maxRetries)%nat eqn:Hr; cbn.
    + split; [|auto]. apply Nat.ltb_lt in Hr.
      constructor; cbn; auto; try done; try lia; by rewrite Hprov.
    + split; [|auto]. constructor; cbn; auto; try done. by rewrite Hprov.
Qed.

Lemma Core_onAutoConnectTimer providerIsConnected s :
  Inv s ->
  Core (onAutoConnectTimer providerIsConnected s).1
  /\ keepsTimer s (onAutoConnectTimer providerIsConnected s).1.
Proof.
  intros [Hc Ht]. unfold onAutoConnectTimer.
  destruct (autoConnectTimer s) as [due|] eqn:Hd; [|by split; [|left]].
  destruct (due <=? now s); [|by split; [|left]].
  destruct (Ht due Hd) as (_ & Hp & _).
  assert (Hq : quiet s (with_autoConnectTimer None s)).
  { pose proof Hc as []. constructor; cbn; auto.
    intros id q ks Hle Hl. apply inv_ids0 in Hl. lia. }
  apply Core_quiet_timer; [done|]. rewrite andThen_state. cbn [update fst].
  eapply quiet_trans; [exact Hq|].
  destruct providerIsConnected.
  - apply Quiet_skip; [by eapply Core_quiet|]. cbn. by destruct (provider s).
  - apply Quiet_call; [discriminate|by eapply Core_quiet|]. cbn. by destruct (provider s).
Qed.

Lemma Core_listening (h : Act) s :
  Core s ->
  (provider s <> None -> Core (h s).1 /\ keepsTimer s (h s).1) ->
  Core (listening h s).1 /\ keepsTimer s (listening h s).1.
Proof.
  intros Hc H. unfold listening. destruct (initialized s) eqn:Hi.
  - apply H. rewrite (inv_initialized _ Hc) in Hi. by destruct (provider s).
  - split; [done | by left].
Qed.

Lemma Core_events s :
  Core s ->
  (forall key accts, Core (onConnectEvent key accts s).1
                     /\ keepsTimer s (onConnectEvent key accts s).1)
  /\ (Core (onDisconnectEvent s).1 /\ keepsTimer s (onDisconnectEvent s).1)
  /\ (forall key, Core (onAccountChanged key s).1 /\ keepsTimer s (onAccountChanged key s).1).
Proof.
  intros Hc.
  assert (H : forall s', refs s' = refs s ->
              Core (with_accountInfoCache ∅ s') /\ keepsTimer s (with_accountInfoCache ∅ s')).
  { intros s' Hr. split.
    - apply Core_clearCache. eapply Core_quiet; [exact Hc|]. by apply quiet_refs.
    - left. unfold refs in Hr. cbn. congruence. }
  split; [|split]; intros; cbn; apply H; reflexivity.
Qed.

Definition otherReq (q : Req) : Prop :=
  match q with PGetAccountInfo _ => False | _ => True end.

Lemma Quiet_call_other q k : otherReq q -> Quiet (call q k).
Proof. intros H. apply Quiet_call. intros A ->. exact H. Qed.

Lemma Quiet_apply (a : Act) s : Quiet a -> Core s -> provider s <> None -> quiet s (a s).1.
Proof. intros H. apply H. Qed.

#[local] Hint Resolve Quiet_call_other : quiet.
#[local] Hint Extern 1 (otherReq _) => exact I : quiet.

Lemma Core_getAccountInfo address k (done : option AccountInfo -> Act) s :
  Core s -> accountInfoFrame k ->
  (forall r s', refs (done r s').1 = refs s') ->
  Core (getAccountInfo address k done s).1
  /\ keepsTimer s (getAccountInfo address k done s).1.
Proof.
  intros Hc Hk Hdone. unfold getAccountInfo.
  destruct (provider s) eqn:Hp.
  - destruct (orElse address (orElse (publicKey s) None)) as [target|] eqn:Ht.
    + destruct (freshData _ _) eqn:Hf.
      * apply Core_quiet_timer, quiet_refs; auto.
      * destruct (accountInfoInFlight s !! target) as [p|] eqn:Hin.
        -- split; [by apply Core_await | by left].
        -- split; [|by left]. apply Core_fetchAccountInfo; auto; [congruence|].
           eapply orElse_nonempty; eauto.
    + apply Core_quiet_timer, quiet_refs; auto.
  - apply Core_quiet_timer, quiet_refs; auto.
    rewrite andThen_state, notInstalled_run. cbn [fst]. by rewrite Hdone.
Qed.

Lemma Core_start a c s :
  Core s -> Core (start a c s).1 /\ keepsTimer s (start a c s).1.
Proof.
  intros Hc.
  destruct a; cbn [start];
    try (apply Core_getAccountInfo; [done | exact I | reflexivity]);
    unfold connect, disconnect, getAccounts, getBalance, sendTransaction, signMessage,
      verifySignedMessage, signBlock, sendBlock, resolveBNS;
    (destruct (provider s) eqn:Hp;
     [| apply Core_quiet_timer, quiet_refs;
        [done | done | rewrite ?andThen_state, ?notInstalled_run; reflexivity]]);
    repeat case_match;
    try (apply Core_getAccountInfo; [done | exact I | reflexivity]);
    try (apply Core_quiet_timer, quiet_refs;
         [done | done | rewrite ?andThen_state, ?noAccountSelected_run; reflexivity]);
    (apply Core_quiet_timer; [done|];
     apply Quiet_apply; [auto 10 with quiet | done | congruence]).
Qed.

Lemma Core_invoke a s :
  Core s -> Core (invoke a s).1 /\ keepsTimer s (invoke a s).1.
Proof.
  intros Hc. unfold invoke.
  destruct (Core_start a (nextId s) _ (Core_with_nextId _ Hc)) as [H1 H2]. auto.
Qed.

Lemma reaction_other q r : otherReq q -> reaction q r = skip.
Proof. by destruct q. Qed.

Lemma Core_settle id r s :
  Core s -> Core (settle id r s).1 /\ keepsTimer s (settle id r s).1.
Proof.
  intros Hc. unfold settle.
  destruct (outstanding s !! id) as [[q ks]|] eqn:Hout; [|by split; [|left]].
  destruct (answers q r) eqn:Ha; [|by split; [|left]].
  assert (Hprov : provider s <> None).
  { intros Hp. destruct (inv_idle _ Hc Hp) as [Ho _]. by rewrite Ho, lookup_empty in Hout. }
  rewrite !andThen_state.
  assert (Hmid : Core (reaction q r (forget id s).1).1
                 /\ autoConnectTimer (reaction q r (forget id s).1).1 = autoConnectTimer s
                 /\ provider (reaction q r (forget id s).1).1 = provider s).
  { destruct q;
      try (cbn [reaction]; repeat split; eapply Core_forget; eauto; discriminate).
    cbn [reaction]. split; [eapply Core_settleAccountInfo; eauto|].
    destruct r as [[]|]; try discriminate; split; reflexivity. }
  destruct Hmid as (Hm & Htimer & Hpm).
  pose proof (Quiet_resumeAll ks r _ Hm ltac:(congruence)) as Hq.
  split; [by eapply Core_quiet|].
  unfold keepsTimer. destruct (q_timer _ _ Hq) as [-> | ->]; auto.
Qed.

Lemma Core_handle e s :
  Inv s -> Core (handle e s).1 /\ keepsTimer s (handle e s).1.
Proof.
  intros Hi. pose proof Hi as [Hc Ht].
  destruct e; cbn [handle].
  - split; [by apply Core_tick | by left].
  - by apply Core_onPollTimer.
  - by apply Core_onAutoConnectTimer.
  - apply Core_listening; [done|]. intros _. by apply Core_events.
  - apply Core_listening; [done|]. intros _. by apply Core_events.
  - apply Core_listening; [done|]. intros _. by apply Core_events.
  - apply Core_quiet_timer, quiet_refs; done.
  - by apply Core_invoke.
  - by apply Core_settle.
Qed.

Lemma Inv_mount auto present time : Inv (mount auto present time).
Proof.
  unfold mount. rewrite rendered_state.
  assert (Hinit : initialized (unmounted auto time) = false) by reflexivity.
  destruct present.
  - rewrite tryInitialize_found by done. split.
    + apply Core_effect. constructor; cbn; auto; try done. unfold maxRetries. lia.
    + intros due. unfold autoConnectEffect, autoConnectBody. cbn.
      destruct auto; cbn; [|done]. intros _. done.
  - rewrite tryInitialize_absent by done. split.
    + apply Core_effect. constructor; cbn; auto; try done. unfold maxRetries. lia.
    + intros due. unfold autoConnectEffect, autoConnectBody. cbn.
      destruct auto; cbn; done.
Qed.

(** Every state the component can be in satisfies the invariant. *)
Lemma Inv_step s e : Inv s -> Inv (step s e).1.
Proof.
  intros Hi. destruct (Core_handle e s Hi) as [Hc Ht].
  unfold step. by apply Inv_rendered.
Qed.

Lemma reachable_Inv s : reachable s -> Inv s.
Proof. induction 1; auto using Inv_mount, Inv_step. Qed.

Lemma reachable_run s es : reachable s -> reachable (run s es).1.
Proof.
  revert s. induction es as [|e es IH]; intros s Hs; cbn [run]; [done|].
  pose proof (IH _ (reachable_step s e Hs)) as H.
  destruct (step s e) as [s1 o1]. cbn [fst] in H. by destruct (run s1 es).
Qed.

(** *** What the handle is asked to do *)

Lemma reaction_out q r s : (reaction q r s).2 = [].
Proof. destruct q; try done. cbn. by destruct r as [[]|]. Qed.

(** The only call a resumed wrapper makes is the transfer that follows the
    lookup of a name. *)
Lemma resume_calls k r s q :
  q ∈ calls (resume k r s).2 -> exists key to amt, q = PSendTransaction key to amt.
Proof.
  destruct k; destruct r as [[]|]; cbn [resume accountInfoSettled];
    try (destruct (nonempty _));
    rewrite ?andThen_out, ?handleError_out; cbn;
    intros H; try (by apply elem_of_nil in H);
    apply list_elem_of_singleton in H; eauto.
Qed.

Lemma resumeEach_calls ks r s q :
  q ∈ calls (resumeEach ks r s).2 -> exists key to amt, q = PSendTransaction key to amt.
Proof.
  revert s. induction ks as [|k ks IH]; intros s; cbn [resumeEach].
  - intros H. by apply elem_of_nil in H.
  - rewrite andThen_out, calls_app, elem_of_app. intros [H|H]; eauto using resume_calls.
Qed.

(** What follows a turn later only returns. *)
Lemma resumeLaterEach_run ks r s :
  (resumeLaterEach ks r s).1 = s /\ calls (resumeLaterEach ks r s).2 = [].
Proof.
  induction ks as [|k ks [IH1 IH2]]; cbn [resumeLaterEach]; [done|].
  rewrite andThen_state, andThen_out, calls_app.
  assert (H : (resumeLater k r s).1 = s /\ calls (resumeLater k r s).2 = []).
  { destruct k; try done. by destruct r as [[]|]. }
  destruct H as [H1 H2]. rewrite H1, H2, IH1, IH2. done.
Qed.

Lemma resumeAll_calls ks r s q :
  q ∈ calls (resumeAll ks r s).2 -> exists key to amt, q = PSendTransaction key to amt.
Proof.
  unfold resumeAll. rewrite andThen_out, calls_app.
  destruct (resumeLaterEach_run ks r (resumeEach ks r s).1) as [_ ->].
  rewrite app_nil_r. apply resumeEach_calls.
Qed.

Lemma start_calls a c s q : q ∈ calls (start a c s).2 -> q <> PConnect true.
Proof.
  destruct a; cbn [start];
    unfold connect, disconnect, getAccounts, getBalance, sendTransaction, signMessage,
      verifySignedMessage, signBlock, sendBlock, resolveBNS, getAccountInfo;
    repeat (case_match; unfold getAccountInfo);
    rewrite ?andThen_out, ?notInstalled_run, ?noAccountSelected_run; cbn;
    intros Hin; try (by apply elem_of_nil in Hin);
    apply list_elem_of_singleton in Hin; by subst.
Qed.

(** The silent connect is only issued by the timer of the auto-connect
    effect. *)
Lemma auto_connect_only_from_timer s e :
  PConnect true ∈ calls (step s e).2 ->
  exists due, e = AutoConnectTimer false /\ autoConnectTimer s = Some due /\ due <= now s.
Proof.
  unfold step. rewrite rendered_out.
  destruct e; cbn [handle]; unfold listening, onPollTimer.
  - intros Hin. by apply elem_of_nil in Hin.
  - destruct (pollTimer s); [destruct (_ <=? _)|]; try (intros Hin; by apply elem_of_nil in Hin).
    rewrite andThen_out. unfold tryInitialize, initializeProvider. rewrite andThen_out. cbn.
    repeat case_match; cbn; intros Hin; by apply elem_of_nil in Hin.
  - unfold onAutoConnectTimer. destruct (autoConnectTimer s) as [due|]; [|intros Hin; by apply elem_of_nil in Hin].
    destruct (Z.leb_spec due (now s)); [|intros Hin; by apply elem_of_nil in Hin].
    destruct providerIsConnected; [intros Hin; by apply elem_of_nil in Hin|]. eauto.
  - destruct (initialized s); intros Hin; cbn in Hin; inversion Hin.
  - destruct (initialized s); intros Hin; cbn in Hin; inversion Hin.
  - destruct (initialized s); intros Hin; cbn in Hin; inversion Hin.
  - intros Hin. by apply elem_of_nil in Hin.
  - unfold invoke. intros Hin. by apply start_calls in Hin.
  - unfold settle. destruct (outstanding s !! id) as [[q ks]|]; [|intros Hin; by apply elem_of_nil in Hin].
    destruct (answers q r); [|intros Hin; by apply elem_of_nil in Hin].
    rewrite !andThen_out, reaction_out. cbn [forget update snd app].
    intros Hin. apply resumeAll_calls in Hin as (? & ? & ? & ?). discriminate.
Qed.


(** The user disconnects while the auto-connect timer is pending. *)
Definition userDisconnectedState : State :=
  (run (mount true true 0) [Invoke Disconnect; Tick 800]).1.

(** *** The account-info cache and its in-flight registry *)

(** What the promise of [provider.getAccountInfo] hands to those awaiting
    it: the data, or nothing when it rejects. *)
Definition infoOf (r : Settled Value) : option AccountInfo :=
  match r with
  | Fulfilled (VAccountInfo data) => Some data
  | _ => None
  end.

(** What the caller behind a waiting frame gets back. *)
Definition delivered (info : option AccountInfo) (k : Frame) : option (nat * Result) :=
  match k with
  | KGetAccountInfo c => Some (c, RetInfo info)
  | KGetBalance c => Some (c, RetString (balance <$> info))
  | _ => None
  end.

(** The order in which those that await one promise get their value:
    first the callers of [getAccountInfo], in the order in which they began
    to wait, then the callers of [getBalance], which wait for a call of
    [getAccountInfo] of their own. *)
Definition inReturnOrder (ks : list Frame) : list Frame :=
  filter (fun k => viaBalance k = false) ks ++ filter (fun k => viaBalance k = true) ks.

Lemma elem_of_inReturnOrder k ks : k ∈ inReturnOrder ks <-> k ∈ ks.
Proof.
  unfold inReturnOrder. rewrite elem_of_app, !list_elem_of_filter.
  split; [intros [[_ H]|[_ H]]; exact H | intros H; destruct (viaBalance k); auto].
Qed.

Lemma resumeEach_accountInfo A ks r s :
  Forall accountInfoFrame ks ->
  answers (PGetAccountInfo A) r = true ->
  returns (resumeEach ks r s).2
  = omap (delivered (infoOf r)) (filter (fun k => viaBalance k = false) ks)
  /\ calls (resumeEach ks r s).2 = [].
Proof.
  intros Hks Ha. revert s. induction Hks as [|k ks Hk _ IH]; intros s; [done|].
  cbn [resumeEach]. rewrite andThen_out, returns_app, calls_app.
  destruct (IH (resume k r s).1) as [-> ->].
  destruct k; try (by destruct Hk);
    destruct r as [[]|]; try discriminate; cbn [resume accountInfoSettled];
    rewrite ?andThen_out, ?handleError_out; done.
Qed.

Lemma resumeLaterEach_accountInfo A ks r s :
  Forall accountInfoFrame ks ->
  answers (PGetAccountInfo A) r = true ->
  returns (resumeLaterEach ks r s).2
  = omap (delivered (infoOf r)) (filter (fun k => viaBalance k = true) ks).
Proof.
  intros Hks Ha. revert s. induction Hks as [|k ks Hk _ IH]; intros s; [done|].
  cbn [resumeLaterEach]. rewrite andThen_out, returns_app, IH.
  destruct k; try (by destruct Hk);
    destruct r as [[]|]; try discriminate; done.
Qed.

Lemma resumeAll_accountInfo A ks r s :
  Forall accountInfoFrame ks ->
  answers (PGetAccountInfo A) r = true ->
  returns (resumeAll ks r s).2 = omap (delivered (infoOf r)) (inReturnOrder ks)
  /\ calls (resumeAll ks r s).2 = [].
Proof.
  intros Hks Ha. unfold resumeAll, inReturnOrder.
  rewrite andThen_out, returns_app, calls_app, omap_app.
  destruct (resumeEach_accountInfo A ks r s Hks Ha) as [-> ->].
  rewrite (resumeLaterEach_accountInfo A ks r _ Hks Ha).
  by destruct (resumeLaterEach_run ks r (resumeEach ks r s).1) as [_ ->].
Qed.

(** On success nothing but the return happens in the waiting wrappers. *)
Lemma resumeAll_accountInfo_state ks data s :
  Forall accountInfoFrame ks ->
  (resumeAll ks (Fulfilled (VAccountInfo data)) s).1 = s.
Proof.
  intros Hks. unfold resumeAll. rewrite andThen_state.
  destruct (resumeLaterEach_run ks (Fulfilled (VAccountInfo data))
              (resumeEach ks (Fulfilled (VAccountInfo data)) s).1) as [-> _].
  revert s. induction Hks as [|k ks Hk _ IH]; intros s; [done|].
  cbn [resumeEach]. rewrite andThen_state, IH. by destruct k.
Qed.

Lemma orElse_address A y : A <> "" -> orElse (Some A) y = Some A.
Proof. intros H. apply nonempty_true in H. unfold orElse. by rewrite H. Qed.

(** C1.  While a request for [A] is in flight, a further
    [getAccountInfo(A)] calls no method of the handle: it joins those that
    await the promise in the registry.  When the promise settles, the handle
    is not called either, and every caller that awaited it, the new one
    included, gets the value it was fulfilled with, or null if it was
    rejected: the callers of [getAccountInfo] in the order in which they
    began to wait, then those of [getBalance]. *)
Theorem in_flight_request_is_shared (s : State) (A : string) (p : nat) :
  reachable s ->
  accountInfoInFlight s !! A = Some p ->
  let c := nextId s in
  let second := step s (Invoke (GetAccountInfo (Some A))) in
  exists ks,
    outstanding s !! p = Some (PGetAccountInfo A, ks) /\ ks <> []
    /\ second.2 = []
    /\ accountInfoInFlight second.1 !! A = Some p
    /\ outstanding second.1 !! p = Some (PGetAccountInfo A, ks ++ [KGetAccountInfo c])
    /\ forall r, answers (PGetAccountInfo A) r = true ->
         let settled := step second.1 (Settle p r) in
         calls settled.2 = []
         /\ returns settled.2
            = omap (delivered (infoOf r)) (inReturnOrder (ks ++ [KGetAccountInfo c]))
         /\ (c, RetInfo (infoOf r)) ∈ returns settled.2
         /\ forall c1, KGetAccountInfo c1 ∈ ks -> (c1, RetInfo (infoOf r)) ∈ returns settled.2.
Proof.
  intros Hr Hin. cbn zeta.
  destruct (reachable_Inv s Hr) as [Hc _]. pose proof Hc as [].
  destruct (inv_inflight0 A p Hin) as [ks Hks].
  destruct (inv_waiters0 p A ks Hks) as (HA & Hne & Hfr).
  assert (Hp : provider s <> None).
  { intros Hp. destruct (inv_idle0 Hp) as [Ho _]. by rewrite Ho, lookup_empty in Hks. }
  pose proof (inv_stale0 A p Hin) as Hstale.
  assert (Hstep : step s (Invoke (GetAccountInfo (Some A)))
                  = rendered (await p (KGetAccountInfo (nextId s)))
                      (with_nextId (S (nextId s)) s)).
  { unfold step, handle, invoke, start, getAccountInfo, rendered.
    cbn [provider publicKey accountInfoCache accountInfoInFlight now with_nextId].
    destruct (provider s); [|done].
    rewrite (orElse_address _ _ HA), Hstale, Hin. cbn.
    rewrite !autoConnectEffect_same; reflexivity. }
  exists ks. rewrite Hstep, rendered_out, rendered_state.
  autorewrite with effect_frame.
  assert (Hout : outstanding (await p (KGetAccountInfo (nextId s))
                                (with_nextId (S (nextId s)) s)).1 !! p
                 = Some (PGetAccountInfo A, ks ++ [KGetAccountInfo (nextId s)])).
  { cbn. by rewrite lookup_alter_eq, Hks. }
  split; [done|]. split; [done|]. split; [reflexivity|].
  split; [by cbn|]. split; [done|].
  intros r Ha.
  set (s1 := autoConnectEffect _ _).
  assert (Hout1 : outstanding s1 !! p
                  = Some (PGetAccountInfo A, ks ++ [KGetAccountInfo (nextId s)])).
  { unfold s1. by rewrite effect_outstanding. }
  rewrite (step_settle_out _ _ _ _ r Hout1 Ha), reaction_out. cbn [app].
  assert (Hall : Forall accountInfoFrame (ks ++ [KGetAccountInfo (nextId s)])).
  { apply Forall_app. split; [done|]. by constructor. }
  destruct (resumeAll_accountInfo A _ r
              (reaction (PGetAccountInfo A) r (forget p s1).1).1 Hall Ha) as [Hret Hcalls].
  rewrite Hret, Hcalls. repeat split.
  - apply list_elem_of_omap. exists (KGetAccountInfo (nextId s)). split; [|done].
    apply elem_of_inReturnOrder, elem_of_app. right. apply list_elem_of_here.
  - intros c1 Hc1. apply list_elem_of_omap. exists (KGetAccountInfo c1). split; [|done].
    apply elem_of_inReturnOrder, elem_of_app. by left.
Qed.

Definition sampleInfo : AccountInfo :=
  {| address := "ban_1abc"; balance := "19"; pending := "0";
     rawBalance := "1900000000000000000000000000000"; rawPending := "0" |}.

(** The active account has asked for its account info; the promise of the
    handle has number 1 and has not settled. *)
Definition inFlightState : State :=
  (run connectedState [Invoke (GetAccountInfo None)]).1.

Lemma in_flight_request_is_shared_witness :
  let c := nextId inFlightState in
  let second := step inFlightState (Invoke (GetAccountInfo (Some "ban_1abc"))) in
  let settled := step second.1 (Settle 1 (Fulfilled (VAccountInfo sampleInfo))) in
  second.2 = []
  /\ calls settled.2 = []
  /\ (c, RetInfo (infoOf (Fulfilled (VAccountInfo sampleInfo)))) ∈ returns settled.2
  /\ (0%nat, RetInfo (infoOf (Fulfilled (VAccountInfo sampleInfo)))) ∈ returns settled.2.
Proof.
  assert (Hr : reachable inFlightState)
    by apply reachable_run, reachable_run, reachable_mount.
  assert (Hin : accountInfoInFlight inFlightState !! "ban_1abc" = Some 1%nat)
    by (vm_compute; reflexivity).
  pose proof (in_flight_request_is_shared inFlightState "ban_1abc" 1 Hr Hin) as H.
  cbv zeta in H. destruct H as (ks & Hks & _ & Hout & _ & _ & Hsettle).
  destruct (Hsettle (Fulfilled (VAccountInfo sampleInfo)) eq_refl) as (Hc & _ & H2 & H0).
  cbv zeta. split; [exact Hout|]. split; [exact Hc|]. split; [exact H2|].
  apply H0. vm_compute in Hks. injection Hks as <-. apply list_elem_of_here.
Defined.

Lemma step_tick s ms : step s (Tick ms) = (with_now (now s + Z.of_N ms) s, []).
Proof.
  unfold step, rendered, handle, update. by rewrite autoConnectEffect_same.
Qed.

(** The promise of [provider.getAccountInfo(A)] is fulfilled: the [then]
    callback stores the data under [A] with the time of the settlement and
    takes the promise out of the registry; the rest of the state stays. *)
Lemma step_settle_accountInfo s p A ks data :
  outstanding s !! p = Some (PGetAccountInfo A, ks) ->
  Forall accountInfoFrame ks ->
  let settled := step s (Settle p (Fulfilled (VAccountInfo data))) in
  accountInfoCache settled.1 = <[A := (now s, data)]> (accountInfoCache s)
  /\ accountInfoInFlight settled.1 = delete A (accountInfoInFlight s)
  /\ publicKey settled.1 = publicKey s
  /\ isConnected settled.1 = isConnected s
  /\ calls settled.2 = []
  /\ returns settled.2 = omap (delivered (Some data)) (inReturnOrder ks).
Proof.
  intros Hout Hks. cbn zeta.
  rewrite (step_settle_state _ _ _ _ (Fulfilled (VAccountInfo data)) Hout eq_refl).
  rewrite (step_settle_out _ _ _ _ (Fulfilled (VAccountInfo data)) Hout eq_refl).
  autorewrite with effect_frame.
  rewrite resumeAll_accountInfo_state by done.
  rewrite reaction_out. cbn [app].
  destruct (resumeAll_accountInfo A ks (Fulfilled (VAccountInfo data))
              (reaction (PGetAccountInfo A) (Fulfilled (VAccountInfo data)) (forget p s).1).1
              Hks eq_refl) as [-> ->].
  repeat split; reflexivity.
Qed.

(** C2.  A call [getAccountInfo(A)] that finds a cache entry for [A]
    younger than 5000 ms returns its data and calls no method of the handle.
    When the entry is 5000 ms old or older and no request for [A] is in
    flight, the call makes exactly one call of the handle,
    [getAccountInfo(A)]; when that call succeeds, the data is returned and
    stored under [A] with the time of the settlement. *)
Theorem cache_entry_expires_after_ttl (s : State) (A : string) (ts : Z) (data : AccountInfo) :
  reachable s ->
  accountInfoCache s !! A = Some (ts, data) ->
  let c := nextId s in
  let p := S (nextId s) in
  let started := step s (Invoke (GetAccountInfo (Some A))) in
  (now s - ts < ACCOUNT_INFO_TTL_MS ->
   started = (with_nextId (S c) s, [Returned c (RetInfo (Some data))]))
  /\ (ACCOUNT_INFO_TTL_MS <= now s - ts ->
      accountInfoInFlight s !! A = None ->
      started.2 = [Called p (PGetAccountInfo A)]
      /\ accountInfoInFlight started.1 !! A = Some p
      /\ forall ms fresh,
           let settled :=
             run started.1 [Tick ms; Settle p (Fulfilled (VAccountInfo fresh))] in
           settled.2 = [Returned c (RetInfo (Some fresh))]
           /\ accountInfoCache settled.1 !! A = Some (now s + Z.of_N ms, fresh)
           /\ accountInfoInFlight settled.1 !! A = None).
Proof.
  intros Hr Hca. cbn zeta.
  destruct (reachable_Inv s Hr) as [Hc _]. pose proof Hc as [].
  pose proof (inv_cache0 A _ Hca) as HA.
  assert (Hp : provider s <> None).
  { intros Hp. destruct (inv_idle0 Hp) as [_ Ho]. by rewrite Ho, lookup_empty in Hca. }
  assert (Hstep : step s (Invoke (GetAccountInfo (Some A)))
                  = rendered (fun s1 =>
                      if now s - ts <? ACCOUNT_INFO_TTL_MS
                      then ret (nextId s) (RetInfo (Some data)) s1
                      else match accountInfoInFlight s !! A with
                           | Some q => await q (KGetAccountInfo (nextId s)) s1
                           | None => fetchAccountInfo A (KGetAccountInfo (nextId s)) s1
                           end) (with_nextId (S (nextId s)) s)).
  { unfold step, handle, invoke, start, getAccountInfo, rendered.
    cbn [provider publicKey accountInfoCache accountInfoInFlight now with_nextId].
    destruct (provider s); [|done].
    rewrite (orElse_address _ _ HA), Hca. unfold freshData.
    by destruct (now s - ts <? ACCOUNT_INFO_TTL_MS). }
  split.
  - intros Hlt. apply Z.ltb_lt in Hlt. rewrite Hlt in Hstep. rewrite Hstep.
    unfold rendered. cbn. by rewrite autoConnectEffect_same.
  - intros Hge Hnone. apply Z.ltb_ge in Hge. rewrite Hge, Hnone in Hstep.
    rewrite Hstep, rendered_out, rendered_state.
    set (s1 := autoConnectEffect _ _).
    assert (Hs1 : s1 = (fetchAccountInfo A (KGetAccountInfo (nextId s))
                          (with_nextId (S (nextId s)) s)).1).
    { unfold s1. by rewrite autoConnectEffect_same. }
    split; [reflexivity|]. split.
    { rewrite Hs1. cbn. apply lookup_insert_eq. }
    intros ms fresh. cbn [run]. rewrite step_tick.
    set (s2 := with_now _ s1).
    assert (Hout : outstanding s2 !! S (nextId s)
                   = Some (PGetAccountInfo A, [KGetAccountInfo (nextId s)])).
    { unfold s2. rewrite Hs1. cbn. apply lookup_insert_eq. }
    destruct (step_settle_accountInfo s2 _ A _ fresh Hout) as (Hcache & Hfl & _ & _ & _ & _).
    { by repeat constructor. }
    pose proof (step_settle_out s2 _ _ _ (Fulfilled (VAccountInfo fresh)) Hout eq_refl) as Ho.
    destruct (step s2 _) as [s3 o3]. cbn [fst snd app] in *.
    split; [|split].
    + rewrite Ho. reflexivity.
    + rewrite Hcache, lookup_insert_eq. unfold s2. rewrite Hs1. reflexivity.
    + rewrite Hfl. apply lookup_delete_eq.
Qed.

(** The account info of the active account, fetched once and still fresh. *)
Definition cachedState : State :=
  (run inFlightState [Settle 1 (Fulfilled (VAccountInfo sampleInfo))]).1.

Definition staleState : State := (run cachedState [Tick 5000]).1.

Lemma cache_entry_expires_after_ttl_witness :
  step cachedState (Invoke (GetAccountInfo (Some "ban_1abc")))
  = (with_nextId (S (nextId cachedState)) cachedState,
     [Returned (nextId cachedState) (RetInfo (Some sampleInfo))])
  /\ (step staleState (Invoke (GetAccountInfo (Some "ban_1abc")))).2
     = [Called (S (nextId staleState)) (PGetAccountInfo "ban_1abc")].
Proof.
  assert (Hr : reachable cachedState)
    by apply reachable_run, reachable_run, reachable_run, reachable_mount.
  assert (Hr' : reachable staleState) by apply reachable_run, Hr.
  assert (Hc : accountInfoCache cachedState !! "ban_1abc" = Some (0, sampleInfo))
    by (vm_compute; reflexivity).
  assert (Hc' : accountInfoCache staleState !! "ban_1abc" = Some (0, sampleInfo))
    by (vm_compute; reflexivity).
  pose proof (cache_entry_expires_after_ttl cachedState "ban_1abc" 0 sampleInfo Hr Hc) as H1.
  pose proof (cache_entry_expires_after_ttl staleState "ban_1abc" 0 sampleInfo Hr' Hc') as H2.
  cbv zeta in H1, H2. destruct H1 as [H1 _]. destruct H2 as [_ H2].
  assert (Hlt : now cachedState - 0 < ACCOUNT_INFO_TTL_MS) by (vm_compute; reflexivity).
  assert (Hge : ACCOUNT_INFO_TTL_MS <= now staleState - 0) by (vm_compute; discriminate).
  assert (Hfl : accountInfoInFlight staleState !! "ban_1abc" = None)
    by (vm_compute; reflexivity).
  destruct (H2 Hge Hfl) as [H3 _].
  split; [exact (H1 Hlt) | exact H3].
Defined.

(** *** A disconnect while a request is in flight *)

(** The reading of the spec: once the wallet has disconnected, the late
    result of a request for [A] leaves no cache entry for [A]. *)
Definition notRepopulated (s : State) (A : string) (p : nat) (data : AccountInfo) : Prop :=
  accountInfoCache (run s [DisconnectEvent; Settle p (Fulfilled (VAccountInfo data))]).1 !! A
  = None.

(** Nothing cancels a call of the handle: its promise stays outstanding,
    with its request, through every event but its own settlement. *)
Definition settles (p : nat) (e : Event) : bool :=
  match e with Settle id _ => bool_decide (id = p) | _ => false end.

Definition keeps (p : nat) (q : Req) (s s' : State) : Prop :=
  forall ks, outstanding s !! p = Some (q, ks) ->
    exists ks', outstanding s' !! p = Some (q, ks').

Lemma keeps_same p q s s' : outstanding s' = outstanding s -> keeps p q s s'.
Proof. intros H ks Hl. exists ks. by rewrite H. Qed.

Lemma keeps_quiet p q s s' : Core s -> quiet s s' -> keeps p q s s'.
Proof.
  intros Hc Hq ks Hl. exists ks. rewrite (q_old _ _ Hq); [done|].
  eapply inv_ids; eauto.
Qed.

Lemma keeps_refs p q s s' : refs s' = refs s -> keeps p q s s'.
Proof.
  intros H. apply keeps_same. unfold refs in H. by injection H.
Qed.

Lemma keeps_getAccountInfo p q address k (done : option AccountInfo -> Act) s :
  Core s ->
  (forall r s', refs (done r s').1 = refs s') ->
  keeps p q s (getAccountInfo address k done s).1.
Proof.
  intros Hc Hdone. unfold getAccountInfo. destruct (provider s) eqn:Hp.
  - destruct (orElse address (orElse (publicKey s) None)) as [target|];
      [|by apply keeps_refs].
    destruct (freshData _ _); [by apply keeps_refs|].
    destruct (accountInfoInFlight s !! target) as [p0|].
    + intros ks Hl. unfold await, update, addWaiter. cbn.
      destruct (decide (p0 = p)) as [->|Hne].
      * rewrite lookup_alter_eq, Hl. cbn. eauto.
      * rewrite lookup_alter_ne by done. eauto.
    + intros ks Hl. unfold fetchAccountInfo, call, andThen, update. cbn.
      pose proof (inv_ids _ Hc _ _ Hl). rewrite lookup_insert_ne by lia. eauto.
  - apply keeps_refs. rewrite andThen_state, notInstalled_run. cbn [fst]. by rewrite Hdone.
Qed.

Lemma keeps_start p q a c s : Core s -> keeps p q s (start a c s).1.
Proof.
  intros Hc.
  destruct a; cbn [start];
    try (apply keeps_getAccountInfo; [done | reflexivity]);
    unfold connect, disconnect, getAccounts, getBalance, sendTransaction, signMessage,
      verifySignedMessage, signBlock, sendBlock, resolveBNS;
    (destruct (provider s) eqn:Hp;
     [| apply keeps_refs; rewrite ?andThen_state, ?notInstalled_run; reflexivity]);
    repeat case_match;
    try (apply keeps_getAccountInfo; [done | reflexivity]);
    try (apply keeps_refs; rewrite ?andThen_state, ?noAccountSelected_run; reflexivity);
    (apply keeps_quiet; [done|];
     apply Quiet_apply; [auto 10 with quiet | done | congruence]).
Qed.

Lemma step_keeps_promise s e p q ks :
  Inv s ->
  outstanding s !! p = Some (q, ks) ->
  settles p e = false ->
  exists ks', outstanding (step s e).1 !! p = Some (q, ks').
Proof.
  intros [Hc Ht] Hl He.
  assert (Hp : provider s <> None).
  { intros Hp. destruct (inv_idle _ Hc Hp) as [Ho _]. by rewrite Ho, lookup_empty in Hl. }
  pose proof (inv_ids _ Hc _ _ Hl) as Hid.
  unfold step. rewrite rendered_state, effect_outstanding.
  destruct e; cbn [handle]; unfold listening.
  - eauto.
  - unfold onPollTimer. destruct (pollTimer s) as [due|] eqn:Hpoll; [|eauto].
    pose proof (inv_poll _ Hc _ Hpoll) as Hi. rewrite (inv_initialized _ Hc) in Hi.
    by destruct (provider s).
  - unfold onAutoConnectTimer. destruct (autoConnectTimer s); [|eauto].
    destruct (_ <=? _); [|eauto]. destruct providerIsConnected; [eauto|].
    unfold andThen, update, call. cbn. rewrite lookup_insert_ne by lia. eauto.
  - destruct (initialized s); eauto.
  - destruct (initialized s); eauto.
  - destruct (initialized s); eauto.
  - eauto.
  - unfold invoke. apply (keeps_start p q a (nextId s) _ (Core_with_nextId _ Hc) ks Hl).
  - unfold settle. cbn [settles] in He. apply bool_decide_eq_false in He.
    destruct (outstanding s !! id) as [[q0 ks0]|] eqn:Hout; [|eauto].
    destruct (answers q0 r) eqn:Ha; [|eauto].
    rewrite !andThen_state.
    assert (Hmid : Core (reaction q0 r (forget id s).1).1
                   /\ outstanding (reaction q0 r (forget id s).1).1 = delete id (outstanding s)
                   /\ provider (reaction q0 r (forget id s).1).1 = provider s).
    { destruct q0;
        try (cbn [reaction]; repeat split; eapply Core_forget; eauto; discriminate).
      cbn [reaction]. split; [eapply Core_settleAccountInfo; eauto|].
      destruct r as [[]|]; try discriminate; split; reflexivity. }
    destruct Hmid as (Hm & Ho & Hpm).
    apply (keeps_quiet p q _ _ Hm (Quiet_resumeAll ks0 r _ Hm ltac:(congruence)) ks).
    rewrite Ho. by rewrite lookup_delete_ne.
Qed.

Lemma run_keeps_promise es : forall s p q ks,
  reachable s ->
  outstanding s !! p = Some (q, ks) ->
  Forall (fun e => settles p e = false) es ->
  exists ks', outstanding (run s es).1 !! p = Some (q, ks').
Proof.
  induction es as [|e es IH]; intros s p q ks Hr Hl Hes; [cbn; eauto|].
  apply Forall_cons in Hes as [He Hes].
  destruct (step_keeps_promise s e p q ks (reachable_Inv s Hr) Hl He) as [ks1 Hl1].
  pose proof (IH (step s e).1 p q ks1 (reachable_step s e Hr) Hl1 Hes) as H.
  cbn [run]. destruct (step s e) as [s1 o1]. cbn [fst] in H. by destruct (run s1 es).
Qed.

(** C3, as the code has it.  A [disconnect] event received while a request
    for [A] is in flight empties the cache and clears the active account; it
    does not cancel the request, which stays in the registry.  When the
    request later succeeds, its data is stored under [A] with the time of
    the settlement, although no account is active; no entry appears under
    any other address.  The same holds whatever happens between the
    disconnect and the settlement: the promise is still outstanding, and
    when it is fulfilled the data is stored under [A] with the time of the
    settlement, whichever account is active then, another one or none; the
    entries of the other addresses stay as they are, the active account is
    not changed and the handle is not called. *)
Theorem disconnect_keeps_request_in_flight (s : State) (A : string) (p : nat) :
  reachable s ->
  accountInfoInFlight s !! A = Some p ->
  let disconnected := step s DisconnectEvent in
  accountInfoCache disconnected.1 = ∅
  /\ publicKey disconnected.1 = None
  /\ isConnected disconnected.1 = false
  /\ accountInfoInFlight disconnected.1 !! A = Some p
  /\ (forall ms data,
       let settled :=
         run disconnected.1 [Tick ms; Settle p (Fulfilled (VAccountInfo data))] in
       accountInfoCache settled.1 !! A = Some (now s + Z.of_N ms, data)
       /\ publicKey settled.1 = None
       /\ forall B, B <> A -> accountInfoCache settled.1 !! B = None)
  /\ forall es data,
       Forall (fun e => settles p e = false) es ->
       let later := (run disconnected.1 es).1 in
       let settled := step later (Settle p (Fulfilled (VAccountInfo data))) in
       is_Some (outstanding later !! p)
       /\ accountInfoCache settled.1 !! A = Some (now later, data)
       /\ publicKey settled.1 = publicKey later
       /\ (forall B, B <> A -> accountInfoCache settled.1 !! B = accountInfoCache later !! B)
       /\ calls settled.2 = [].
Proof.
  intros Hr Hin. cbn zeta.
  destruct (reachable_Inv s Hr) as [Hc _]. pose proof Hc as [].
  destruct (inv_inflight0 A p Hin) as [ks Hks].
  destruct (inv_waiters0 p A ks Hks) as (HA & Hne & Hfr).
  assert (Hi : initialized s = true).
  { rewrite inv_initialized0. destruct (provider s) eqn:Hp; [done|].
    destruct (inv_idle0 eq_refl) as [Ho _]. by rewrite Ho, lookup_empty in Hks. }
  assert (Hd : (step s DisconnectEvent).1 = autoConnectEffect s (onDisconnectEvent s).1).
  { unfold step, handle, listening. by rewrite rendered_state, Hi. }
  set (d := (step s DisconnectEvent).1) in *.
  assert (Hfacts : accountInfoCache d = ∅ /\ publicKey d = None /\ isConnected d = false
                   /\ accountInfoInFlight d = accountInfoInFlight s
                   /\ outstanding d = outstanding s /\ now d = now s).
  { rewrite Hd. autorewrite with effect_frame. by cbn. }
  destruct Hfacts as (Hcd & Hpd & Hid & Hfd & Hod & Hnd).
  split; [done|]. split; [done|]. split; [done|]. split; [by rewrite Hfd|].
  split.
  - intros ms data. cbn [run]. rewrite step_tick.
    set (s2 := with_now _ d).
    assert (Hout : outstanding s2 !! p = Some (PGetAccountInfo A, ks)).
    { unfold s2. cbn. by rewrite Hod. }
    destruct (step_settle_accountInfo s2 p A ks data Hout Hfr) as (Hcache & _ & Hpk & _).
    destruct (step s2 _) as [s3 o3]. cbn [fst snd] in *.
    rewrite Hcache, Hpk. unfold s2. cbn. rewrite Hcd, Hpd, Hnd.
    split; [apply lookup_insert_eq|]. split; [done|].
    intros B HB. by rewrite lookup_insert_ne, lookup_empty.
  - intros es data Hes.
    assert (Hrd : reachable d) by (unfold d; by apply reachable_step).
    assert (Hld : outstanding d !! p = Some (PGetAccountInfo A, ks)) by by rewrite Hod.
    destruct (run_keeps_promise es d p _ ks Hrd Hld Hes) as [ks' Hl'].
    pose proof (reachable_run d es Hrd) as Hr'.
    destruct (reachable_Inv _ Hr') as [Hc' _].
    destruct (inv_waiters _ Hc' _ _ _ Hl') as (_ & _ & Hfr').
    destruct (step_settle_accountInfo _ p A ks' data Hl' Hfr')
      as (Hcache & _ & Hpk & _ & Hcalls & _).
    split; [by rewrite Hl'|]. rewrite Hcache, Hpk, Hcalls.
    split; [apply lookup_insert_eq|]. split; [done|]. split; [|done].
    intros B HB. by rewrite lookup_insert_ne.
Qed.

(** After the disconnect the wallet connects with another account; then
    the request for the first account succeeds. *)
Definition otherAccountConnects : list Event :=
  [Tick 40; ConnectEvent "ban_3xyz" None; Tick 60].

Lemma disconnect_keeps_request_in_flight_witness :
  accountInfoCache (step inFlightState DisconnectEvent).1 = ∅
  /\ accountInfoCache
       (run (step inFlightState DisconnectEvent).1
          [Tick 40; Settle 1 (Fulfilled (VAccountInfo sampleInfo))]).1 !! "ban_1abc"
     = Some (now inFlightState + Z.of_N 40, sampleInfo)
  /\ publicKey (run (step inFlightState DisconnectEvent).1 otherAccountConnects).1
     = Some "ban_3xyz"
  /\ accountInfoCache
       (step (run (step inFlightState DisconnectEvent).1 otherAccountConnects).1
          (Settle 1 (Fulfilled (VAccountInfo sampleInfo)))).1 !! "ban_1abc"
     = Some (now (run (step inFlightState DisconnectEvent).1 otherAccountConnects).1,
             sampleInfo).
Proof.
  assert (Hr : reachable inFlightState)
    by apply reachable_run, reachable_run, reachable_mount.
  assert (Hin : accountInfoInFlight inFlightState !! "ban_1abc" = Some 1%nat)
    by (vm_compute; reflexivity).
  pose proof (disconnect_keeps_request_in_flight inFlightState "ban_1abc" 1 Hr Hin) as H.
  cbv zeta in H. destruct H as (H1 & _ & _ & _ & H2 & H3).
  split; [exact H1|]. split; [apply (H2 40%N sampleInfo)|].
  split; [vm_compute; reflexivity|].
  assert (Hes : Forall (fun e => settles 1 e = false) otherAccountConnects)
    by (repeat constructor).
  destruct (H3 otherAccountConnects sampleInfo Hes) as (_ & H4 & _).
  exact H4.
Defined.

(** C3, as the spec has it, fails: after the disconnect the late result is
    stored under the address of the account that is no longer active, and a
    later request for that address is answered from it, without a call of the
    handle. *)
Lemma late_result_is_cached_after_disconnect :
  accountInfoInFlight inFlightState !! "ban_1abc" = Some 1%nat
  /\ publicKey inFlightState = Some "ban_1abc"
  /\ ~ notRepopulated inFlightState "ban_1abc" 1 sampleInfo
  /\ (run inFlightState
        [DisconnectEvent; Settle 1 (Fulfilled (VAccountInfo sampleInfo));
         Tick 1000; Invoke (GetAccountInfo (Some "ban_1abc"))]).2
     = [OnDisconnect; Returned 0%nat (RetInfo (Some sampleInfo));
        Returned 2%nat (RetInfo (Some sampleInfo))].
Proof.
  split; [vm_compute; reflexivity|]. split; [vm_compute; reflexivity|].
  split; [|vm_compute; reflexivity].
  unfold notRepopulated. vm_compute. discriminate.
Qed.

(** *** Discovery of the handle *)

(** The timer of [setTimeout(tryInitialize, 500)] goes off at this event. *)
Definition fires (s : State) (e : Event) : bool :=
  match e, pollTimer s with
  | PollTimer _, Some due => due <=? now s
  | _, _ => false
  end.

(** How many times [tryInitialize] is run by its timer during [es]. *)
Fixpoint polls (s : State) (es : list Event) : nat :=
  match es with
  | [] => 0
  | e :: rest => (if fires s e then 1 else 0) + polls (step s e).1 rest
  end.

(** The handle is absent whenever the component looks for it. *)
Definition neverFound (es : list Event) : Prop :=
  Forall (fun e => e <> PollTimer true) es.

(** What the discovery reads and writes. *)
Definition discovery (s : State) :=
  (provider s, initialized s, isInstalled s, retryCount s, pollTimer s).

(** Without a handle, only the poll timer changes the discovery. *)
Lemma idle_step s e :
  Inv s -> provider s = None -> fires s e = false ->
  discovery (step s e).1 = discovery s.
Proof.
  intros [Hc Ht] Hp Hf. pose proof Hc as [].
  destruct (inv_idle0 Hp) as [Ho _].
  assert (Hi : initialized s = false) by (by rewrite inv_initialized0, Hp).
  assert (Hauto : autoConnectTimer s = None).
  { destruct (autoConnectTimer s) as [due|] eqn:Hd; [|done].
    destruct (Ht due Hd) as (_ & H & _). by rewrite Hp in H. }
  unfold step. rewrite rendered_state.
  assert (Heff : forall s', discovery (autoConnectEffect s s') = discovery s').
  { intros s'. unfold discovery. by autorewrite with effect_frame. }
  rewrite Heff. remember (discovery s) as d eqn:Hd.
  destruct e; cbn [handle]; unfold listening, onAutoConnectTimer, settle;
    rewrite ?Hi, ?Hauto, ?Ho, ?lookup_empty; try (subst d; reflexivity).
  - unfold fires in Hf. unfold onPollTimer.
    destruct (pollTimer s); [|by subst d]. rewrite Hf. by subst d.
  - unfold invoke.
    destruct a; cbn [start];
      unfold connect, disconnect, getAccounts, getBalance, sendTransaction, signMessage,
        verifySignedMessage, signBlock, sendBlock, resolveBNS, getAccountInfo;
      cbn [provider with_nextId]; rewrite Hp, ?andThen_state, ?notInstalled_run;
      subst d; reflexivity.
Qed.

(** The discovery after [n] timed polls that did not find the handle: the
    next poll is pending, or the third one has been made and none is. *)
Definition searching (n : nat) (s : State) : Prop :=
  provider s = None /\ isInstalled s = false
  /\ ((exists due, pollTimer s = Some due /\ retryCount s = S n /\ (n < 3)%nat)
      \/ (pollTimer s = None /\ n = 3%nat)).

Lemma searching_step n s e :
  Inv s -> searching n s -> e <> PollTimer true ->
  searching (n + (if fires s e then 1 else 0)) (step s e).1.
Proof.
  intros Hi (Hp & Hins & Hsearch) He.
  destruct (fires s e) eqn:Hf.
  - destruct e; try discriminate. destruct present; [done|].
    unfold fires in Hf. destruct Hsearch as [(due & Hd & Hr & Hn)|[Hd _]];
      [|by rewrite Hd in Hf].
    rewrite Hd in Hf.
    assert (Hinit : initialized s = false).
    { destruct Hi as [Hc _]. by rewrite (inv_initialized _ Hc), Hp. }
    unfold searching, step. rewrite rendered_state. autorewrite with effect_frame.
    cbn [handle]. unfold onPollTimer. rewrite Hd, Hf, andThen_state. cbn [update fst].
    rewrite tryInitialize_absent by done. cbn [retryCount with_pollTimer fst].
    rewrite Hr. unfold maxRetries.
    destruct (S n <? 3)%nat eqn:Hlt; cbn.
    + apply Nat.ltb_lt in Hlt. repeat split; try done. left. eexists. repeat split; lia.
    + apply Nat.ltb_ge in Hlt. repeat split; try done. right. split; [done|lia].
  - pose proof (idle_step s e Hi Hp Hf) as Hd. unfold discovery in Hd.
    injection Hd as H1 H2 H3 H4 H5.
    rewrite Nat.add_0_r. unfold searching. by rewrite H1, H3, H4, H5.
Qed.

Lemma Inv_run s es : Inv s -> Inv (run s es).1.
Proof.
  revert s. induction es as [|e es IH]; intros s Hs; cbn [run]; [done|].
  pose proof (IH _ (Inv_step s e Hs)) as H.
  destruct (step s e) as [s1 o1]. cbn [fst] in H. by destruct (run s1 es).
Qed.

Lemma run_cons_state s e es : (run s (e :: es)).1 = (run (step s e).1 es).1.
Proof. cbn [run]. destruct (step s e) as [s1 o1]. cbn [fst]. by destruct (run s1 es). Qed.

Lemma searching_run es : forall n s,
  Inv s -> searching n s -> neverFound es ->
  searching (n + polls s es) (run s es).1.
Proof.
  induction es as [|e es IH]; intros n s Hi Hs Hnf.
  - cbn. by rewrite Nat.add_0_r.
  - apply Forall_cons in Hnf as [He Hnf]. rewrite run_cons_state. cbn [polls].
    rewrite Nat.add_assoc. apply IH; [by apply Inv_step | by apply searching_step | done].
Qed.

(** Once the third poll has failed, nothing sets the timer again, whatever
    happens, even if the handle appears. *)
Lemma gave_up_forever es : forall s,
  Inv s -> searching 3 s ->
  searching 3 (run s es).1 /\ polls s es = 0%nat.
Proof.
  induction es as [|e es IH]; intros s Hi Hs; [done|].
  assert (Hf : fires s e = false).
  { destruct Hs as (_ & _ & [(due & _ & _ & ?)|[Hd _]]); [lia|].
    unfold fires. rewrite Hd. by destruct e. }
  assert (Hs' : searching 3 (step s e).1).
  { destruct Hs as (Hp & Hins & Hsearch).
    pose proof (idle_step s e Hi Hp Hf) as Hd. unfold discovery in Hd.
    injection Hd as H1 H2 H3 H4 H5. unfold searching. by rewrite H1, H3, H4, H5. }
  rewrite run_cons_state. cbn [polls]. rewrite Hf.
  destruct (IH _ (Inv_step s e Hi) Hs') as [H1 H2]. by rewrite H2.
Qed.

Lemma mount_absent auto time :
  discovery (mount auto false time)
  = (None, false, false, 1%nat, Some (time + POLL_INTERVAL_MS)).
Proof.
  unfold mount, discovery. rewrite rendered_state. autorewrite with effect_frame.
  reflexivity.
Qed.

(** C6.  The component looks for the handle when it mounts and, while it
    does not find it, again 500 ms after each look, three times at most.  If
    the handle is never there, [isInstalled] stays false; after the third
    timed poll no timer is pending, and from then on nothing that happens,
    not even the handle appearing, polls again or sets [isInstalled]. *)
Theorem discovery_gives_up_after_three_polls (auto : bool) (time : Z) (es : list Event) :
  neverFound es ->
  let s0 := mount auto false time in
  let s := (run s0 es).1 in
  pollTimer s0 = Some (time + POLL_INTERVAL_MS)
  /\ isInstalled s = false
  /\ (polls s0 es <= 3)%nat
  /\ (pollTimer s = None <-> polls s0 es = 3%nat)
  /\ (fires s (PollTimer false) = true ->
      pollTimer (step s (PollTimer false)).1
      = if (polls s0 es <? 2)%nat then Some (now s + POLL_INTERVAL_MS) else None)
  /\ (polls s0 es = 3%nat ->
      forall es', isInstalled (run s es').1 = false
                  /\ pollTimer (run s es').1 = None
                  /\ polls s es' = 0%nat).
Proof.
  intros Hnf. cbn zeta.
  set (s0 := mount auto false time). set (s := (run s0 es).1).
  assert (Hi0 : Inv s0) by apply Inv_mount.
  assert (Hi : Inv s) by by apply Inv_run.
  pose proof (mount_absent auto time) as Hm. fold s0 in Hm. unfold discovery in Hm.
  injection Hm as Hm1 Hm2 Hm3 Hm4 Hm5.
  assert (Hs0 : searching 0 s0).
  { unfold searching. split; [done|]. split; [done|]. left. eexists. repeat split; [done|done|lia]. }
  pose proof (searching_run es 0 s0 Hi0 Hs0 Hnf) as Hs. fold s in Hs. cbn [Nat.add] in Hs.
  destruct Hs as (Hp & Hins & Hsearch).
  split; [done|]. split; [done|].
  split; [destruct Hsearch as [(? & _ & _ & ?)|[_ ?]]; lia|].
  split; [destruct Hsearch as [(? & Hd & _ & ?)|[Hd ?]]; rewrite Hd; split; (done || lia)|].
  split.
  - unfold fires. destruct Hsearch as [(due & Hd & Hr & Hn)|[Hd _]]; rewrite Hd; [|done].
    intros Hf.
    assert (Hinit : initialized s = false).
    { destruct Hi as [Hc _]. by rewrite (inv_initialized _ Hc), Hp. }
    unfold step. rewrite rendered_state, effect_pollTimer. cbn [handle].
    unfold onPollTimer. rewrite Hd, Hf, andThen_state. cbn [update fst].
    rewrite tryInitialize_absent by done. cbn [retryCount with_pollTimer fst now].
    rewrite Hr. unfold maxRetries. change (S (polls s0 es) <? 3)%nat with (polls s0 es <? 2)%nat.
    by destruct (polls s0 es <? 2)%nat.
  - intros H3 es'.
    assert (Hs3 : searching 3 s).
    { unfold searching. rewrite H3 in Hsearch. done. }
    destruct (gave_up_forever es' s Hi Hs3) as [(Hp' & Hins' & Hsearch') Hpolls].
    repeat split; try done.
    destruct Hsearch' as [(? & _ & _ & ?)|[? _]]; [lia|done].
Qed.

Definition threeFailedPolls : list Event :=
  [Tick 500; PollTimer false; Tick 500; PollTimer false; Tick 500; PollTimer false].

Lemma discovery_gives_up_after_three_polls_witness :
  isInstalled (run (mount true false 0) threeFailedPolls).1 = false
  /\ (polls (mount true false 0) threeFailedPolls <= 3)%nat
  /\ forall es',
       isInstalled (run (run (mount true false 0) threeFailedPolls).1 es').1 = false
       /\ pollTimer (run (run (mount true false 0) threeFailedPolls).1 es').1 = None
       /\ polls (run (mount true false 0) threeFailedPolls).1 es' = 0%nat.
Proof.
  assert (Hnf : neverFound threeFailedPolls) by (repeat constructor; discriminate).
  pose proof (discovery_gives_up_after_three_polls true 0 threeFailedPolls Hnf) as H.
  cbv zeta in H. destruct H as (_ & H2 & H3 & _ & _ & H6).
  assert (Hp : polls (mount true false 0) threeFailedPolls = 3%nat) by (vm_compute; reflexivity).
  split; [exact H2|]. split; [exact H3|]. exact (H6 Hp).
Defined.

(** The four looks of a session without the extension: at the mount and
    500, 1000 and 1500 ms later; the handle appearing afterwards changes
    nothing. *)
Example discovery_schedule :
  pollTimer (mount true false 0) = Some 500
  /\ pollTimer (run (mount true false 0) [Tick 500; PollTimer false]).1 = Some 1000
  /\ pollTimer (run (mount true false 0)
                  [Tick 500; PollTimer false; Tick 500; PollTimer false]).1 = Some 1500
  /\ pollTimer (run (mount true false 0) threeFailedPolls).1 = None
  /\ isInstalled (run (mount true false 0) (threeFailedPolls ++ [Tick 500; PollTimer true])).1
     = false.
Proof. vm_compute. repeat split; reflexivity. Qed.

(** The fourth look can still find a handle that appears late. *)
Example discovery_fourth_look_finds :
  isInstalled (run (mount true false 0)
                 [Tick 500; PollTimer false; Tick 500; PollTimer false; Tick 500;
                  PollTimer true]).1 = true.
Proof. vm_compute. reflexivity. Qed.

(** *** The model on small inputs *)

Example toHex_pads : toHex [Byte.x00; Byte.x0f; Byte.xa5; Byte.xff] = "000fa5ff".
Proof. reflexivity. Qed.

Example classify_rejected :
  classify "User rejected the request" = "Transaction was rejected by user.".
Proof. reflexivity. Qed.

Example classify_locked :
  classify "Please unlock your wallet"
  = "Wallet is locked. The extension will prompt you to unlock for this transaction.".
Proof. reflexivity. Qed.

Example classify_lost :
  classify "Extension context invalidated." = "Extension connection lost. Please refresh the page.".
Proof. reflexivity. Qed.

Example looksLikeBNS_examples :
  looksLikeBNS "alice.ban" = true /\ looksLikeBNS "bob.banano" = true
  /\ looksLikeBNS "ban_1abc" = false.
Proof. repeat split; reflexivity. Qed.

(** Without a disconnect by the user, the timer of the auto-connect effect
    goes off 800 ms after the handle was found and asks for a silent connect
    if the wallet has not connected by itself. *)
Example auto_connect_runs :
  (run (mount true true 0) [Tick 800; AutoConnectTimer false]).2
  = [Called 0%nat (PConnect true)]
  /\ (run (mount true true 0) [Tick 800; AutoConnectTimer true]).2 = []
  /\ (run (mount true true 0) [Tick 799; AutoConnectTimer false]).2 = []
  /\ (run (mount false true 0) [Tick 800; AutoConnectTimer false]).2 = [].
Proof. vm_compute. repeat split; reflexivity. Qed.

(** A connect by the user after a disconnect by the user resets the flag and
    lets the auto-connect effect run again. *)
Example connect_after_disconnect :
  let s := (run (mount true true 0) [Invoke Disconnect; Invoke Connect]).1 in
  userDisconnected s = false /\ autoConnectTimer s = Some 800
  /\ (run (mount true true 0) [Invoke Disconnect; Invoke Connect]).2
     = [Called 1%nat PDisconnect; Called 3%nat (PConnect false)].
Proof. vm_compute. repeat split; reflexivity. Qed.

(** [getBalance] and [getAccountInfo] for the same address share one call of
    the handle.  The caller of [getBalance] came first but gets its value
    after the caller of [getAccountInfo]: it waits for one promise more. *)
Example getBalance_shares_request :
  (run connectedState
     [Invoke (GetBalance None); Invoke (GetAccountInfo (Some "ban_1abc"));
      Settle 1 (Fulfilled (VAccountInfo sampleInfo)); Invoke (GetBalance None)]).2
  = [Called 1%nat (PGetAccountInfo "ban_1abc");
     Returned 2%nat (RetInfo (Some sampleInfo));
     Returned 0%nat (RetString (Some "19"));
     Returned 3%nat (RetString (Some "19"))].
Proof. vm_compute. reflexivity. Qed.

(** A rejected request reaches every caller as null, each through its own
    [catch], and leaves the registry so that a later call asks again. *)
Example rejected_request :
  (run inFlightState
     [Invoke (GetAccountInfo (Some "ban_1abc")); Settle 1 (Rejected (ErrorObj "Network error"));
      Invoke (GetAccountInfo (Some "ban_1abc"))]).2
  = [OnError "Network error"; Returned 0%nat (RetInfo None);
     OnError "Network error"; Returned 2%nat (RetInfo None);
     Called 4%nat (PGetAccountInfo "ban_1abc")].
Proof. vm_compute. reflexivity. Qed.

End BridgeFacts.

(** ** More on the signature-verification route *)

Module RouteMore.
Import Route RouteFacts.

(** The domain-separated text that is verified, line 32, for an origin
    that has the string form [originText]. *)
Definition messageToVerify (originText message : string) : string :=
  "MonkeyMask Signed Message:" +:+ LF +:+ "Origin: " +:+ originText
    +:+ LF +:+ "Message: " +:+ message.

(** One of the three required members of the body is falsy: absent, [null],
    [false], [0] or the empty string. *)
Definition lacksParameter (b : Json) : Prop :=
  truthy (get "message" b) = false
  \/ truthy (get "signature" b) = false
  \/ truthy (get "publicKey" b) = false.

Section Handler.

Variable getAccountPublicKey : string -> Settled string.
Variable verifyMessage : string -> string -> string -> Settled bool.
Variable toString : Json -> Settled string.

Abbreviation POST := (POST getAccountPublicKey verifyMessage toString).

(** X1.  The handler answers [valid: true] only after the origin has been
    put into the domain-separated text and the library has accepted the
    signature over that text, under the key of the request (converted from
    the address form when it starts with [ban_]); the answer then has status
    200 and the time stamp, and no error. *)
Theorem POST_valid_is_verified body originHeader time :
  valid (payload (POST body originHeader time)) = true ->
  exists o m sg k hexPublicKey originText,
    progress body originHeader = Reached o m sg k
    /\ interpolate toString o = Fulfilled originText
    /\ (if startsWith k "ban_" then getAccountPublicKey k = Fulfilled hexPublicKey
        else hexPublicKey = k)
    /\ verifyMessage hexPublicKey (messageToVerify originText m) sg = Fulfilled true
    /\ POST body originHeader time
       = json {| valid := true; message := Some "Signature verified successfully";
                 verifiedAt := Some time; error := None |}.
Proof.
  unfold Route.POST. destruct (progress body originHeader) as [| |o m sg k] eqn:Hp;
    try discriminate.
  unfold verificationStep, verification.
  destruct (interpolate toString o) as [originText|originError] eqn:Ho; [|discriminate].
  fold (messageToVerify originText m).
  intros H. exists o, m, sg, k.
  destruct (startsWith k "ban_").
  - destruct (getAccountPublicKey k) as [hexKey|e]; [|discriminate].
    exists hexKey, originText.
    destruct (verifyMessage hexKey _ sg) as [[]|]; try discriminate.
    auto 10.
  - exists k, originText. destruct (verifyMessage k _ sg) as [[]|]; try discriminate.
    auto 10.
Qed.

(** X2.  A request whose body lacks a required parameter is answered with
    status 400, whatever else it holds, and is the only way to a 400. *)
Theorem POST_missing_parameter body originHeader time :
  status (POST body originHeader time) = 400
  <-> exists b, body = Some b /\ b <> JNull /\ lacksParameter b.
Proof.
  unfold Route.POST, lacksParameter. split.
  - destruct (progress body originHeader) as [| |o m sg k] eqn:Hp; try discriminate.
    + intros _. unfold progress in Hp. destruct body as [b|]; [|discriminate].
      exists b. assert (Hb : b <> JNull) by (intros ->; discriminate).
      split; [done|]. split; [done|].
      destruct (truthy (get "message" b)); [|auto].
      destruct (truthy (get "signature" b)); [|auto].
      destruct (truthy (get "publicKey" b)); [|auto].
      exfalso. cbn [negb orb] in Hp.
      destruct b; try done;
        repeat (match type of Hp with context [match ?x with _ => _ end] => destruct x end);
        discriminate.
    + unfold verificationStep. destruct (verification _ _ _ o m sg k time) as [r|e] eqn:E;
        [|discriminate].
      unfold verification in E.
      destruct (interpolate toString o); [|discriminate].
      destruct (startsWith k "ban_"); [destruct (getAccountPublicKey k); [|discriminate]|];
        destruct (verifyMessage _ _ _); try discriminate; injection E as <-; discriminate.
  - intros (b & -> & Hb & Hl).
    assert (Hm : negb (truthy (get "message" b)) || negb (truthy (get "signature" b))
                 || negb (truthy (get "publicKey" b)) = true).
    { destruct Hl as [-> | [-> | ->]]; cbn; rewrite ?orb_true_r; reflexivity. }
    unfold progress. destruct b; try done; cbn zeta; rewrite Hm; reflexivity.
Qed.

(** X3.  An address that the library cannot convert is answered with status
    200 and [valid: false], and the verification function is not reached.
    When the origin has a string form the error is the fixed text "Invalid
    Banano address format": what the conversion threw is dropped.  When the
    origin has none, the template literal of line 32 has thrown before the
    conversion was tried, and the error is the text of that failure. *)
Theorem POST_invalid_address body originHeader time o m sg k e :
  progress body originHeader = Reached o m sg k ->
  startsWith k "ban_" = true ->
  getAccountPublicKey k = Rejected e ->
  POST body originHeader time
  = json {| valid := false; message := Some "Signature verification failed";
            verifiedAt := None;
            error := Some match interpolate toString o with
                          | Fulfilled _ => "Invalid Banano address format"
                          | Rejected originError => verifyErrorText originError
                          end |}.
Proof.
  intros Hp Hb Hc. unfold Route.POST. rewrite Hp.
  unfold verificationStep, verification.
  destruct (interpolate toString o); [|reflexivity].
  rewrite Hb, Hc. reflexivity.
Qed.

(** X4.  When the body carries a truthy [origin], the [Origin] header of the
    request plays no part in the answer. *)
Theorem POST_body_origin_wins b header1 header2 time :
  truthy (get "origin" b) = true ->
  POST (Some b) header1 time = POST (Some b) header2 time.
Proof.
  intros Ho. unfold Route.POST.
  assert (Hp : progress (Some b) header1 = progress (Some b) header2).
  { unfold progress. destruct b; try reflexivity; cbn zeta; rewrite Ho; reflexivity. }
  by rewrite Hp.
Qed.

End Handler.

(** X5.  A key that is not in the address form goes to the verification as it
    is: the conversion function is not consulted. *)
Theorem POST_hex_key_unconverted (convert1 convert2 : string -> Settled string)
    verifyMessage toString b originHeader time k :
  get "publicKey" b = Some (JStr k) ->
  startsWith k "ban_" = false ->
  Route.POST convert1 verifyMessage toString (Some b) originHeader time
  = Route.POST convert2 verifyMessage toString (Some b) originHeader time.
Proof.
  intros Hk Hb. unfold Route.POST.
  destruct (progress (Some b) originHeader) as [| |o m sg k'] eqn:Hp; try reflexivity.
  destruct (progress_reached _ _ _ _ _ _ Hp) as (b' & [= <-] & _ & _ & _ & _ & Hk' & _).
  rewrite Hk in Hk'. injection Hk' as ->.
  unfold verificationStep, verification. by rewrite Hb.
Qed.

(** A library that accepts every signature and converts every address. *)
Definition acceptingVerify (_ _ _ : string) : Settled bool := Fulfilled true.
Definition convertAll (_ : string) : Settled string := Fulfilled "00ff".

Definition addressBody : Json :=
  JObj [("message", JStr "hello"); ("signature", JStr "zz");
        ("publicKey", JStr "ban_1abc"); ("origin", JStr "https://app.example")].

Lemma POST_valid_is_verified_witness :
  exists o m sg k hexPublicKey originText,
    progress (Some addressBody) None = Reached o m sg k
    /\ interpolate plainToString o = Fulfilled originText
    /\ (if startsWith k "ban_" then convertAll k = Fulfilled hexPublicKey
        else hexPublicKey = k)
    /\ acceptingVerify hexPublicKey (messageToVerify originText m) sg = Fulfilled true
    /\ Route.POST convertAll acceptingVerify plainToString (Some addressBody) None "t"
       = json {| valid := true; message := Some "Signature verified successfully";
                 verifiedAt := Some "t"; error := None |}.
Proof.
  apply (POST_valid_is_verified convertAll acceptingVerify plainToString
           (Some addressBody) None "t").
  reflexivity.
Defined.

Lemma POST_missing_parameter_witness :
  status (Route.POST noConversion throwingVerify plainToString
            (Some (JObj [("message", JStr ""); ("signature", JStr "zz");
                         ("publicKey", JStr "00ff")])) None "t") = 400.
Proof.
  apply (POST_missing_parameter noConversion throwingVerify plainToString).
  eexists. split; [reflexivity|]. split; [discriminate|]. left. reflexivity.
Defined.

(** A conversion to string that fails as the one of JavaScript does on an
    object with a member named [toString]. *)
Definition strictToString (v : Json) : Settled string :=
  match v with
  | JObj fields =>
      match lookup_field "toString" fields with
      | Some _ => Rejected (ErrorObj "Cannot convert object to primitive value")
      | None => Fulfilled "[object Object]"
      end
  | _ => Fulfilled "[object Object]"
  end.

Definition oddOriginBody : Json :=
  JObj [("message", JStr "hello"); ("signature", JStr "zz");
        ("publicKey", JStr "ban_1abc"); ("origin", JObj [("toString", JNum 1)])].

Lemma POST_invalid_address_witness :
  Route.POST noConversion acceptingVerify strictToString (Some addressBody) None "t"
  = json {| valid := false; message := Some "Signature verification failed";
            verifiedAt := None; error := Some "Invalid Banano address format" |}
  /\ Route.POST noConversion acceptingVerify strictToString (Some oddOriginBody) None "t"
     = json {| valid := false; message := Some "Signature verification failed";
               verifiedAt := None;
               error := Some "Cannot convert object to primitive value" |}.
Proof.
  split.
  - apply (POST_invalid_address noConversion acceptingVerify strictToString
             (Some addressBody) None "t" (JStr "https://app.example") "hello" "zz" "ban_1abc"
             NonError); reflexivity.
  - apply (POST_invalid_address noConversion acceptingVerify strictToString
             (Some oddOriginBody) None "t" (JObj [("toString", JNum 1)]) "hello" "zz" "ban_1abc"
             NonError); reflexivity.
Defined.

Lemma POST_body_origin_wins_witness :
  Route.POST convertAll acceptingVerify plainToString (Some addressBody)
    (Some "https://other.example") "t"
  = Route.POST convertAll acceptingVerify plainToString (Some addressBody) None "t".
Proof.
  apply (POST_body_origin_wins convertAll acceptingVerify plainToString addressBody).
  reflexivity.
Defined.

Lemma POST_hex_key_unconverted_witness :
  Route.POST noConversion acceptingVerify plainToString (Some sampleBody) None "t"
  = Route.POST convertAll acceptingVerify plainToString (Some sampleBody) None "t".
Proof.
  apply (POST_hex_key_unconverted noConversion convertAll acceptingVerify plainToString
           sampleBody None "t" "00ff"); reflexivity.
Defined.

(** The text that is verified for a request from the page at
    [https://app.example]. *)
Example messageToVerify_example :
  messageToVerify "https://app.example" "hello"
  = "MonkeyMask Signed Message:" +:+ LF +:+ "Origin: https://app.example" +:+ LF
    +:+ "Message: hello".
Proof. reflexivity. Qed.

End RouteMore.

(** ** More on the provider bridge *)

Module BridgeMore.
Import Bridge BridgeFacts.

#[local] Hint Rewrite effect_error effect_userDisconnected effect_provider effect_autoConnect
  effect_isInstalled effect_isConnected effect_isConnecting effect_publicKey effect_accounts
  effect_cache effect_inflight effect_initialized effect_retryCount effect_pollTimer effect_now
  effect_nextId effect_outstanding : effect_frame.

#[local] Hint Resolve Quiet_andThen Quiet_skip Quiet_emit Quiet_ret Quiet_setIsConnected
  Quiet_setIsConnecting Quiet_setPublicKey Quiet_setAccounts Quiet_setError Quiet_clearError
  Quiet_setUserDisconnected Quiet_handleError Quiet_call_other : quiet.
#[local] Hint Extern 1 (otherReq _) => exact I : quiet.

(** *** What [handleError] touches *)

(** The raw message tells that the extension is gone. *)
Definition capabilityLost (m : string) : bool :=
  includes m "Extension context invalidated" || includes m "context invalidated"
  || includes m "message port closed".

(** Lines 70-93 at a glance: the stored text is the classified one,
    [onError] gets the raw one, and only a lost extension changes the
    connection. *)
Lemma handleError_run err defaultMessage s :
  let m := errorMessageOf err defaultMessage in
  let s' := (handleError err defaultMessage s).1 in
  (handleError err defaultMessage s).2 = [OnError m]
  /\ error s' = Some (classify m)
  /\ (if capabilityLost m
      then isConnected s' = false /\ publicKey s' = None /\ accounts s' = []
      else isConnected s' = isConnected s /\ publicKey s' = publicKey s
           /\ accounts s' = accounts s)
  /\ refs s' = refs s /\ userDisconnected s' = userDisconnected s
  /\ isConnecting s' = isConnecting s.
Proof.
  cbn zeta. split; [apply handleError_out|]. split; [apply handleError_error|].
  split; [|split; [apply handleError_refs|]];
    unfold capabilityLost, handleError; rewrite andThen_state;
    repeat match goal with |- context [if ?c then _ else _] => destruct c end;
    cbn; auto.
Qed.

(** *** [includes] finds substrings *)

Lemma append_String x (a b : string) : String x a +:+ b = String x (a +:+ b).
Proof. reflexivity. Qed.

Lemma append_empty (b : string) : "" +:+ b = b.
Proof. reflexivity. Qed.

Lemma append_assoc (a b c : string) : (a +:+ b) +:+ c = a +:+ (b +:+ c).
Proof.
  induction a as [|x a IH]; [done|]. by rewrite !append_String, IH.
Qed.

Lemma prefix_spec (a s : string) :
  String.prefix a s = true <-> exists post, s = a +:+ post.
Proof.
  revert a. induction s as [|y s IH]; intros [|x a]; cbn [String.prefix].
  - split; [by exists "" | done].
  - split; [done | intros [post H]; by rewrite append_String in H].
  - split; [by eexists | done].
  - destruct (Ascii.ascii_dec x y) as [->|Hne].
    + rewrite IH. split; intros [post H]; exists post; rewrite append_String in *; congruence.
    + split; [done | intros [post H]; rewrite append_String in H; congruence].
Qed.

(** [s.includes(v)] holds exactly when [v] occurs somewhere in [s]. *)
Lemma includes_spec (s v : string) :
  includes s v = true <-> exists pre post, s = pre +:+ v +:+ post.
Proof.
  induction s as [|y s IH]; cbn [includes]; rewrite orb_true_iff, prefix_spec.
  - split.
    + intros [[post H]|?]; [|done]. by exists "", post.
    + intros ([|? ?] & post & H); [|by rewrite append_String in H].
      left. by exists post.
  - rewrite IH. split.
    + intros [[post H]|(pre & post & H)].
      * by exists "", post.
      * exists (String y pre), post. by rewrite append_String, H.
    + intros ([|x pre] & post & H).
      * left. by exists post.
      * right. rewrite append_String in H. injection H as -> H. by exists pre, post.
Qed.

Lemma includes_trans (s u v : string) :
  includes s u = true -> includes u v = true -> includes s v = true.
Proof.
  rewrite !includes_spec. intros (p1 & q1 & ->) (p2 & q2 & ->).
  exists (p1 +:+ p2), (q2 +:+ q1). by rewrite !append_assoc.
Qed.

(** The first test of each group in [handleError] is covered by a later
    one of the same group. *)
Lemma includes_longer (m long short : string) :
  includes long short = true -> includes m long = true -> includes m short = true.
Proof. intros H1 H2. by eapply includes_trans. Qed.

(** X6.  The class of a message depends on five substrings only: "context
    invalidated" or "message port closed" (the extension is gone), else
    "locked" or "unlock" (the wallet is locked), else "rejected" (the user
    said no); any other message is stored as it is. *)
Theorem classify_by_substrings (m : string) :
  classify m
  = if includes m "context invalidated" || includes m "message port closed"
    then "Extension connection lost. Please refresh the page."
    else if includes m "locked" || includes m "unlock"
    then "Wallet is locked. The extension will prompt you to unlock for this transaction."
    else if includes m "rejected"
    then "Transaction was rejected by user."
    else m.
Proof.
  unfold classify.
  pose proof (includes_longer m "Extension context invalidated" "context invalidated" eq_refl).
  pose proof (includes_longer m "Wallet is locked" "locked" eq_refl).
  pose proof (includes_longer m "User rejected" "rejected" eq_refl).
  destruct (includes m "Extension context invalidated"),
    (includes m "context invalidated"), (includes m "message port closed"),
    (includes m "Wallet is locked"), (includes m "locked"), (includes m "unlock"),
    (includes m "User rejected"), (includes m "rejected");
    cbn; try reflexivity; exfalso; auto using diff_false_true.
Qed.

(** *** The hex form of a signature *)

(** Two hex digits per byte, as [signMessage] writes them. *)
Definition hexByte (b : Byte.byte) : string := padStart2 (toString16 (Byte.to_N b)).

Definition hexValue (c : Ascii.ascii) : option N :=
  let n := Ascii.N_of_ascii c in
  (if (48 <=? n) && (n <=? 57) then Some (n - 48)
   else if (97 <=? n) && (n <=? 102) then Some (n - 87)
   else None)%N.

Definition byteOfHex (c1 c2 : Ascii.ascii) : option Byte.byte :=
  match hexValue c1, hexValue c2 with
  | Some hi, Some lo => Byte.of_N (16 * hi + lo)
  | _, _ => None
  end.

(** Reading a hex string back, two lower-case digits at a time. *)
Fixpoint fromHex (h : string) : option (list Byte.byte) :=
  match h with
  | EmptyString => Some []
  | String c1 (String c2 rest) =>
      match byteOfHex c1 c2, fromHex rest with
      | Some b, Some bs => Some (b :: bs)
      | _, _ => None
      end
  | String _ EmptyString => None
  end.

Lemma hexByte_digits b :
  exists c1 c2, hexByte b = String c1 (String c2 EmptyString) /\ byteOfHex c1 c2 = Some b.
Proof. destruct b; do 2 eexists; split; reflexivity. Qed.

Lemma toHex_cons b bs : toHex (b :: bs) = hexByte b +:+ toHex bs.
Proof. reflexivity. Qed.

Lemma fromHex_toHex (bytes : list Byte.byte) :
  fromHex (toHex bytes) = Some bytes
  /\ String.length (toHex bytes) = (2 * length bytes)%nat.
Proof.
  induction bytes as [|b bs [IH1 IH2]]; [done|].
  rewrite toHex_cons. destruct (hexByte_digits b) as (c1 & c2 & -> & Hb).
  rewrite !append_String, append_empty. cbn [fromHex String.length length].
  rewrite Hb, IH1, IH2. split; [done | lia].
Qed.

(** X7.  The hex string that [signMessage] builds has two digits for every byte
    of the signature, gives the bytes back when it is read, and so differs
    for different signatures. *)
Theorem toHex_round_trip (bytes : list Byte.byte) :
  fromHex (toHex bytes) = Some bytes
  /\ String.length (toHex bytes) = (2 * length bytes)%nat
  /\ forall other, toHex other = toHex bytes -> other = bytes.
Proof.
  destruct (fromHex_toHex bytes) as [H1 H2]. split; [done|]. split; [done|].
  intros other H. destruct (fromHex_toHex other) as [Ho _]. rewrite H in Ho. congruence.
Qed.

(** *** A call of the handle is rejected *)

(** The invocation behind a waiting frame, what it returns when it fails,
    and the message of its [catch] for a rejection without one. *)
Definition callerOf (k : Frame) : option nat :=
  match k with
  | KConnect c | KDisconnect c | KGetAccounts c | KGetAccountInfo c | KGetBalance c
  | KSendResolve c _ _ _ | KSendTransaction c | KSignMessage c | KVerifySignedMessage c
  | KSignBlock c | KSendBlock c | KResolveBNS c _ => Some c
  | KSilent => None
  end.

Definition emptyOf (k : Frame) : Result :=
  match k with
  | KConnect _ | KDisconnect _ | KSilent => RetVoid
  | KGetAccounts _ => RetAccounts []
  | KGetAccountInfo _ => RetInfo None
  | KVerifySignedMessage _ => RetBool None
  | KSignBlock _ => RetSignBlock None
  | KGetBalance _ | KSendResolve _ _ _ _ | KSendTransaction _ | KSignMessage _
  | KSendBlock _ | KResolveBNS _ _ => RetString None
  end.

Definition defaultOf (k : Frame) : string :=
  match k with
  | KConnect _ => "Failed to connect to MonkeyMask"
  | KDisconnect _ => "Failed to disconnect"
  | KGetAccounts _ => "Failed to get accounts"
  | KGetAccountInfo _ | KGetBalance _ => "Failed to get account info"
  | KSendResolve _ _ to _ => "Failed to resolve BNS name: " +:+ to
  | KSendTransaction _ => "Failed to send transaction"
  | KSignMessage _ => "Failed to sign message"
  | KVerifySignedMessage _ => "Failed to verify signed message"
  | KSignBlock _ => "Failed to sign block"
  | KSendBlock _ => "Failed to send block"
  | KResolveBNS _ bnsName => "Failed to resolve BNS name: " +:+ bnsName
  | KSilent => ""
  end.

Lemma resume_rejected k e s c :
  callerOf k = Some c ->
  let m := errorMessageOf e (defaultOf k) in
  let s' := (resumeAll [k] (Rejected e) s).1 in
  (resumeAll [k] (Rejected e) s).2 = [OnError m; Returned c (emptyOf k)]
  /\ error s' = Some (classify m)
  /\ refs s' = refs s
  /\ userDisconnected s' = userDisconnected s
  /\ isConnecting s' = match k with KConnect _ => false | _ => isConnecting s end.
Proof.
  intros Hc. cbn zeta.
  destruct (handleError_run e (defaultOf k) s) as (Ho & He & _ & Hr & Hu & Hi).
  cbn zeta in *.
  rewrite resumeAll_one.
  destruct k; try discriminate; injection Hc as <-;
    cbn [resume resumeLater accountInfoSettled defaultOf emptyOf] in *;
    rewrite ?andThen_out, ?andThen_state, Ho;
    cbn [ret emit skip setIsConnecting update fst snd app];
    repeat split; try done;
    cbn; auto.
Qed.

(** X9.  When the handle rejects a call that one wrapper awaits, the wrapper
    reports the message once to [onError] (the message of the thrown error,
    or its own default when there is none), stores its classified form,
    returns its null or empty result without calling the handle again, and
    the promise is no longer outstanding.  [connect] also leaves the
    connecting state. *)
Theorem rejected_call_is_reported (s : State) (id : nat) (q : Req) (k : Frame) (c : nat)
    (e : Thrown) :
  outstanding s !! id = Some (q, [k]) ->
  callerOf k = Some c ->
  let m := errorMessageOf e (defaultOf k) in
  let settled := step s (Settle id (Rejected e)) in
  settled.2 = [OnError m; Returned c (emptyOf k)]
  /\ error settled.1 = Some (classify m)
  /\ outstanding settled.1 !! id = None
  /\ userDisconnected settled.1 = userDisconnected s
  /\ (forall c', k = KConnect c' -> isConnecting settled.1 = false).
Proof.
  intros Hout Hc. cbn zeta.
  rewrite (step_settle_out _ _ _ _ (Rejected e) Hout eq_refl),
    (step_settle_state _ _ _ _ (Rejected e) Hout eq_refl), reaction_out.
  autorewrite with effect_frame. cbn [app].
  set (s1 := (reaction q (Rejected e) (forget id s).1).1).
  destruct (resume_rejected k e s1 c Hc) as (Ho & He & Hr & Hu & Hi). cbn zeta in *.
  rewrite Ho, He, Hu, Hi.
  assert (Hs1 : outstanding s1 = delete id (outstanding s)
                /\ userDisconnected s1 = userDisconnected s).
  { unfold s1. destruct q; cbn; auto. }
  destruct Hs1 as [Ho1 Hu1].
  unfold refs in Hr. injection Hr as _ _ _ _ _ _ _ _ _ _ _ Hr.
  rewrite Hr, Ho1, Hu1, lookup_delete_eq.
  repeat split; try done. by intros c' ->.
Qed.

(** *** Wrappers called without an active account *)

(** The wrappers that sign or send for the active account; verification can
    name its key itself. *)
Definition needsAccount (a : Action) : bool :=
  match a with
  | SendTransaction _ _ | SignMessage _ _ | SignBlock _ | SendBlock _ => true
  | VerifySignedMessage _ _ publicKeyParam _ => negb (isSome (orElse publicKeyParam None))
  | _ => false
  end.

(** The queries about an account, asked without naming one. *)
Definition accountQuery (a : Action) : bool :=
  match a with
  | GetAccountInfo address | GetBalance address => negb (isSome (orElse address None))
  | _ => false
  end.

Ltac run_invoke' :=
  unfold step, handle, invoke, start, connect, disconnect, getAccounts, getAccountInfo,
    getBalance, sendTransaction, signMessage, verifySignedMessage, signBlock, sendBlock,
    resolveBNS;
  rewrite ?rendered_out, ?rendered_state;
  autorewrite with effect_frame;
  cbn [provider publicKey with_nextId].

(** X10.  With a handle but no active account, the wrappers that sign or send
    store and report "No account selected", call no method of the handle and
    return null; [getAccountInfo] and [getBalance] without an address return
    null as well, but silently: no error is stored or reported. *)
Theorem no_account_contract (a : Action) (s : State) :
  provider s <> None ->
  orElse (publicKey s) None = None ->
  let c := nextId s in
  (needsAccount a = true ->
   (step s (Invoke a)).2 = [OnError "No account selected"; Returned c (emptyResult a)]
   /\ error (step s (Invoke a)).1 = Some "No account selected")
  /\ (accountQuery a = true ->
      (step s (Invoke a)).2 = [Returned c (emptyResult a)]
      /\ error (step s (Invoke a)).1 = error s).
Proof.
  intros Hp Hk. cbn zeta. split; intros Ha.
  - destruct a; try discriminate; run_invoke'; destruct (provider s); try done;
      rewrite ?Hk; cbn [needsAccount] in Ha;
      try (destruct (orElse publicKeyParam None); [discriminate|]);
      rewrite andThen_out, andThen_state, noAccountSelected_run; split; reflexivity.
  - destruct a as [| | |addr|addr| | | | | |]; try discriminate;
      cbn [accountQuery] in Ha; run_invoke';
      destruct (provider s); try done;
      destruct addr as [[|x rest]|]; cbn in Ha; try discriminate;
      cbn [orElse nonempty]; rewrite Hk; split; reflexivity.
Qed.

(** *** [connect] *)

(** X11.  [connect] with a handle always asks the wallet, with
    [onlyIfTrusted: false], whatever the user-disconnected flag says, and
    resets the flag; the component is connecting from then until the
    promise settles, either way.  The fulfilment itself changes nothing
    else: the connection, the account and the stored error are left to the
    events of the handle. *)
Theorem connect_brackets_connecting (s : State) :
  provider s <> None ->
  let c := nextId s in
  let p := S (nextId s) in
  let started := step s (Invoke Connect) in
  started.2 = [Called p (PConnect false)]
  /\ isConnecting started.1 = true
  /\ userDisconnected started.1 = false
  /\ isConnected started.1 = isConnected s
  /\ outstanding started.1 !! p = Some (PConnect false, [KConnect c])
  /\ forall s2 r,
       outstanding s2 !! p = Some (PConnect false, [KConnect c]) ->
       answers (PConnect false) r = true ->
       let settled := step s2 (Settle p r) in
       isConnecting settled.1 = false
       /\ returns settled.2 = [(c, RetVoid)]
       /\ (forall v, r = Fulfilled v ->
           settled.2 = [Returned c RetVoid]
           /\ isConnected settled.1 = isConnected s2
           /\ publicKey settled.1 = publicKey s2
           /\ error settled.1 = error s2).
Proof.
  intros Hp. cbn zeta.
  assert (Hstart : step s (Invoke Connect)
                   = rendered (setIsConnecting true >> clearError
                               >> setUserDisconnected false
                               >> call (PConnect false) (KConnect (nextId s)))
                       (with_nextId (S (nextId s)) s)).
  { unfold step, handle, invoke, start, connect. unfold rendered at 1.
    cbn [provider with_nextId]. by destruct (provider s). }
  rewrite Hstart, rendered_out, rendered_state. autorewrite with effect_frame.
  split; [reflexivity|]. split; [reflexivity|]. split; [reflexivity|].
  split; [reflexivity|]. split; [cbn; apply lookup_insert_eq|].
  intros s2 r Hout Ha.
    rewrite (step_settle_out _ _ _ _ r Hout Ha), (step_settle_state _ _ _ _ r Hout Ha).
    autorewrite with effect_frame. rewrite !resumeAll_single by done. cbn [reaction].
    destruct r as [v|e].
    + cbn. repeat split; done.
    + cbn [resume]. rewrite !andThen_out, !andThen_state, handleError_out. cbn.
      repeat split; done.
Qed.

(** *** [getAccounts] *)

(** X12.  The list that the handle answers replaces the account list of the
    component and is returned; nothing else changes, the stored error
    included. *)
Theorem getAccounts_replaces_list (s : State) (id c : nat) (l : list string) :
  outstanding s !! id = Some (PGetAccounts, [KGetAccounts c]) ->
  let settled := step s (Settle id (Fulfilled (VAccounts l))) in
  settled.2 = [Returned c (RetAccounts l)]
  /\ accounts settled.1 = l
  /\ error settled.1 = error s
  /\ isConnected settled.1 = isConnected s
  /\ publicKey settled.1 = publicKey s.
Proof.
  intros Hout. cbn zeta.
  rewrite (step_settle_out _ _ _ _ (Fulfilled (VAccounts l)) Hout eq_refl),
    (step_settle_state _ _ _ _ (Fulfilled (VAccounts l)) Hout eq_refl).
  autorewrite with effect_frame. cbn. done.
Qed.

(** *** The sender of a transfer *)

(** X13.  The transfer that follows the lookup of a name is sent from the account
    that was active when [sendTransaction] was called, also when the wallet
    has switched to another account while the lookup was under way. *)
Theorem sender_is_fixed_at_call (s : State) (key to amt newKey resolved : string) :
  provider s <> None ->
  publicKey s = Some key -> key <> "" ->
  looksLikeBNS to = true ->
  resolved <> "" ->
  let p := S (nextId s) in
  let out :=
    (run s [Invoke (SendTransaction to amt); AccountChangedEvent newKey;
            Settle p (Fulfilled (VString resolved))]).2 in
  calls out = [PResolveBNS to; PSendTransaction key resolved amt].
Proof.
  intros Hp Hk Hne Hb Hr. cbn zeta. cbn [run].
  assert (Hstart : (step s (Invoke (SendTransaction to amt))).2
                   = [Called (S (nextId s)) (PResolveBNS to)]
                   /\ outstanding (step s (Invoke (SendTransaction to amt))).1
                        !! S (nextId s)
                      = Some (PResolveBNS to, [KSendResolve (nextId s) key to amt])).
  { run_invoke'. destruct (provider s); [|done].
    rewrite Hk, (orElse_address _ _ Hne), Hb. split; [reflexivity|].
    cbn. apply lookup_insert_eq. }
  destruct Hstart as [Ho1 Hout1].
  destruct (step s (Invoke (SendTransaction to amt))) as [s1 o1]. cbn [fst snd] in *.
  assert (Hev : outstanding (step s1 (AccountChangedEvent newKey)).1 = outstanding s1
                /\ calls (step s1 (AccountChangedEvent newKey)).2 = []).
  { unfold step, handle, listening. rewrite rendered_state, rendered_out, effect_outstanding.
    by destruct (initialized s1). }
  destruct Hev as [Hout2 Ho2].
  destruct (step s1 (AccountChangedEvent newKey)) as [s2 o2]. cbn [fst snd] in *.
  rewrite <- Hout2 in Hout1.
  pose proof (step_settle_out s2 _ _ _ (Fulfilled (VString resolved)) Hout1 eq_refl) as Ho3.
  rewrite resumeAll_single in Ho3 by done.
  destruct (step s2 _) as [s3 o3]. cbn [fst snd] in *.
  apply nonempty_true in Hr.
  rewrite !calls_app, Ho1, Ho2, Ho3. cbn. rewrite Hr. reflexivity.
Qed.

(** *** [getBalance] *)

(** What [getBalance] makes of what [getAccountInfo] would return. *)
Definition balanceView (e : Effect) : Effect :=
  match e with
  | Returned c (RetInfo info) => Returned c (RetString (balance <$> info))
  | _ => e
  end.

(** X14.  [getBalance] is [getAccountInfo] seen through the [balance] field: in
    every state and for every address the two make the same calls of the
    handle (at most [getAccountInfo], once), report the same errors, leave
    the same cache, registry and stored error, and [getBalance] returns the
    balance of what [getAccountInfo] returns. *)
Theorem getBalance_is_view_of_getAccountInfo (s : State) (addr : option string) :
  let viaBalance := step s (Invoke (GetBalance addr)) in
  let viaInfo := step s (Invoke (GetAccountInfo addr)) in
  viaBalance.2 = balanceView <$> viaInfo.2
  /\ accountInfoCache viaBalance.1 = accountInfoCache viaInfo.1
  /\ accountInfoInFlight viaBalance.1 = accountInfoInFlight viaInfo.1
  /\ error viaBalance.1 = error viaInfo.1
  /\ nextId viaBalance.1 = nextId viaInfo.1.
Proof.
  cbn zeta. unfold step, handle, invoke, start, getBalance.
  rewrite !rendered_out, !rendered_state. autorewrite with effect_frame.
  unfold getAccountInfo at 2 4 6 8 10. cbn [provider publicKey with_nextId].
  destruct (provider s) eqn:Hp.
  - destruct (orElse addr (orElse (publicKey s) None)) as [target|] eqn:Ht;
      [|by cbn].
    cbn [accountInfoCache accountInfoInFlight now with_nextId].
    destruct (freshData (accountInfoCache s !! target) (now s)) eqn:Hf; [by cbn|].
    unfold getAccountInfo. cbn [provider publicKey with_nextId accountInfoCache
                                 accountInfoInFlight now].
    rewrite Hp, (orElse_address target _ (orElse_nonempty _ _ _ Ht)), Hf.
    destruct (accountInfoInFlight s !! target); by cbn.
  - rewrite !andThen_out, !andThen_state, !notInstalled_run. by cbn.
Qed.

(** *** What the handlers leave alone *)

(** What no wrapper writes, before or after an [await]. *)
Definition fixed (s : State) :=
  (autoConnect s, provider s, isInstalled s, initialized s, retryCount s, pollTimer s,
   now s, accountInfoCache s).

Lemma handleError_fixed err d s : fixed (handleError err d s).1 = fixed s.
Proof.
  pose proof (handleError_refs err d s) as H. unfold refs in H. unfold fixed.
  injection H as -> -> -> -> _ -> -> -> _ -> _ _. reflexivity.
Qed.

Lemma start_fixed a c s : fixed (start a c s).1 = fixed s.
Proof.
  destruct a; cbn [start];
    unfold connect, disconnect, getAccounts, getBalance, sendTransaction, signMessage,
      verifySignedMessage, signBlock, sendBlock, resolveBNS, getAccountInfo;
    repeat (case_match; unfold getAccountInfo);
    rewrite ?andThen_state, ?notInstalled_run, ?noAccountSelected_run; reflexivity.
Qed.

Lemma andThen_assoc (a b c : Act) s : ((a >> b) >> c) s = (a >> (b >> c)) s.
Proof.
  unfold andThen. destruct (a s) as [s1 o1]. destruct (b s1) as [s2 o2].
  destruct (c s2) as [s3 o3]. by rewrite app_assoc.
Qed.

Lemma resume_fixed k r s :
  fixed (resume k r s).1 = fixed s
  /\ accountInfoInFlight (resume k r s).1 = accountInfoInFlight s
  /\ userDisconnected (resume k r s).1 = userDisconnected s.
Proof.
  assert (H : forall err d s0 (b : Act),
             (forall s1, fixed (b s1).1 = fixed s1
                         /\ accountInfoInFlight (b s1).1 = accountInfoInFlight s1
                         /\ userDisconnected (b s1).1 = userDisconnected s1) ->
             fixed ((handleError err d >> b) s0).1 = fixed s0
             /\ accountInfoInFlight ((handleError err d >> b) s0).1 = accountInfoInFlight s0
             /\ userDisconnected ((handleError err d >> b) s0).1 = userDisconnected s0).
  { intros err d s0 b Hb. rewrite andThen_state.
    destruct (Hb (handleError err d s0).1) as (-> & -> & ->).
    destruct (handleError_run err d s0) as (_ & _ & _ & Hr & Hu & _).
    cbn zeta in *. unfold refs in Hr. injection Hr as _ _ _ _ Hi _ _ _ _ _ _ _.
    by rewrite handleError_fixed, Hi, Hu. }
  destruct k; destruct r as [[]|]; cbn [resume accountInfoSettled];
    try (destruct (nonempty _));
    rewrite ?andThen_assoc;
    try (apply H; intros; by cbn);
    by cbn.
Qed.

Lemma resumeAll_fixed ks r s :
  fixed (resumeAll ks r s).1 = fixed s
  /\ accountInfoInFlight (resumeAll ks r s).1 = accountInfoInFlight s
  /\ userDisconnected (resumeAll ks r s).1 = userDisconnected s.
Proof.
  unfold resumeAll. rewrite andThen_state.
  destruct (resumeLaterEach_run ks r (resumeEach ks r s).1) as [-> _].
  revert s. induction ks as [|k ks IH]; intros s; [done|].
  cbn [resumeEach]. rewrite andThen_state.
  destruct (IH (resume k r s).1) as (-> & -> & ->). apply resume_fixed.
Qed.

Lemma start_flag a c s :
  userDisconnected (start a c s).1
  = match a with
    | Connect => if isSome (provider s) then false else userDisconnected s
    | Disconnect => if isSome (provider s) then true else userDisconnected s
    | _ => userDisconnected s
    end.
Proof.
  destruct a; cbn [start];
    unfold connect, disconnect, getAccounts, getBalance, sendTransaction, signMessage,
      verifySignedMessage, signBlock, sendBlock, resolveBNS, getAccountInfo;
    destruct (provider s) eqn:Hp; cbn [isSome];
    repeat (case_match; unfold getAccountInfo; rewrite ?Hp);
    rewrite ?andThen_state, ?notInstalled_run, ?noAccountSelected_run; reflexivity.
Qed.

Lemma tryInitialize_done present s :
  initialized s = true -> tryInitialize present s = (s, []).
Proof.
  intros H. unfold tryInitialize, initializeProvider, andThen. rewrite H. cbn [negb andb].
  by rewrite H.
Qed.

Lemma onPollTimer_frame present s :
  let s' := (onPollTimer present s).1 in
  autoConnect s' = autoConnect s /\ now s' = now s
  /\ accountInfoCache s' = accountInfoCache s
  /\ accountInfoInFlight s' = accountInfoInFlight s
  /\ outstanding s' = outstanding s /\ nextId s' = nextId s
  /\ userDisconnected s' = userDisconnected s
  /\ (onPollTimer present s).2 = [].
Proof.
  cbn zeta. unfold onPollTimer.
  destruct (pollTimer s); [destruct (_ <=? _)|]; try done.
  rewrite andThen_state, andThen_out. cbn [update fst snd app].
  set (s0 := with_pollTimer None s).
  destruct (initialized s0) eqn:Hi.
  - by rewrite tryInitialize_done.
  - destruct present.
    + by rewrite tryInitialize_found.
    + rewrite tryInitialize_absent by done.
      by destruct (retryCount s0 <? maxRetries)%nat.
Qed.

Lemma reaction_frame q r s :
  let s' := (reaction q r s).1 in
  autoConnect s' = autoConnect s /\ provider s' = provider s /\ now s' = now s
  /\ userDisconnected s' = userDisconnected s /\ outstanding s' = outstanding s.
Proof. destruct q; try done. cbn. by destruct r as [[]|]. Qed.

(** *** The user-disconnected flag *)

Lemma step_flag (s : State) (e : Event) :
  userDisconnected (step s e).1
  = match e with
    | Invoke Disconnect => if isSome (provider s) then true else userDisconnected s
    | Invoke Connect => if isSome (provider s) then false else userDisconnected s
    | ConnectEvent _ _ => if initialized s then false else userDisconnected s
    | _ => userDisconnected s
    end.
Proof.
  unfold step. rewrite rendered_state, effect_userDisconnected.
  destruct e; cbn [handle]; unfold listening.
  - reflexivity.
  - apply onPollTimer_frame.
  - unfold onAutoConnectTimer. destruct (autoConnectTimer s); [destruct (_ <=? _)|];
      try done. by destruct providerIsConnected.
  - by destruct (initialized s).
  - by destruct (initialized s).
  - by destruct (initialized s).
  - reflexivity.
  - unfold invoke. rewrite start_flag. by destruct a.
  - unfold settle. destruct (outstanding s !! id) as [[q ks]|]; [|done].
    destruct (answers q r); [|done]. rewrite !andThen_state.
    destruct (resumeAll_fixed ks r (reaction q r (forget id s).1).1) as (_ & _ & ->).
    by destruct (reaction_frame q r (forget id s).1) as (_ & _ & _ & -> & _).
Qed.

(** X15.  The flag is set by [disconnect] and by nothing else, and reset by
    [connect] and by the [connect] event and by nothing else.  A
    [disconnect] or [accountChanged] event, a timer, a failure of any call,
    [connect] included, and every other wrapper leave it as it is; so do
    [connect] and [disconnect] without a handle. *)
Theorem userDisconnected_changes (s : State) (e : Event) :
  userDisconnected (step s e).1
  = match e with
    | Invoke Disconnect => if isSome (provider s) then true else userDisconnected s
    | Invoke Connect => if isSome (provider s) then false else userDisconnected s
    | ConnectEvent _ _ => if initialized s then false else userDisconnected s
    | _ => userDisconnected s
    end.
Proof. exact (step_flag s e). Qed.

(** *** The clock and the configuration *)

Lemma step_now_autoConnect (s : State) (e : Event) :
  now (step s e).1 = match e with Tick ms => now s + Z.of_N ms | _ => now s end
  /\ autoConnect (step s e).1 = autoConnect s.
Proof.
  unfold step. rewrite rendered_state, effect_now, effect_autoConnect.
  assert (Hf : forall s1 s2, fixed s1 = fixed s2 -> now s1 = now s2
                                                   /\ autoConnect s1 = autoConnect s2).
  { unfold fixed. intros s1 s2 H. by injection H as -> _ _ _ _ _ -> _. }
  destruct e; cbn [handle]; unfold listening.
  - done.
  - destruct (onPollTimer_frame present s) as (-> & -> & _). done.
  - unfold onAutoConnectTimer. destruct (autoConnectTimer s); [destruct (_ <=? _)|];
      try done. by destruct providerIsConnected.
  - by destruct (initialized s).
  - by destruct (initialized s).
  - by destruct (initialized s).
  - done.
  - unfold invoke. by destruct (Hf _ _ (start_fixed a (nextId s) (with_nextId (S (nextId s)) s))) as [-> ->].
  - unfold settle. destruct (outstanding s !! id) as [[q ks]|]; [|done].
    destruct (answers q r); [|done]. rewrite !andThen_state.
    destruct (resumeAll_fixed ks r (reaction q r (forget id s).1).1) as (H & _ & _).
    destruct (Hf _ _ H) as [-> ->].
    by destruct (reaction_frame q r (forget id s).1) as (-> & _ & -> & _).
Qed.

(** *** Who writes the cache *)

Lemma step_cache (s : State) (e : Event) :
  accountInfoCache (step s e).1
  = match e with
    | ConnectEvent _ _ | DisconnectEvent | AccountChangedEvent _ =>
        if initialized s then ∅ else accountInfoCache s
    | Settle id (Fulfilled (VAccountInfo data)) =>
        match outstanding s !! id with
        | Some (PGetAccountInfo A, _) => <[A := (now s, data)]> (accountInfoCache s)
        | _ => accountInfoCache s
        end
    | _ => accountInfoCache s
    end.
Proof.
  unfold step. rewrite rendered_state, effect_cache.
  assert (Hf : forall s1 s2, fixed s1 = fixed s2 -> accountInfoCache s1 = accountInfoCache s2).
  { unfold fixed. intros s1 s2 H. by injection H. }
  destruct e; cbn [handle]; unfold listening.
  - done.
  - apply onPollTimer_frame.
  - unfold onAutoConnectTimer. destruct (autoConnectTimer s); [destruct (_ <=? _)|];
      try done. by destruct providerIsConnected.
  - by destruct (initialized s).
  - by destruct (initialized s).
  - by destruct (initialized s).
  - done.
  - unfold invoke. by rewrite (Hf _ _ (start_fixed a (nextId s) (with_nextId (S (nextId s)) s))).
  - unfold settle. destruct (outstanding s !! id) as [[q ks]|] eqn:Hout.
    + destruct (answers q r) eqn:Ha.
      * rewrite !andThen_state.
        destruct (resumeAll_fixed ks r (reaction q r (forget id s).1).1) as (H & _ & _).
        rewrite (Hf _ _ H).
        destruct q; destruct r as [[]|]; try discriminate; reflexivity.
      * destruct q; destruct r as [[]|]; try discriminate; reflexivity.
    + by destruct r as [[]|].
Qed.

(** X16.  The cache is emptied by the three events of the handle (once the
    component listens) and gets an entry when a promise of
    [provider.getAccountInfo] is fulfilled: the data under the address that
    was asked for, with the time of the settlement.  Nothing else changes
    it: no wrapper when it is called, no rejection, no timer. *)
Theorem cache_changes (s : State) (e : Event) :
  accountInfoCache (step s e).1
  = match e with
    | ConnectEvent _ _ | DisconnectEvent | AccountChangedEvent _ =>
        if initialized s then ∅ else accountInfoCache s
    | Settle id (Fulfilled (VAccountInfo data)) =>
        match outstanding s !! id with
        | Some (PGetAccountInfo A, _) => <[A := (now s, data)]> (accountInfoCache s)
        | _ => accountInfoCache s
        end
    | _ => accountInfoCache s
    end.
Proof. exact (step_cache s e). Qed.

Lemma mount_fresh auto present time :
  accountInfoCache (mount auto present time) = ∅
  /\ now (mount auto present time) = time
  /\ userDisconnected (mount auto present time) = false
  /\ autoConnect (mount auto present time) = auto.
Proof.
  unfold mount. rewrite rendered_state. autorewrite with effect_frame.
  destruct present; [rewrite tryInitialize_found | rewrite tryInitialize_absent]; done.
Qed.

(** Cached data are never stamped in the future. *)
Lemma cache_timely s :
  reachable s -> forall A ts data, accountInfoCache s !! A = Some (ts, data) -> ts <= now s.
Proof.
  induction 1 as [auto present time|s e Hr IH]; intros A ts data.
  - destruct (mount_fresh auto present time) as (-> & _). by rewrite lookup_empty.
  - rewrite step_cache. destruct (step_now_autoConnect s e) as [Hn _].
    assert (Hle : now s <= now (step s e).1) by (rewrite Hn; destruct e; lia).
    assert (Hold : accountInfoCache s !! A = Some (ts, data) -> ts <= now (step s e).1).
    { intros H. apply IH in H. lia. }
    destruct e as [| | | | | | | |id [[]|]]; try done;
      try (destruct (initialized s); [by rewrite lookup_empty | done]).
    destruct (outstanding s !! id) as [[[] ks]|]; try done.
    destruct (decide (account = A)) as [->|Hne].
    + rewrite lookup_insert_eq. intros [= <- _]. lia.
    + by rewrite lookup_insert_ne.
Qed.

(** X17.  What [getAccountInfo] returns at once, without waiting, is data from the
    cache that was captured at most 5000 ms ago, and not in the future. *)
Theorem cached_answer_is_recent (s : State) (addr : option string) (data : AccountInfo) :
  reachable s ->
  (step s (Invoke (GetAccountInfo addr))).2 = [Returned (nextId s) (RetInfo (Some data))] ->
  exists A ts,
    accountInfoCache s !! A = Some (ts, data)
    /\ ts <= now s < ts + ACCOUNT_INFO_TTL_MS.
Proof.
  intros Hr. unfold step, handle, invoke, start, getAccountInfo.
  rewrite rendered_out. cbn [provider publicKey with_nextId accountInfoCache
                              accountInfoInFlight now].
  destruct (provider s); [|rewrite andThen_out, notInstalled_run; discriminate].
  destruct (orElse addr (orElse (publicKey s) None)) as [A|]; [|discriminate].
  destruct (accountInfoCache s !! A) as [[ts d]|] eqn:Hc; cbn [freshData].
  - destruct (Z.ltb_spec (now s - ts) ACCOUNT_INFO_TTL_MS) as [Hlt|Hge].
    + intros [= <-]. exists A, ts. split; [done|].
      pose proof (cache_timely s Hr A ts d Hc). lia.
    + destruct (accountInfoInFlight s !! A); discriminate.
  - destruct (accountInfoInFlight s !! A); discriminate.
Qed.

(** *** One request per address *)

(** Every promise of [provider.getAccountInfo] that has not settled is the
    one registered for its address in [accountInfoInFlightRef]. *)
Definition tracked (s : State) : Prop :=
  forall p A ks, outstanding s !! p = Some (PGetAccountInfo A, ks) ->
    accountInfoInFlight s !! A = Some p.

Lemma tracked_same s s' :
  outstanding s' = outstanding s -> accountInfoInFlight s' = accountInfoInFlight s ->
  tracked s -> tracked s'.
Proof. unfold tracked. intros -> ->. done. Qed.

Lemma tracked_quiet s s' : Core s -> tracked s -> quiet s s' -> tracked s'.
Proof.
  intros Hc Ht Hq p A ks Hl. rewrite (q_inflight _ _ Hq).
  destruct (decide (p < nextId s)%nat) as [Hlt|Hge].
  - rewrite (q_old _ _ Hq) in Hl by done. eauto.
  - destruct (q_new _ _ Hq p _ ks ltac:(lia) Hl) as (_ & _ & H). by destruct (H A).
Qed.

Lemma tracked_getAccountInfo address k (done : option AccountInfo -> Act) s :
  Core s -> tracked s ->
  (forall r s', refs (done r s').1 = refs s') ->
  tracked (getAccountInfo address k done s).1.
Proof.
  intros Hc Ht Hdone.
  assert (Hrefs : forall s', refs s' = refs s -> tracked s').
  { intros s' H. unfold refs in H. injection H as _ _ _ _ Hi _ _ _ _ _ _ Ho.
    by eapply tracked_same. }
  unfold getAccountInfo. destruct (provider s) eqn:Hp.
  - destruct (orElse address (orElse (publicKey s) None)) as [target|]; [|by apply Hrefs].
    destruct (freshData _ _); [by apply Hrefs|].
    destruct (accountInfoInFlight s !! target) as [p0|] eqn:Hin.
    + intros p A ks. unfold await, update, addWaiter. cbn.
      intros Hl. apply lookup_alter_Some in Hl as [(_ & [q ks0] & Hl & Heq)|[_ Hl]]; [|eauto].
      cbn in Heq. injection Heq as <- _. eauto.
    + intros p A ks. unfold fetchAccountInfo, call, andThen, update. cbn.
      destruct (decide (p = nextId s)) as [->|Hne].
      * rewrite lookup_insert_eq. intros [= <- _]. by rewrite lookup_insert_eq.
      * rewrite lookup_insert_ne by done. intros Hl. pose proof (Ht _ _ _ Hl) as Hl'.
        rewrite lookup_insert_ne; [done|]. intros <-. congruence.
  - apply Hrefs. rewrite andThen_state, notInstalled_run. cbn [fst]. by rewrite Hdone.
Qed.

Lemma tracked_start a c s : Core s -> tracked s -> tracked (start a c s).1.
Proof.
  intros Hc Ht.
  assert (Hrefs : forall s', refs s' = refs s -> tracked s').
  { intros s' H. unfold refs in H. injection H as _ _ _ _ Hi _ _ _ _ _ _ Ho.
    by eapply tracked_same. }
  destruct a; cbn [start];
    try (apply tracked_getAccountInfo; [done | done | reflexivity]);
    unfold connect, disconnect, getAccounts, getBalance, sendTransaction, signMessage,
      verifySignedMessage, signBlock, sendBlock, resolveBNS;
    (destruct (provider s) eqn:Hp;
     [| apply Hrefs; rewrite ?andThen_state, ?notInstalled_run; reflexivity]);
    repeat case_match;
    try (apply tracked_getAccountInfo; [done | done | reflexivity]);
    try (apply Hrefs; rewrite ?andThen_state, ?noAccountSelected_run; reflexivity);
    (eapply tracked_quiet; [exact Hc | exact Ht |];
     apply Quiet_apply; [auto 10 with quiet | done | congruence]).
Qed.

Lemma tracked_settle id r s : Core s -> tracked s -> tracked (settle id r s).1.
Proof.
  intros Hc Ht. unfold settle.
  destruct (outstanding s !! id) as [[q ks]|] eqn:Hout; [|done].
  destruct (answers q r) eqn:Ha; [|done].
  assert (Hprov : provider s <> None).
  { intros Hp. destruct (inv_idle _ Hc Hp) as [Ho _]. by rewrite Ho, lookup_empty in Hout. }
  rewrite !andThen_state.
  assert (Hmid : Core (reaction q r (forget id s).1).1
                 /\ tracked (reaction q r (forget id s).1).1
                 /\ provider (reaction q r (forget id s).1).1 = provider s).
  { assert (Hdel : tracked (forget id s).1).
    { intros p A ks'. unfold forget, update. cbn. intros Hl.
      apply lookup_delete_Some in Hl as [_ Hl]. eauto. }
    destruct q;
      try (cbn [reaction]; split; [eapply Core_forget; eauto; discriminate | by split]).
    cbn [reaction]. split; [eapply Core_settleAccountInfo; eauto|].
    split; [|destruct r as [[]|]; try discriminate; reflexivity].
    assert (Hrm : forall s', outstanding s' = delete id (outstanding s) ->
                  accountInfoInFlight s' = delete account (accountInfoInFlight s) ->
                  tracked s').
    { intros s' Ho Hi p A ks'. rewrite Ho, Hi. intros Hl.
      apply lookup_delete_Some in Hl as [Hne Hl]. pose proof (Ht _ _ _ Hl) as Hl'.
      rewrite lookup_delete_ne; [done|]. intros <-.
      pose proof (Ht _ _ _ Hout). congruence. }
    destruct r as [[]|]; try discriminate; by apply Hrm. }
  destruct Hmid as (Hm & Htm & Hpm).
  eapply tracked_quiet; [exact Hm | exact Htm |].
  apply Quiet_resumeAll; [done | congruence].
Qed.

Lemma tracked_handle e s : Inv s -> tracked s -> tracked (handle e s).1.
Proof.
  intros [Hc Hti] Ht. destruct e; cbn [handle]; unfold listening.
  - by eapply tracked_same.
  - destruct (onPollTimer_frame present s) as (_ & _ & _ & Hi & Ho & _).
    by eapply tracked_same.
  - unfold onAutoConnectTimer. destruct (autoConnectTimer s) as [due|] eqn:Hd; [|done].
    destruct (due <=? now s); [|done].
    destruct providerIsConnected; [by eapply tracked_same|].
    intros p A ks. unfold andThen, update, call. cbn.
    destruct (decide (p = nextId s)) as [->|Hne].
    + by rewrite lookup_insert_eq.
    + rewrite lookup_insert_ne by done. apply Ht.
  - destruct (initialized s); [by eapply tracked_same | done].
  - destruct (initialized s); [by eapply tracked_same | done].
  - destruct (initialized s); [by eapply tracked_same | done].
  - by eapply tracked_same.
  - unfold invoke. apply tracked_start; [by apply Core_with_nextId|].
    by eapply tracked_same.
  - by apply tracked_settle.
Qed.

Lemma reachable_tracked s : reachable s -> tracked s.
Proof.
  induction 1 as [auto present time|s e Hr IH].
  - intros p A ks. unfold mount. rewrite rendered_state, effect_outstanding.
    destruct present.
    + rewrite tryInitialize_found by done. cbn. by rewrite lookup_empty.
    + rewrite tryInitialize_absent by done. cbn. by rewrite lookup_empty.
  - unfold step. rewrite rendered_state.
    eapply tracked_same; [apply effect_outstanding | apply effect_inflight |].
    apply tracked_handle; [by apply reachable_Inv | done].
Qed.

(** X18.  In every state the component can reach, no address has two requests
    outstanding at the handle, and a request is outstanding for an address
    exactly when the address is registered as in flight. *)
Theorem one_request_per_address (s : State) (A : string) :
  reachable s ->
  (forall p1 p2 ks1 ks2,
      outstanding s !! p1 = Some (PGetAccountInfo A, ks1) ->
      outstanding s !! p2 = Some (PGetAccountInfo A, ks2) -> p1 = p2)
  /\ (forall p, accountInfoInFlight s !! A = Some p
                <-> exists ks, outstanding s !! p = Some (PGetAccountInfo A, ks)).
Proof.
  intros Hr. pose proof (reachable_tracked s Hr) as Ht.
  destruct (reachable_Inv s Hr) as [Hc _]. split.
  - intros p1 p2 ks1 ks2 H1 H2. apply Ht in H1, H2. congruence.
  - intros p. split; [apply (inv_inflight _ Hc) | intros [ks H]; eauto].
Qed.

(** *** Discovery is final *)

Lemma step_found s e :
  Inv s -> provider s <> None ->
  let s' := (step s e).1 in
  provider s' = provider s /\ isInstalled s' = isInstalled s
  /\ initialized s' = initialized s /\ retryCount s' = retryCount s
  /\ pollTimer s' = None.
Proof.
  intros [Hc _] Hp. cbn zeta.
  assert (Hpoll : pollTimer s = None).
  { destruct (pollTimer s) as [due|] eqn:E; [|done].
    pose proof (inv_poll _ Hc _ E) as Hi. rewrite (inv_initialized _ Hc) in Hi.
    by destruct (provider s). }
  assert (Hf : forall s', fixed s' = fixed s ->
    provider s' = provider s /\ isInstalled s' = isInstalled s
    /\ initialized s' = initialized s /\ retryCount s' = retryCount s
    /\ pollTimer s' = None).
  { unfold fixed. intros s' H. injection H as _ -> -> -> -> -> _ _. done. }
  unfold step. rewrite rendered_state. autorewrite with effect_frame.
  destruct e; cbn [handle]; unfold listening.
  - done.
  - unfold onPollTimer. by rewrite Hpoll.
  - unfold onAutoConnectTimer. destruct (autoConnectTimer s); [destruct (_ <=? _)|];
      [destruct providerIsConnected| |]; done.
  - destruct (initialized s) eqn:Hi; cbn; by rewrite ?Hi.
  - destruct (initialized s) eqn:Hi; cbn; by rewrite ?Hi.
  - destruct (initialized s) eqn:Hi; cbn; by rewrite ?Hi.
  - done.
  - unfold invoke. apply Hf. by rewrite start_fixed.
  - unfold settle. destruct (outstanding s !! id) as [[q ks]|]; [|by apply Hf].
    destruct (answers q r); [|by apply Hf]. rewrite !andThen_state.
    set (mid := (reaction q r (forget id s).1).1).
    destruct (resumeAll_fixed ks r mid) as (H & _ & _).
    unfold fixed in H. injection H as _ H1 H2 H3 H4 H5 _ _.
    rewrite H1, H2, H3, H4, H5. unfold mid.
    destruct q; destruct r as [[]|]; done.
Qed.

Lemma run_cons s e es :
  run s (e :: es) = ((run (step s e).1 es).1, (step s e).2 ++ (run (step s e).1 es).2).
Proof. cbn [run]. destruct (step s e) as [s1 o1]. cbn [fst snd]. by destruct (run s1 es). Qed.

(** X20.  Once the handle has been found it is kept for good: whatever happens
    afterwards, a [disconnect] event and failing calls included, the
    component keeps the handle and stays installed, the poll timer is never
    set again, the count of retries stands still, and a poll timer that goes
    off does nothing. *)
Theorem handle_found_for_good (s : State) (es : list Event) :
  reachable s ->
  provider s <> None ->
  let s' := (run s es).1 in
  provider s' = provider s /\ isInstalled s' = true /\ pollTimer s' = None
  /\ retryCount s' = retryCount s
  /\ forall present, step s' (PollTimer present) = (s', []).
Proof.
  cbn zeta. revert s. induction es as [|e es IH]; intros s Hr Hp.
  - cbn [run fst]. destruct (reachable_Inv s Hr) as [Hc _].
    assert (Hpoll : pollTimer s = None).
    { destruct (pollTimer s) as [due|] eqn:E; [|done].
      pose proof (inv_poll _ Hc _ E) as Hi. rewrite (inv_initialized _ Hc) in Hi.
      by destruct (provider s). }
    repeat split; try done.
    + rewrite (inv_installed _ Hc). by destruct (provider s).
    + intros present. unfold step, rendered, handle, onPollTimer. rewrite Hpoll.
      unfold autoConnectEffect, sameDependencies.
      by rewrite !eqb_reflx.
  - rewrite run_cons. cbn [fst].
    destruct (step_found s e (reachable_Inv s Hr) Hp) as (H1 & _ & _ & H4 & _).
    cbn zeta in *.
    destruct (IH (step s e).1 (reachable_step s e Hr) ltac:(congruence))
      as (I1 & I2 & I3 & I4 & I5).
    repeat split; try done; congruence.
Qed.

(** *** Auto-connect switched off *)

(** X21.  With [autoConnect] false in the configuration, the component never
    calls [connect({ onlyIfTrusted: true })], whatever happens. *)
Theorem no_auto_connect_when_switched_off (s : State) (es : list Event) :
  reachable s ->
  autoConnect s = false ->
  PConnect true ∉ calls (run s es).2.
Proof.
  revert s. induction es as [|e es IH]; intros s Hr Ha.
  - cbn. apply not_elem_of_nil.
  - rewrite run_cons. cbn [snd]. rewrite calls_app, elem_of_app. intros [Hin|Hin].
    + apply auto_connect_only_from_timer in Hin as (due & _ & Hd & _).
      destruct (reachable_Inv s Hr) as [_ Ht]. destruct (Ht due Hd) as (Hauto & _).
      congruence.
    + revert Hin. apply IH; [by apply reachable_step|].
      destruct (step_now_autoConnect s e) as [_ ->]. done.
Qed.

(** *** A failed request can be repeated *)

(** X19.  When the handle rejects a request for account data, the address is no
    longer registered as in flight and nothing is cached for it, so the
    next call of [getAccountInfo] for that address asks the handle again. *)
Theorem rejected_request_is_retried (s : State) (id : nat) (A : string) (ks : list Frame)
    (e : Thrown) :
  reachable s ->
  outstanding s !! id = Some (PGetAccountInfo A, ks) ->
  let s1 := (step s (Settle id (Rejected e))).1 in
  accountInfoInFlight s1 !! A = None
  /\ accountInfoCache s1 = accountInfoCache s
  /\ calls (step s1 (Invoke (GetAccountInfo (Some A)))).2 = [PGetAccountInfo A].
Proof.
  intros Hr Hout. cbn zeta.
  pose proof (reachable_step s (Settle id (Rejected e)) Hr) as Hr1.
  destruct (reachable_Inv s Hr) as [Hc _].
  pose proof (reachable_tracked s Hr _ _ _ Hout) as Hfl.
  pose proof (inv_stale _ Hc _ _ Hfl) as Hstale.
  destruct (inv_waiters _ Hc _ _ _ Hout) as (HA & _ & _).
  assert (Hp : provider s <> None).
  { intros Hp. destruct (inv_idle _ Hc Hp) as [Ho _]. by rewrite Ho, lookup_empty in Hout. }
  assert (Hcache : accountInfoCache (step s (Settle id (Rejected e))).1 = accountInfoCache s).
  { by rewrite step_cache. }
  assert (Hin : accountInfoInFlight (step s (Settle id (Rejected e))).1 !! A = None).
  { destruct (accountInfoInFlight (step s (Settle id (Rejected e))).1 !! A) as [p|] eqn:E;
      [|done].
    destruct (reachable_Inv _ Hr1) as [Hc1 _].
    destruct (inv_inflight _ Hc1 _ _ E) as [ks' Hks'].
    assert (Hold : forall p', outstanding (step s (Settle id (Rejected e))).1 !! p'
                              = Some (PGetAccountInfo A, ks') -> False).
    { intros p'. rewrite (step_settle_state _ _ _ _ (Rejected e) Hout eq_refl).
      rewrite effect_outstanding.
      set (mid := (reaction _ _ _).1).
      assert (Hm : Core mid) by (eapply Core_settleAccountInfo; eauto).
      assert (Hpm : provider mid <> None) by done.
      pose proof (Quiet_resumeAll ks (Rejected e) mid Hm Hpm) as Hq.
      intros Hl. destruct (decide (p' < nextId mid)%nat) as [Hlt|Hge].
      - rewrite (q_old _ _ Hq) in Hl by done. unfold mid in Hl. cbn in Hl.
        apply lookup_delete_Some in Hl as [Hne Hl].
        pose proof (reachable_tracked s Hr _ _ _ Hl). congruence.
      - destruct (q_new _ _ Hq p' _ ks' ltac:(lia) Hl) as (_ & _ & H). by destruct (H A). }
    by destruct (Hold p). }
  split; [done|]. split; [done|].
  set (s1 := (step s (Settle id (Rejected e))).1) in *.
  assert (Hp1 : provider s1 <> None).
  { unfold s1. destruct (step_found s (Settle id (Rejected e)) (reachable_Inv s Hr) Hp)
      as (-> & _). done. }
  assert (Hnow : now s1 = now s) by (unfold s1; by destruct (step_now_autoConnect s (Settle id (Rejected e))) as [-> _]).
  unfold step, handle, invoke, start, getAccountInfo. rewrite rendered_out.
  cbn [provider publicKey with_nextId accountInfoCache accountInfoInFlight now].
  destruct (provider s1); [|done].
  assert (Ho : forall y, orElse (Some A) y = Some A).
  { intros y. unfold orElse. apply nonempty_true in HA. by rewrite HA. }
  rewrite Ho, Hcache, Hnow, Hstale, Hin. reflexivity.
Qed.

(** *** Signatures as hexadecimal text *)

(** X8.  When the handle fulfils the call of [signMessage], the wrapper returns
    the signature as text of two hexadecimal digits per byte, from which
    the bytes can be read back. *)
Theorem signMessage_returns_hex (s : State) (id c : nat) (q : Req)
    (result : SignMessageResult) :
  outstanding s !! id = Some (q, [KSignMessage c]) ->
  answers q (Fulfilled (VSignMessage result)) = true ->
  exists h,
    (step s (Settle id (Fulfilled (VSignMessage result)))).2 = [Returned c (RetString (Some h))]
    /\ fromHex h = Some (signature result)
    /\ String.length h = (2 * length (signature result))%nat
    /\ error (step s (Settle id (Fulfilled (VSignMessage result)))).1 = error s.
Proof.
  intros Hout Ha. exists (toHex (signature result)).
  rewrite (step_settle_out _ _ _ _ _ Hout Ha), (step_settle_state _ _ _ _ _ Hout Ha).
  rewrite reaction_out, effect_error.
  destruct (fromHex_toHex (signature result)) as [H1 H2].
  repeat split; try done.
  destruct q; try discriminate; reflexivity.
Qed.

(** *** The error shown and the error reported *)

Lemma errorsReported_app o1 o2 :
  errorsReported (o1 ++ o2) = errorsReported o1 ++ errorsReported o2.
Proof. apply omap_app. Qed.

Lemma classify_nonempty m : m <> "" -> classify m <> "".
Proof. intros H. unfold classify. by repeat case_match. Qed.

Lemma errorMessageOf_nonempty err d : d <> "" -> errorMessageOf err d <> "".
Proof.
  intros H. unfold errorMessageOf. destruct err as [m|]; [|done].
  destruct (nonempty m) eqn:E; [by apply nonempty_true | done].
Qed.

(** A stretch of code shows what it reports: every message it hands to
    [onError] is nonempty, the error state holds the classified form of the
    last one, and without a report the error state is left alone. *)
Definition Shows (a : Act) : Prop :=
  forall s,
    Forall (fun m => m <> "") (errorsReported (a s).2)
    /\ match last (errorsReported (a s).2) with
       | Some m => error (a s).1 = Some (classify m)
       | None => error (a s).1 = error s
       end.

Lemma Shows_andThen a b : Shows a -> Shows b -> Shows (a >> b).
Proof.
  intros Ha Hb s. rewrite andThen_out, andThen_state, errorsReported_app, last_app.
  destruct (Ha s) as [Fa La], (Hb (a s).1) as [Fb Lb].
  split; [by apply Forall_app|].
  destruct (last (errorsReported (b (a s).1).2)); [done|].
  rewrite Lb. exact La.
Qed.

Lemma Shows_silent (a : Act) :
  (forall s, error (a s).1 = error s /\ errorsReported (a s).2 = []) -> Shows a.
Proof. intros H s. destruct (H s) as [He Ho]. rewrite Ho. by split. Qed.

Lemma Shows_handleError err d : d <> "" -> Shows (handleError err d).
Proof.
  intros Hd s. rewrite handleError_out, handleError_error. cbn. split; [|done].
  constructor; [|done]. by apply errorMessageOf_nonempty.
Qed.

Lemma prefixed_nonempty (x : string) : "Failed to resolve BNS name: " +:+ x <> "".
Proof. by rewrite append_String. Qed.

Create HintDb shows.
#[local] Hint Resolve Shows_andThen Shows_handleError prefixed_nonempty : shows.
#[local] Hint Extern 2 (Shows _) => (apply Shows_silent; intros; split; reflexivity) : shows.
#[local] Hint Extern 1 (_ <> "") => discriminate : shows.

Lemma Shows_resume k r : Shows (resume k r).
Proof.
  destruct k; destruct r as [[]|]; cbn [resume accountInfoSettled];
    try destruct (nonempty _); auto 10 with shows.
Qed.

Lemma Shows_resumeLater k r : Shows (resumeLater k r).
Proof. destruct k; destruct r as [[]|]; cbn [resumeLater]; auto with shows. Qed.

Lemma Shows_resumeEach ks r : Shows (resumeEach ks r).
Proof.
  induction ks as [|k ks IH]; cbn [resumeEach]; auto using Shows_resume with shows.
Qed.

Lemma Shows_resumeLaterEach ks r : Shows (resumeLaterEach ks r).
Proof.
  induction ks as [|k ks IH]; cbn [resumeLaterEach]; auto using Shows_resumeLater with shows.
Qed.

Lemma Shows_resumeAll ks r : Shows (resumeAll ks r).
Proof.
  unfold resumeAll. auto using Shows_resumeEach, Shows_resumeLaterEach with shows.
Qed.

Lemma start_shows a c s m :
  last (errorsReported (start a c s).2) = Some m ->
  error (start a c s).1 = Some (classify m) /\ m <> "".
Proof.
  destruct a; cbn [start];
    unfold connect, disconnect, getAccounts, getBalance, sendTransaction, signMessage,
      verifySignedMessage, signBlock, sendBlock, resolveBNS, getAccountInfo;
    repeat (case_match; unfold getAccountInfo);
    rewrite ?andThen_out, ?andThen_state, ?notInstalled_run, ?noAccountSelected_run;
    cbn; intros [= <-]; done.
Qed.

Lemma step_shows (s : State) (e : Event) (m : string) :
  last (errorsReported (step s e).2) = Some m ->
  error (step s e).1 = Some (classify m) /\ m <> "".
Proof.
  unfold step. rewrite rendered_out, rendered_state, effect_error.
  destruct e; cbn [handle]; unfold listening.
  - discriminate.
  - destruct (onPollTimer_frame present s) as (_ & _ & _ & _ & _ & _ & _ & ->).
    discriminate.
  - unfold onAutoConnectTimer. destruct (autoConnectTimer s); [destruct (_ <=? _)|];
      [destruct providerIsConnected| |]; discriminate.
  - destruct (initialized s); discriminate.
  - destruct (initialized s); discriminate.
  - destruct (initialized s); discriminate.
  - discriminate.
  - unfold invoke. apply start_shows.
  - unfold settle. destruct (outstanding s !! id) as [[q ks]|]; [|discriminate].
    destruct (answers q r); [|discriminate].
    rewrite !andThen_out, !andThen_state, reaction_out. cbn [forget update snd app].
    set (mid := (reaction q r _).1).
    destruct (Shows_resumeAll ks r mid) as [F L]. intros Hl. rewrite Hl in L.
    split; [done|]. rewrite Forall_forall in F. apply F.
    apply last_Some in Hl as [l' ->]. apply elem_of_app. right. apply list_elem_of_here.
Qed.

(** X22.  Whenever a transition hands a message to [onError], the message is not
    empty and the [error] state the components read holds, after the
    transition, the classified form of the last message handed over, which
    is not empty either: what the page shows is never older than what the
    callback was told. *)
Theorem reported_error_is_shown (s : State) (e : Event) (m : string) :
  last (errorsReported (step s e).2) = Some m ->
  error (step s e).1 = Some (classify m) /\ m <> "" /\ classify m <> "".
Proof.
  intros H. destruct (step_shows s e m H) as [H1 H2].
  split; [done|]. split; [done|]. by apply classify_nonempty.
Qed.

(** *** After a disconnect by the user *)






(** *** When the auto-connect timer is set *)

Lemma flag_needs_handle s : reachable s -> userDisconnected s = true -> provider s <> None.
Proof.
  induction 1 as [auto present time|s e Hr IH].
  - destruct (mount_fresh auto present time) as (_ & _ & -> & _). discriminate.
  - intros Hu. destruct (provider s) as [h|] eqn:Hp.
    + destruct (step_found s e (reachable_Inv s Hr) ltac:(congruence)) as (-> & _).
      congruence.
    + exfalso. apply IH; [|done]. rewrite <- Hu, step_flag.
      destruct (reachable_Inv s Hr) as [Hc _].
      rewrite (inv_initialized _ Hc), Hp. cbn [isSome].
      destruct e as [| | | | | | |[]|]; reflexivity.
Qed.

(** X29.  A handle that appears late is taken up by the poll that is due:
    the component is installed and listens from then on, polling stops, the
    poll itself calls nothing, and the auto-connect timer is set for 800 ms
    later exactly when [autoConnect] is on. *)
Theorem late_discovery (s : State) (due : Z) :
  reachable s ->
  pollTimer s = Some due ->
  due <= now s ->
  let s' := (step s (PollTimer true)).1 in
  provider s' = Some banano /\ isInstalled s' = true /\ initialized s' = true
  /\ pollTimer s' = None
  /\ autoConnectTimer s'
     = (if autoConnect s then Some (now s + AUTO_CONNECT_DELAY_MS) else None)
  /\ (step s (PollTimer true)).2 = [].
Proof.
  intros Hr Hpoll Hdue. cbn zeta. destruct (reachable_Inv s Hr) as [Hc _].
  pose proof (inv_poll _ Hc _ Hpoll) as Hi.
  assert (Hp : provider s = None).
  { rewrite (inv_initialized _ Hc) in Hi. by destruct (provider s). }
  assert (Hu : userDisconnected s = false).
  { destruct (userDisconnected s) eqn:E; [|done]. by destruct (flag_needs_handle s Hr E). }
  unfold step, rendered, handle, onPollTimer. rewrite Hpoll.
  destruct (Z.leb_spec due (now s)); [|lia].
  unfold andThen. cbn [update fst snd]. rewrite tryInitialize_found by done.
  cbn [app fst snd]. unfold autoConnectEffect, sameDependencies, autoConnectBody.
  cbn. rewrite Hp, Hu. cbn. rewrite andb_false_r. cbn.
  by destruct (autoConnect s).
Qed.

(** X30.  When the user has disconnected and connects again, by the button
    or in the wallet, the auto-connect effect runs again: its timer is set
    for 800 ms later, and when it goes off while the wallet does not report
    a connection it asks for a silent connect, beside the connect of the
    user. *)
Theorem reconnect_arms_auto_connect (s : State) (e : Event) (ms : N) :
  reachable s ->
  provider s <> None ->
  autoConnect s = true ->
  userDisconnected s = true ->
  (e = Invoke Connect \/ exists key accts, e = ConnectEvent key accts) ->
  AUTO_CONNECT_DELAY_MS <= Z.of_N ms ->
  let s1 := (step s e).1 in
  autoConnectTimer s1 = Some (now s + AUTO_CONNECT_DELAY_MS)
  /\ calls (run s1 [Tick ms; AutoConnectTimer false]).2 = [PConnect true].
Proof.
  intros Hr Hp Ha Hu He Hms. cbn zeta. destruct (reachable_Inv s Hr) as [Hc _].
  assert (Hi : initialized s = true).
  { rewrite (inv_initialized _ Hc). by destruct (provider s). }
  assert (Ht : autoConnectTimer (step s e).1 = Some (now s + AUTO_CONNECT_DELAY_MS)).
  { destruct He as [->|(key & accts & ->)];
      unfold step, rendered, handle, invoke, start, connect, listening;
      cbn [provider with_nextId]; rewrite ?Hi;
      destruct (provider s) eqn:Hp'; try done;
      cbn; unfold autoConnectEffect, sameDependencies, autoConnectBody;
      cbn; rewrite ?Hp', Ha, Hu; reflexivity. }
  split; [done|].
  destruct (step_now_autoConnect s e) as [Hn _].
  assert (Hnow : now (step s e).1 = now s) by (destruct He as [->|(? & ? & ->)]; exact Hn).
  clear Hn. set (s1 := (step s e).1) in *. clearbody s1.
  rewrite run_cons, step_tick. cbn [fst snd app].
  rewrite run_cons. cbn [run fst snd]. rewrite app_nil_r.
  unfold step, handle, onAutoConnectTimer. rewrite rendered_out.
  cbn [autoConnectTimer now with_now]. rewrite Ht, Hnow.
  destruct (Z.leb_spec (now s + AUTO_CONNECT_DELAY_MS) (now s + Z.of_N ms)); [|lia].
  reflexivity.
Qed.

(** *** Sample runs *)

Definition resolvingState : State :=
  (run connectedState [Invoke (ResolveBNS "x.ban")]).1.

Definition listingState : State := (run connectedState [Invoke GetAccounts]).1.

Definition signingState : State :=
  (run connectedState [Invoke (SignMessage "hi" None)]).1.

Definition sampleSignature : SignMessageResult :=
  {| signature := [Byte.x0a; Byte.xff; Byte.x00]; signerPublicKey := "ban_1abc" |}.

Lemma rejected_call_is_reported_witness :
  let settled := step resolvingState (Settle 1 (Rejected (ErrorObj "boom"))) in
  settled.2 = [OnError "boom"; Returned 0%nat (RetString None)]
  /\ error settled.1 = Some "boom"
  /\ outstanding settled.1 !! 1%nat = None.
Proof.
  assert (Hout : outstanding resolvingState !! 1%nat
                 = Some (PResolveBNS "x.ban", [KResolveBNS 0 "x.ban"]))
    by (vm_compute; reflexivity).
  pose proof (rejected_call_is_reported resolvingState 1 _ _ 0 (ErrorObj "boom") Hout eq_refl)
    as H.
  cbv zeta in H. destruct H as (H1 & H2 & H3 & _).
  cbv zeta. split; [exact H1|]. split; [exact H2 | exact H3].
Defined.

Lemma no_account_contract_witness :
  (step (mount true true 0) (Invoke (SignMessage "hi" None))).2
  = [OnError "No account selected";
     Returned (nextId (mount true true 0)) (emptyResult (SignMessage "hi" None))]
  /\ (step (mount true true 0) (Invoke (GetBalance None))).2
     = [Returned (nextId (mount true true 0)) (emptyResult (GetBalance None))].
Proof.
  assert (Hp : provider (mount true true 0) <> None) by (vm_compute; discriminate).
  assert (Hk : orElse (publicKey (mount true true 0)) None = None) by reflexivity.
  pose proof (no_account_contract (SignMessage "hi" None) (mount true true 0) Hp Hk) as H1.
  pose proof (no_account_contract (GetBalance None) (mount true true 0) Hp Hk) as H2.
  cbv zeta in H1, H2. destruct H1 as [H1 _], H2 as [_ H2].
  destruct (H1 eq_refl) as [H1' _]. destruct (H2 eq_refl) as [H2' _].
  split; [exact H1' | exact H2'].
Defined.

Lemma connect_brackets_connecting_witness :
  (step (mount true true 0) (Invoke Connect)).2
  = [Called (S (nextId (mount true true 0))) (PConnect false)]
  /\ isConnecting (step (mount true true 0) (Invoke Connect)).1 = true
  /\ userDisconnected (step (mount true true 0) (Invoke Connect)).1 = false.
Proof.
  assert (Hp : provider (mount true true 0) <> None) by (vm_compute; discriminate).
  pose proof (connect_brackets_connecting (mount true true 0) Hp) as H.
  cbv zeta in H. destruct H as (H1 & H2 & H3 & _).
  split; [exact H1|]. split; [exact H2 | exact H3].
Defined.

Lemma getAccounts_replaces_list_witness :
  let settled := step listingState (Settle 1 (Fulfilled (VAccounts ["ban_1abc"; "ban_3xyz"]))) in
  settled.2 = [Returned 0%nat (RetAccounts ["ban_1abc"; "ban_3xyz"])]
  /\ accounts settled.1 = ["ban_1abc"; "ban_3xyz"].
Proof.
  assert (Hout : outstanding listingState !! 1%nat = Some (PGetAccounts, [KGetAccounts 0]))
    by (vm_compute; reflexivity).
  pose proof (getAccounts_replaces_list listingState 1 0 ["ban_1abc"; "ban_3xyz"] Hout) as H.
  cbv zeta in H. destruct H as (H1 & H2 & _).
  cbv zeta. split; [exact H1 | exact H2].
Defined.

Lemma sender_is_fixed_at_call_witness :
  calls (run connectedState
           [Invoke (SendTransaction "cosmic.ban" "100"); AccountChangedEvent "ban_3xyz";
            Settle (S (nextId connectedState)) (Fulfilled (VString "ban_1cos"))]).2
  = [PResolveBNS "cosmic.ban"; PSendTransaction "ban_1abc" "ban_1cos" "100"].
Proof.
  assert (Hp : provider connectedState <> None) by (vm_compute; discriminate).
  assert (Hk : publicKey connectedState = Some "ban_1abc") by (vm_compute; reflexivity).
  pose proof (sender_is_fixed_at_call connectedState "ban_1abc" "cosmic.ban" "100" "ban_3xyz"
                "ban_1cos" Hp Hk ltac:(discriminate) eq_refl ltac:(discriminate)) as H.
  cbv zeta in H. exact H.
Defined.

Lemma cached_answer_is_recent_witness :
  exists A ts,
    accountInfoCache cachedState !! A = Some (ts, sampleInfo)
    /\ ts <= now cachedState < ts + ACCOUNT_INFO_TTL_MS.
Proof.
  assert (Hr : reachable cachedState)
    by apply reachable_run, reachable_run, reachable_run, reachable_mount.
  assert (Hout : (step cachedState (Invoke (GetAccountInfo (Some "ban_1abc")))).2
                 = [Returned (nextId cachedState) (RetInfo (Some sampleInfo))])
    by (vm_compute; reflexivity).
  exact (cached_answer_is_recent cachedState (Some "ban_1abc") sampleInfo Hr Hout).
Defined.

Lemma one_request_per_address_witness :
  exists ks, outstanding inFlightState !! 1%nat = Some (PGetAccountInfo "ban_1abc", ks).
Proof.
  assert (Hr : reachable inFlightState)
    by apply reachable_run, reachable_run, reachable_mount.
  assert (Hin : accountInfoInFlight inFlightState !! "ban_1abc" = Some 1%nat)
    by (vm_compute; reflexivity).
  pose proof (one_request_per_address inFlightState "ban_1abc" Hr) as [_ H].
  exact (proj1 (H 1%nat) Hin).
Defined.

Lemma rejected_request_is_retried_witness :
  let s1 := (step inFlightState (Settle 1 (Rejected (ErrorObj "boom")))).1 in
  accountInfoInFlight s1 !! "ban_1abc" = None
  /\ calls (step s1 (Invoke (GetAccountInfo (Some "ban_1abc")))).2
     = [PGetAccountInfo "ban_1abc"].
Proof.
  assert (Hr : reachable inFlightState)
    by apply reachable_run, reachable_run, reachable_mount.
  assert (Hout : outstanding inFlightState !! 1%nat
                 = Some (PGetAccountInfo "ban_1abc", [KGetAccountInfo 0]))
    by (vm_compute; reflexivity).
  pose proof (rejected_request_is_retried inFlightState 1 "ban_1abc" _ (ErrorObj "boom")
                Hr Hout) as H.
  cbv zeta in H. destruct H as (H1 & _ & H3).
  cbv zeta. split; [exact H1 | exact H3].
Defined.

Lemma handle_found_for_good_witness :
  provider (run (mount true true 0) [DisconnectEvent; PollTimer false]).1
  = provider (mount true true 0)
  /\ isInstalled (run (mount true true 0) [DisconnectEvent; PollTimer false]).1 = true.
Proof.
  assert (Hp : provider (mount true true 0) <> None) by (vm_compute; discriminate).
  pose proof (handle_found_for_good (mount true true 0) [DisconnectEvent; PollTimer false]
                (reachable_mount true true 0) Hp) as H.
  cbv zeta in H. destruct H as (H1 & H2 & _).
  split; [exact H1 | exact H2].
Defined.

Lemma no_auto_connect_when_switched_off_witness :
  PConnect true ∉ calls (run (mount false true 0) [Tick 800; AutoConnectTimer false]).2.
Proof.
  exact (no_auto_connect_when_switched_off (mount false true 0)
           [Tick 800; AutoConnectTimer false] (reachable_mount false true 0) eq_refl).
Defined.

Lemma signMessage_returns_hex_witness :
  exists h,
    (step signingState (Settle 1 (Fulfilled (VSignMessage sampleSignature)))).2
    = [Returned 0%nat (RetString (Some h))]
    /\ fromHex h = Some (signature sampleSignature).
Proof.
  assert (Hout : outstanding signingState !! 1%nat
                 = Some (PSignMessage "hi" Utf8, [KSignMessage 0]))
    by (vm_compute; reflexivity).
  destruct (signMessage_returns_hex signingState 1 0 _ sampleSignature Hout eq_refl)
    as (h & H1 & H2 & _).
  exists h. split; [exact H1 | exact H2].
Defined.

Lemma reported_error_is_shown_witness :
  error (step (mount false false 0) (Invoke GetAccounts)).1
  = Some (classify "MonkeyMask not installed").
Proof.
  assert (Hm : last (errorsReported (step (mount false false 0) (Invoke GetAccounts)).2)
               = Some "MonkeyMask not installed")
    by (vm_compute; reflexivity).
  exact (proj1 (reported_error_is_shown (mount false false 0) (Invoke GetAccounts)
                  "MonkeyMask not installed" Hm)).
Defined.


Lemma late_discovery_witness :
  provider (step (run (mount true false 0) [Tick 500]).1 (PollTimer true)).1 = Some banano
  /\ autoConnectTimer (step (run (mount true false 0) [Tick 500]).1 (PollTimer true)).1
     = (if autoConnect (run (mount true false 0) [Tick 500]).1
        then Some (now (run (mount true false 0) [Tick 500]).1 + AUTO_CONNECT_DELAY_MS)
        else None).
Proof.
  assert (Hr : reachable (run (mount true false 0) [Tick 500]).1)
    by apply reachable_run, reachable_mount.
  assert (Hpoll : pollTimer (run (mount true false 0) [Tick 500]).1 = Some 500)
    by (vm_compute; reflexivity).
  assert (Hdue : 500 <= now (run (mount true false 0) [Tick 500]).1)
    by (vm_compute; discriminate).
  pose proof (late_discovery _ 500 Hr Hpoll Hdue) as H.
  cbv zeta in H. destruct H as (H1 & _ & _ & _ & H5 & _).
  split; [exact H1 | exact H5].
Defined.

Lemma reconnect_arms_auto_connect_witness :
  autoConnectTimer (step userDisconnectedState (Invoke Connect)).1
  = Some (now userDisconnectedState + AUTO_CONNECT_DELAY_MS)
  /\ calls (run (step userDisconnectedState (Invoke Connect)).1
              [Tick 800; AutoConnectTimer false]).2 = [PConnect true].
Proof.
  assert (Hr : reachable userDisconnectedState) by apply reachable_run, reachable_mount.
  assert (Hp : provider userDisconnectedState <> None) by (vm_compute; discriminate).
  pose proof (reconnect_arms_auto_connect userDisconnectedState (Invoke Connect) 800
                Hr Hp eq_refl eq_refl (or_introl eq_refl)) as H.
  cbv zeta in H. apply H. vm_compute. discriminate.
Defined.

End BridgeMore.

(** ** The components on the page *)

Module ComponentFacts.
Import Bridge BridgeFacts BridgeMore Components.

#[local] Hint Rewrite effect_error effect_userDisconnected effect_provider effect_autoConnect
  effect_isInstalled effect_isConnected effect_isConnecting effect_publicKey effect_accounts
  effect_cache effect_inflight effect_initialized effect_retryCount effect_pollTimer effect_now
  effect_nextId effect_outstanding : effect_frame.

(** *** Shortened keys *)

Lemma length_append (a b : string) :
  String.length (a +:+ b) = (String.length a + String.length b)%nat.
Proof.
  induction a as [|x a IH]; [by rewrite append_empty|].
  rewrite append_String. cbn. by rewrite IH.
Qed.

Lemma length_takeChars n s : String.length (takeChars n s) = (n `min` String.length s)%nat.
Proof.
  revert s. induction n as [|n IH]; intros [|x s]; cbn; try done. by rewrite IH.
Qed.

Lemma length_dropChars n s : String.length (dropChars n s) = (String.length s - n)%nat.
Proof. revert s. induction n as [|n IH]; intros [|x s]; cbn; try done. Qed.

Lemma takeChars_dropChars n s : takeChars n s +:+ dropChars n s = s.
Proof.
  revert s. induction n as [|n IH]; intros [|x s]; cbn [takeChars dropChars];
    rewrite ?append_empty, ?append_String; try done. by rewrite IH.
Qed.

Lemma takeChars_all n s : (String.length s <= n)%nat -> takeChars n s = s.
Proof.
  revert s. induction n as [|n IH]; intros [|x s]; cbn; try done; [lia|].
  intros H. rewrite IH; [done | lia].
Qed.

Lemma dropChars_plus n m s : dropChars (n + m) s = dropChars m (dropChars n s).
Proof.
  revert s. induction n as [|n IH]; intros [|x s]; cbn [dropChars Nat.add]; try done.
  by destruct m.
Qed.

(** X23.  The shortened form of a key has [n] characters, or all of them when the
    key is shorter, on either side of three dots.  For a key of at least
    [2 n] characters these are its two ends and what lies between them is
    left out; a key of at most [n] characters is shown twice in full. *)
Theorem shorten_spec (n : nat) (key : string) :
  String.length (shorten n key) = (2 * (n `min` String.length key) + 3)%nat
  /\ ((2 * n <= String.length key)%nat ->
      exists hidden, key = sliceFirst n key +:+ hidden +:+ sliceLast n key
                     /\ String.length hidden = (String.length key - 2 * n)%nat)
  /\ ((String.length key <= n)%nat -> shorten n key = key +:+ "..." +:+ key).
Proof.
  unfold shorten, sliceFirst, sliceLast. split; [|split].
  - rewrite !length_append, length_takeChars, length_dropChars. cbn. lia.
  - intros H. exists (takeChars (String.length key - 2 * n) (dropChars n key)).
    split.
    + replace (String.length key - n)%nat with (n + (String.length key - 2 * n))%nat by lia.
      rewrite dropChars_plus, takeChars_dropChars, takeChars_dropChars. done.
    + rewrite length_takeChars, length_dropChars. lia.
  - intros H. rewrite takeChars_all by done.
    replace (String.length key - n)%nat with 0%nat by lia. by destruct key.
Qed.

(** *** The connect button *)

Lemma detectSwitch_previous time pk c :
  truthy (previousPublicKey c) = true ->
  previousPublicKey (detectSwitch time pk c) = previousPublicKey c.
Proof.
  intros Hp. unfold detectSwitch. rewrite Hp, andb_true_r.
  destruct (truthy pk) eqn:Hk; cbn [andb]; [|done].
  destruct (bool_decide (pk = previousPublicKey c)) eqn:E; cbn [negb]; [|done].
  cbn. by apply bool_decide_eq_true in E.
Qed.

Lemma bridgeStep_previous p e :
  truthy (previousPublicKey p.2) = true ->
  previousPublicKey (bridgeStep p e).2 = previousPublicKey p.2.
Proof.
  intros H. unfold bridgeStep, rerender. cbn [snd].
  destruct (bool_decide _); [done | by apply detectSwitch_previous].
Qed.

Lemma bridgeSteps_previous es : forall p,
  truthy (previousPublicKey p.2) = true ->
  previousPublicKey (foldl bridgeStep p es).2 = previousPublicKey p.2.
Proof.
  induction es as [|e es IH]; intros p H; cbn [foldl]; [done|].
  rewrite IH; rewrite bridgeStep_previous; done.
Qed.

Lemma pageStep_previous p e :
  truthy (previousPublicKey p.2) = true ->
  previousPublicKey (pageStep p e).2 = previousPublicKey p.2.
Proof.
  intros H. destruct e; cbn [pageStep].
  - by apply bridgeStep_previous.
  - unfold onSwitchTimer. cbn [snd]. destruct (switchTimer p.2); [destruct (_ <=? _)|]; done.
  - by apply bridgeSteps_previous.
Qed.

(** X24.  The key the button compares with is the first key it has seen: once
    [previousPublicKey] holds a key it never changes, whatever happens on
    the page, so a change of account to that key is never announced. *)
Theorem previous_key_is_first_key (p : Page) (es : list PageEvent) :
  truthy (previousPublicKey p.2) = true ->
  previousPublicKey (pageRun p es).2 = previousPublicKey p.2
  /\ forall e, publicKey (step (pageRun p es).1 e).1 = previousPublicKey p.2 ->
       isAccountSwitching (bridgeStep (pageRun p es) e).2
       = isAccountSwitching (pageRun p es).2.
Proof.
  intros H.
  assert (Hrun : forall es p, truthy (previousPublicKey p.2) = true ->
                   previousPublicKey (pageRun p es).2 = previousPublicKey p.2).
  { clear. induction es as [|e es IH]; intros p H; unfold pageRun; cbn [foldl]; [done|].
    fold (pageRun (pageStep p e) es). rewrite IH; rewrite pageStep_previous; done. }
  split; [by apply Hrun|].
  intros e Hk. unfold bridgeStep, rerender. cbn [snd].
  destruct (bool_decide _); [done|]. unfold detectSwitch.
  rewrite Hk, <- (Hrun es p H), bool_decide_eq_true_2 by done.
  by rewrite andb_false_r.
Qed.

Lemma bridgeStep_switching p e :
  isAccountSwitching p.2 = true -> isAccountSwitching (bridgeStep p e).2 = true.
Proof.
  intros H. unfold bridgeStep, rerender, detectSwitch. cbn [snd].
  destruct (bool_decide _); [done|]. by destruct (_ && _ && _).
Qed.

(** X25.  While the notice of a switch is shown, only the timer of the effect
    ends it, and only a timer that is pending and due. *)
Theorem switch_notice_ends_only_by_timer (p : Page) (e : PageEvent) :
  isAccountSwitching p.2 = true ->
  isAccountSwitching (pageStep p e).2 = false ->
  e = SwitchTimer /\ exists due, switchTimer p.2 = Some due /\ due <= now p.1.
Proof.
  intros H. destruct e; cbn [pageStep].
  - rewrite bridgeStep_switching; done.
  - unfold onSwitchTimer. cbn [snd]. destruct (switchTimer p.2) as [due|]; [|congruence].
    destruct (Z.leb_spec due (now p.1)); [|congruence]. eauto.
  - assert (Hs : forall es q, isAccountSwitching q.2 = true ->
                   isAccountSwitching (foldl bridgeStep q es).2 = true).
    { clear. induction es as [|e es IH]; intros q H; cbn [foldl]; [done|].
      apply IH. by apply bridgeStep_switching. }
    rewrite Hs; done.
Qed.

(** X26.  The account changes away from the first key and back before the notice
    has run out: the clean-up of the effect clears the timer, the body does
    not set the state back, and the button is left disabled with no timer
    to enable it. *)
Theorem switch_back_leaves_notice (s : State) (c : ConnectButtonState) (A B : string)
    (ms : N) :
  initialized s = true ->
  publicKey s = Some A ->
  previousPublicKey c = Some A ->
  A <> "" -> B <> "" -> A <> B ->
  Z.of_N ms < SWITCH_NOTICE_MS ->
  let p := pageRun (s, c) [Bridge (AccountChangedEvent B); Bridge (Tick ms); SwitchTimer;
                           Bridge (AccountChangedEvent A)] in
  isAccountSwitching p.2 = true /\ switchTimer p.2 = None
  /\ publicKey p.1 = Some A /\ isConnected p.1 = true
  /\ (isInstalled s = true -> error s = None -> ConnectButton p.1 p.2 = AccountSwitched)
  /\ onClick AccountSwitched = [].
Proof.
  intros Hi Hk Hprev HA HB HAB Hms. cbn zeta.
  apply nonempty_true in HA as HA', HB as HB'.
  unfold pageRun. cbn [foldl pageStep].
  set (p1 := bridgeStep (s, c) (AccountChangedEvent B)).
  assert (H1 : publicKey p1.1 = Some B /\ now p1.1 = now s /\ initialized p1.1 = true
               /\ isInstalled p1.1 = isInstalled s /\ error p1.1 = error s
               /\ p1.2 = {| previousPublicKey := Some A; isAccountSwitching := true;
                            switchTimer := Some (now s + SWITCH_NOTICE_MS) |}).
  { unfold p1, bridgeStep, step. cbn [fst snd]. rewrite rendered_state.
    autorewrite with effect_frame. cbn [handle]. unfold listening. rewrite Hi.
    cbn. rewrite Hi. repeat split; try done.
    unfold rerender. autorewrite with effect_frame. cbn. rewrite Hk.
    rewrite bool_decide_eq_false_2 by congruence.
    unfold detectSwitch. rewrite Hprev. cbn [truthy]. rewrite HA', HB'.
    rewrite bool_decide_eq_false_2 by congruence. reflexivity. }
  destruct H1 as (K1 & N1 & I1 & In1 & E1 & C1). clearbody p1.
  set (p2 := bridgeStep p1 (Tick ms)).
  assert (H2 : publicKey p2.1 = Some B /\ now p2.1 = now s + Z.of_N ms
               /\ initialized p2.1 = true
               /\ isInstalled p2.1 = isInstalled s /\ error p2.1 = error s
               /\ p2.2 = p1.2).
  { unfold p2, bridgeStep, step. cbn [fst snd]. rewrite rendered_state.
    autorewrite with effect_frame. cbn [handle]. cbn. rewrite N1.
    repeat split; try done.
    unfold rerender. autorewrite with effect_frame. cbn.
    by rewrite bool_decide_eq_true_2. }
  destruct H2 as (K2 & N2 & I2 & In2 & E2 & C2). clearbody p2.
  set (p3 := (p2.1, onSwitchTimer (now p2.1) p2.2)).
  assert (H3 : p3 = p2).
  { unfold p3, onSwitchTimer. rewrite C2, C1, N2. cbn [switchTimer].
    destruct (Z.leb_spec (now s + SWITCH_NOTICE_MS) (now s + Z.of_N ms)); [lia|].
    rewrite <- C1, <- C2. by destruct p2. }
  rewrite H3.
  set (p4 := bridgeStep p2 (AccountChangedEvent A)).
  assert (H4 : publicKey p4.1 = Some A /\ isConnected p4.1 = true
               /\ isInstalled p4.1 = isInstalled s /\ error p4.1 = error s
               /\ p4.2 = {| previousPublicKey := Some A; isAccountSwitching := true;
                            switchTimer := None |}).
  { unfold p4, bridgeStep, step. cbn [fst snd]. rewrite rendered_state.
    autorewrite with effect_frame. cbn [handle]. unfold listening. rewrite I2.
    cbn. repeat split; try done.
    unfold rerender. autorewrite with effect_frame. cbn. rewrite K2.
    rewrite bool_decide_eq_false_2 by congruence.
    unfold detectSwitch. rewrite C2, C1. cbn [previousPublicKey truthy isAccountSwitching].
    rewrite HA'. rewrite bool_decide_eq_true_2 by done. reflexivity. }
  destruct H4 as (K4 & Co4 & In4 & E4 & C4).
  rewrite C4. cbn [isAccountSwitching switchTimer].
  repeat split; try done.
  intros Hinst Herr. unfold ConnectButton.
  rewrite In4, Hinst, E4, Herr, Co4, K4. cbn. by rewrite HA'.
Qed.

(** X27.  After a failure that was reported to [onError], whichever component
    made the call, the connect button shows the error instead of the
    account, connected or not; its click clears the error. *)
Theorem failure_takes_over_connect_button (s : State) (e : Event) (m : string)
    (c : ConnectButtonState) :
  reachable s ->
  provider s <> None ->
  last (errorsReported (step s e).2) = Some m ->
  ConnectButton (step s e).1 c = ErrorDismiss
  /\ error (foldl bridgeStep ((step s e).1, c) (onClick ErrorDismiss)).1 = None.
Proof.
  intros Hr Hp Hm. destruct (step_shows s e m Hm) as [He Hne].
  destruct (reachable_Inv s Hr) as [Hc Ht].
  destruct (step_found s e (conj Hc Ht) Hp) as (_ & Hinst & _). cbn zeta in Hinst.
  split.
  - unfold ConnectButton. rewrite Hinst, (inv_installed _ Hc), He.
    destruct (provider s); [|done]. cbn.
    pose proof (classify_nonempty m Hne) as Hcl. apply nonempty_true in Hcl.
    by rewrite Hcl.
  - cbn [onClick foldl bridgeStep fst]. unfold step. rewrite rendered_state, effect_error.
    reflexivity.
Qed.

(** *** The donate button *)

Definition donateShape (time : Z) (d : DonateState) : Prop :=
  match getButtonContent d with
  | Sending => success d = false /\ donateError d = None /\ resetTimer d = None
  | ThankYou =>
      donateError d = None /\ exists due, resetTimer d = Some due /\ due <= time + RESET_MS
  | MaybeNextTime =>
      donateError d = Some noHash
      /\ exists due, resetTimer d = Some due /\ due <= time + RESET_MS
  | Donate => donateError d = None /\ resetTimer d = None
  end.

Lemma donateStep_shape time d e :
  donateShape time d -> donateShape (donateStep time d e).1 (donateStep time d e).2.
Proof.
  unfold donateShape, getButtonContent. destruct d as [sg sc er tm]. cbn.
  destruct e; cbn.
  - destruct sg; cbn; [done|]. unfold resetEffect, handleSendStart. cbn.
    destruct sc; cbn.
    + intros (-> & due & -> & Hle). cbn. done.
    + destruct (truthy er) eqn:Et.
      * intros (-> & due & -> & Hle). cbn. done.
      * intros (-> & ->). cbn. done.
  - destruct sg; cbn.
    + intros (-> & -> & ->). unfold resetEffect, handleSendEnd.
      destruct (truthy result); cbn; (split; [done|]); eexists; (split; [done|]);
        unfold RESET_MS; lia.
    + done.
  - destruct tm as [due|]; [|done]. destruct (due <=? time); [|done].
    unfold resetEffect, onResetTimer. cbn.
    destruct sg; cbn.
    + intros (-> & -> & ?). done.
    + destruct sc; cbn.
      * intros (-> & _). cbn. done.
      * destruct (truthy er) eqn:Et.
        -- intros (-> & _). cbn. done.
        -- intros (-> & ?). done.
  - destruct sg; [done|]. destruct sc.
    + intros (-> & due & -> & Hle). split; [done|]. exists due. split; [done|]. lia.
    + destruct (truthy er).
      * intros (-> & due & -> & Hle). split; [done|]. exists due. split; [done|]. lia.
      * done.
Qed.

(** X28.  Whatever the order of clicks, results, timers and delays, the donate
    button is in one of four states.  While it sends it shows no outcome
    and has no timer; an outcome it shows has a timer pending that takes it
    back, due at most 3000 ms from now; the only error text it ever holds is
    its own fixed one, never the cause, which the bridge keeps; and without
    an outcome no timer is pending. *)
Theorem donate_button_states (time : Z) (es : list DonateEvent) :
  let td := donateRun time initialDonate es in
  donateShape td.1 td.2.
Proof.
  cbn zeta.
  assert (H : forall es t d, donateShape t d ->
                donateShape (donateRun t d es).1 (donateRun t d es).2).
  { clear. induction es as [|e es IH]; intros t d Hd; unfold donateRun; cbn [foldl]; [done|].
    cbn [fst snd]. pose proof (donateStep_shape t d e Hd) as H1.
    destruct (donateStep t d e) as [t1 d1]. exact (IH t1 d1 H1). }
  apply H. cbn. done.
Qed.

(** *** Sample runs *)

Definition firstKeySeen : ConnectButtonState :=
  {| previousPublicKey := Some "ban_1abc"; isAccountSwitching := false; switchTimer := None |}.

Definition noticeShown : ConnectButtonState :=
  {| previousPublicKey := Some "ban_1abc"; isAccountSwitching := true;
     switchTimer := Some 1500 |}.

Lemma shorten_spec_witness :
  String.length (shorten 6 "ban_1abcdefghijklmnop") = 15%nat
  /\ shorten 6 "ban" = "ban...ban".
Proof.
  pose proof (shorten_spec 6 "ban_1abcdefghijklmnop") as (H1 & _).
  pose proof (shorten_spec 6 "ban") as (_ & _ & H2).
  split; [exact H1 | apply H2; cbn; lia].
Defined.

Lemma previous_key_is_first_key_witness :
  previousPublicKey
    (pageRun (connectedState, firstKeySeen)
       [Bridge (AccountChangedEvent "ban_3xyz"); Bridge (Tick 1500); SwitchTimer]).2
  = Some "ban_1abc".
Proof.
  exact (proj1 (previous_key_is_first_key (connectedState, firstKeySeen)
                  [Bridge (AccountChangedEvent "ban_3xyz"); Bridge (Tick 1500); SwitchTimer]
                  eq_refl)).
Defined.

Lemma switch_notice_ends_only_by_timer_witness :
  exists due, switchTimer noticeShown = Some due
              /\ due <= now (run connectedState [Tick 1500]).1.
Proof.
  assert (H : isAccountSwitching
                (pageStep ((run connectedState [Tick 1500]).1, noticeShown) SwitchTimer).2
              = false) by (vm_compute; reflexivity).
  exact (proj2 (switch_notice_ends_only_by_timer
                  ((run connectedState [Tick 1500]).1, noticeShown) SwitchTimer eq_refl H)).
Defined.

Lemma switch_back_leaves_notice_witness :
  let p := pageRun (connectedState, firstKeySeen)
             [Bridge (AccountChangedEvent "ban_3xyz"); Bridge (Tick 100); SwitchTimer;
              Bridge (AccountChangedEvent "ban_1abc")] in
  isAccountSwitching p.2 = true /\ switchTimer p.2 = None
  /\ ConnectButton p.1 p.2 = AccountSwitched.
Proof.
  assert (Hi : initialized connectedState = true) by (vm_compute; reflexivity).
  assert (Hk : publicKey connectedState = Some "ban_1abc") by (vm_compute; reflexivity).
  pose proof (switch_back_leaves_notice connectedState firstKeySeen "ban_1abc" "ban_3xyz" 100
                Hi Hk eq_refl ltac:(discriminate) ltac:(discriminate) ltac:(discriminate)
                eq_refl) as H.
  cbv zeta in H. destruct H as (H1 & H2 & _ & _ & H5 & _).
  cbv zeta. split; [exact H1|]. split; [exact H2|].
  apply H5; vm_compute; reflexivity.
Defined.

Lemma failure_takes_over_connect_button_witness :
  ConnectButton (step resolvingState (Settle 1 (Rejected (ErrorObj "boom")))).1 firstKeySeen
  = ErrorDismiss.
Proof.
  assert (Hr : reachable resolvingState)
    by apply reachable_run, reachable_run, reachable_mount.
  assert (Hp : provider resolvingState <> None) by (vm_compute; discriminate).
  assert (Hm : last (errorsReported
                       (step resolvingState (Settle 1 (Rejected (ErrorObj "boom")))).2)
               = Some "boom") by (vm_compute; reflexivity).
  exact (proj1 (failure_takes_over_connect_button resolvingState
                  (Settle 1 (Rejected (ErrorObj "boom"))) "boom" firstKeySeen Hr Hp Hm)).
Defined.

End ComponentFacts.
